(** * MCP Neo4j Cypher server: request pipeline

  A shallow embedding of the request pipeline of the Cloudflare Workers
  server (query validation, tool handlers, rate limiting, response
  shaping, credential encryption) together with the properties stated
  about it.

  Layout: the first part of the file holds the embedding, one module per
  source file; the second part holds the lemmas and theorems.

  Conventions.
  - A JavaScript string is the list of its UTF-16 code units ([list N]).
  - A thrown exception is the [Throw] outcome of the error monad.
  - Logging calls ([logger.*], [audit.*]) have no effect on any value the
    program computes and are left out. *)

From Stdlib Require Import ZArith NArith List String Ascii Bool Lia Floats.
From Stdlib Require Import DecimalString.
From Stdlib.Strings Require Import Byte.
From stdpp Require Import gmap.
Import ListNotations.

Set Default Proof Using "Type".
Set Warnings "-register-all".

(* ===================================================================== *)
(** * Part I. The embedding                                               *)
(* ===================================================================== *)

(** ** JavaScript strings *)

Module JsString.
Open Scope N_scope.

Definition jsstring := list N.

(** A string literal of the source, as code units. *)
Definition js (s : string) : jsstring :=
  map N_of_ascii (list_ascii_of_string s).

(** ECMAScript LineTerminator: LF, CR, LS, PS. *)
Definition isLineTerminator (c : N) : bool :=
  (c =? 10) || (c =? 13) || (c =? 0x2028) || (c =? 0x2029).

(** ECMAScript WhiteSpace: TAB, VT, FF, SP, NBSP, ZWNBSP and the
    Unicode space separators. *)
Definition isWhiteSpace (c : N) : bool :=
  (c =? 9) || (c =? 11) || (c =? 12) || (c =? 32) || (c =? 0xA0)
  || (c =? 0x1680) || ((0x2000 <=? c) && (c <=? 0x200A))
  || (c =? 0x202F) || (c =? 0x205F) || (c =? 0x3000) || (c =? 0xFEFF).

(** The class [\s] of regular expressions, also what [trim] strips. *)
Definition isSpace (c : N) : bool := isWhiteSpace c || isLineTerminator c.

Definition isDigit (c : N) : bool := (48 <=? c) && (c <=? 57).
Definition isUpper (c : N) : bool := (65 <=? c) && (c <=? 90).
Definition isLower (c : N) : bool := (97 <=? c) && (c <=? 122).
Definition isLetter (c : N) : bool := isUpper c || isLower c.

(** The class [\w]. *)
Definition isWordChar (c : N) : bool :=
  isLetter c || isDigit c || (c =? 95).

Definition asciiUpper (c : N) : N := if isLower c then c - 32 else c.
Definition asciiLower (c : N) : N := if isUpper c then c + 32 else c.

(** [String.prototype.toLowerCase].  The ASCII letters, and the two code
    units outside ASCII whose lower-case form contains an ASCII letter
    (U+0130 becomes "i" followed by U+0307, the Kelvin sign U+212A becomes
    "k"), are converted.  Every other code unit lies outside ASCII and
    outside [\s] before and after the conversion; none of the patterns
    and substrings of this program tells such code units apart, so they
    are left in place. *)
Definition lowerUnit (c : N) : jsstring :=
  if c =? 0x130 then [105; 0x307]
  else if c =? 0x212A then [107]
  else [asciiLower c].

Definition toLowerCase (s : jsstring) : jsstring := flat_map lowerUnit s.

Fixpoint trimStart (s : jsstring) : jsstring :=
  match s with
  | c :: s' => if isSpace c then trimStart s' else s
  | [] => []
  end.

Definition trimEnd (s : jsstring) : jsstring := rev (trimStart (rev s)).

(** [String.prototype.trim]. *)
Definition trim (s : jsstring) : jsstring := trimEnd (trimStart s).

(** [s.length]. *)
Definition jslength (s : jsstring) : Z := Z.of_nat (length s).

(** [s.substring(from, to)]: both indices are clamped to [0, length] and
    swapped when out of order. *)
Definition substring (s : jsstring) (from to : Z) : jsstring :=
  let len := jslength s in
  let a := Z.min (Z.max from 0) len in
  let b := Z.min (Z.max to 0) len in
  let lo := Z.min a b in
  let hi := Z.max a b in
  firstn (Z.to_nat (hi - lo)) (skipn (Z.to_nat lo) s).

Fixpoint lastIndexOf_from (s : jsstring) (ch : N) (start i acc : Z) : Z :=
  match s with
  | [] => acc
  | c :: s' =>
      lastIndexOf_from s' ch start (i + 1)%Z
        (if (c =? ch) && (i <=? start)%Z then i else acc)
  end.

(** [s.lastIndexOf(ch, position)] for a one-unit search string: the
    greatest index [i <= max(position, 0)] holding [ch], or -1. *)
Definition lastIndexOf (s : jsstring) (ch : N) (position : Z) : Z :=
  lastIndexOf_from s ch (Z.max position 0) 0%Z (-1)%Z.

Fixpoint isPrefixOf (p s : jsstring) : bool :=
  match p, s with
  | [], _ => true
  | a :: p', b :: s' => (a =? b) && isPrefixOf p' s'
  | _ :: _, [] => false
  end.

(** [s.includes(p)]. *)
Fixpoint includes (s p : jsstring) : bool :=
  isPrefixOf p s
  || match s with
     | [] => false
     | _ :: s' => includes s' p
     end.

Definition eqb (a b : jsstring) : bool :=
  if decide (a = b) then true else false.

(** [s.isWellFormed()]: every code unit has 16 bits and no surrogate is
    unpaired. *)
Fixpoint isWellFormed (s : jsstring) : bool :=
  match s with
  | [] => true
  | c :: s' =>
      if (0xD800 <=? c) && (c <=? 0xDBFF) then
        match s' with
        | d :: s'' => (0xDC00 <=? d) && (d <=? 0xDFFF) && isWellFormed s''
        | [] => false
        end
      else (c <? 0x10000) && negb ((0xDC00 <=? c) && (c <=? 0xDFFF))
           && isWellFormed s'
  end.

(** Decimal rendering of a non-negative integer, as [String(n)] and
    template literals produce it. *)
Definition ofN (n : N) : jsstring :=
  js (NilZero.string_of_uint (N.to_uint n)).

Definition ofZ (z : Z) : jsstring :=
  js (NilZero.string_of_int (Z.to_int z)).
End JsString.

(** ** Regular expressions

  The matcher follows the continuation-passing semantics of the ECMAScript
  specification: a matcher takes the current state and a continuation and
  backtracks on failure.  Only the constructs used by the patterns of this
  program are present; every quantified atom in them is a one-unit class. *)

Module Regex.
Import JsString.
Open Scope N_scope.

Inductive regex : Type :=
| Eps                          (* the empty pattern *)
| Chr (p : N -> bool)          (* one code unit of a class *)
| Seq (r1 r2 : regex)
| Alt (r1 r2 : regex)          (* r1|r2, left alternative first *)
| Star (p : N -> bool)         (* p*  (greedy) *)
| LazyStar (p : N -> bool)     (* p*? *)
| Group1 (r : regex)           (* capture group number 1 *)
| WordBoundary                 (* \b *)
| LineStart (multiline : bool) (* ^ *)
| LineEnd (multiline : bool)   (* $ *)
| NotAhead (r : regex).        (* (?!r) *)

(** Derived forms. *)
Definition Plus (p : N -> bool) : regex := Seq (Chr p) (Star p).
Definition Opt (r : regex) : regex := Alt r Eps.

Fixpoint seqs (rs : list regex) : regex :=
  match rs with
  | [] => Eps
  | [r] => r
  | r :: rs' => Seq r (seqs rs')
  end.

Fixpoint alts (rs : list regex) : regex :=
  match rs with
  | [] => NotAhead Eps
  | [r] => r
  | r :: rs' => Alt r (alts rs')
  end.

Definition only (c : N) : N -> bool := fun x => x =? c.

(** A pattern character under the [i] flag (without [u]): both sides are
    canonicalised with [toUpperCase], and a code unit outside ASCII never
    canonicalises to an ASCII one, so an ASCII pattern character matches
    exactly its two ASCII cases. *)
Definition isNoCase (c : N) : N -> bool :=
  fun x => asciiUpper x =? asciiUpper c.

(** Literal text, case-sensitive and case-insensitive. *)
Definition lit (s : string) : regex := seqs (map (fun c => Chr (only c)) (js s)).
Definition liti (s : string) : regex :=
  seqs (map (fun c => Chr (isNoCase c)) (js s)).

Definition anyUnit : N -> bool := fun _ => true.                 (* [\s\S] *)
Definition dot : N -> bool := fun c => negb (isLineTerminator c). (* . *)
Definition notUnit (c : N) : N -> bool := fun x => negb (x =? c). (* [^c] *)

(** Matcher state: the unit before the current position, the input from
    the current position on, and the text of capture group 1. *)
Record mstate : Type := MState {
  before : option N;
  rest : jsstring;
  cap1 : option jsstring
}.

Definition cont := mstate -> option mstate.

Definition isWordOpt (o : option N) : bool :=
  match o with
  | Some c => isWordChar c
  | None => false
  end.

Fixpoint starGreedy (p : N -> bool) (k : cont) (cap : option jsstring)
    (b : option N) (s : jsstring) : option mstate :=
  match s with
  | c :: s' =>
      if p c then
        match starGreedy p k cap (Some c) s' with
        | Some r => Some r
        | None => k (MState b s cap)
        end
      else k (MState b s cap)
  | [] => k (MState b s cap)
  end.

Fixpoint starLazy (p : N -> bool) (k : cont) (cap : option jsstring)
    (b : option N) (s : jsstring) : option mstate :=
  match k (MState b s cap) with
  | Some r => Some r
  | None =>
      match s with
      | c :: s' => if p c then starLazy p k cap (Some c) s' else None
      | [] => None
      end
  end.

Fixpoint rmatch (r : regex) (k : cont) (st : mstate) : option mstate :=
  match r with
  | Eps => k st
  | Chr p =>
      match rest st with
      | c :: s' => if p c then k (MState (Some c) s' (cap1 st)) else None
      | [] => None
      end
  | Seq r1 r2 => rmatch r1 (fun st' => rmatch r2 k st') st
  | Alt r1 r2 =>
      match rmatch r1 k st with
      | Some res => Some res
      | None => rmatch r2 k st
      end
  | Star p => starGreedy p k (cap1 st) (before st) (rest st)
  | LazyStar p => starLazy p k (cap1 st) (before st) (rest st)
  | Group1 r1 =>
      rmatch r1
        (fun st' =>
           let n := (length (rest st) - length (rest st'))%nat in
           k (MState (before st') (rest st') (Some (firstn n (rest st)))))
        st
  | WordBoundary =>
      if xorb (isWordOpt (before st)) (isWordOpt (head (rest st)))
      then k st else None
  | LineStart m =>
      match before st with
      | None => k st
      | Some c => if m && isLineTerminator c then k st else None
      end
  | LineEnd m =>
      match rest st with
      | [] => k st
      | c :: _ => if m && isLineTerminator c then k st else None
      end
  | NotAhead r1 =>
      match rmatch r1 Some st with
      | Some _ => None
      | None => k st
      end
  end.

(** One match attempt at the current position. *)
Definition matchHere (r : regex) (b : option N) (s : jsstring)
  : option mstate :=
  rmatch r Some (MState b s None).

(** [RegExp.prototype.exec] on a regex without the [g] flag: the leftmost
    position at which the pattern matches. *)
Fixpoint execFrom (r : regex) (b : option N) (s : jsstring)
  : option mstate :=
  match matchHere r b s with
  | Some st => Some st
  | None =>
      match s with
      | [] => None
      | c :: s' => execFrom r (Some c) s'
      end
  end.

Definition exec (r : regex) (s : jsstring) : option mstate :=
  execFrom r None s.

(** [r.test(s)]. *)
Definition test (r : regex) (s : jsstring) : bool :=
  match exec r s with
  | Some _ => true
  | None => false
  end.

(** [s.replace(r, repl)] for a regex with the [g] flag and a replacement
    without [$] patterns.  [skip] counts the units of the current match
    still to be dropped; after an empty match the scan advances by one
    unit, which is copied. *)
Fixpoint replaceGo (r : regex) (repl : jsstring) (skip : nat)
    (b : option N) (s : jsstring) : jsstring :=
  match s with
  | [] =>
      match skip with
      | O => match matchHere r b [] with
             | Some _ => repl
             | None => []
             end
      | S _ => []
      end
  | c :: s' =>
      match skip with
      | S n => replaceGo r repl n (Some c) s'
      | O =>
          match matchHere r b s with
          | Some st =>
              repl ++
              match (length s - length (rest st))%nat with
              | O => c :: replaceGo r repl 0 (Some c) s'
              | S n => replaceGo r repl n (Some c) s'
              end
          | None => c :: replaceGo r repl 0 (Some c) s'
          end
      end
  end.

Definition replaceAll (r : regex) (repl : jsstring) (s : jsstring)
  : jsstring :=
  replaceGo r repl 0 None s.
End Regex.

(** ** JavaScript values

  The values that travel through the pipeline: what [JSON.parse] produces,
  plus [undefined].  An object is the list of its own enumerable
  properties in enumeration order; keys are unique. *)

Module JsValue.
Import JsString.

Inductive value : Type :=
| Undefined
| Null
| Bool (b : bool)
| Num (x : float)
| Str (s : jsstring)
| Arr (items : list value)
| Obj (props : list (jsstring * value)).

Definition object := list (jsstring * value).

Fixpoint lookupProp (o : object) (k : jsstring) : option value :=
  match o with
  | [] => None
  | (k', v) :: o' => if JsString.eqb k k' then Some v else lookupProp o' k
  end.

(** [o[k]] for a key that [Object.prototype] does not define. *)
Definition getProp (o : object) (k : jsstring) : value :=
  match lookupProp o k with
  | Some v => v
  | None => Undefined
  end.

Fixpoint replaceProp (o : object) (k : jsstring) (v : value) : object :=
  match o with
  | [] => []
  | (k', v') :: o' =>
      if JsString.eqb k k' then (k', v) :: o'
      else (k', v') :: replaceProp o' k v
  end.

(** [o[k] = v] on an ordinary object whose prototype is
    [Object.prototype].  An existing own property is overwritten in place
    and a new one is appended.  The key ["__proto__"] is the exception:
    the assignment reaches the accessor [Object.prototype.__proto__]
    (ECMAScript B.2.2.1), whose setter changes the prototype when [v] is
    an object or [null] and does nothing otherwise; in both cases no own
    property is created, so the list of own properties is unchanged. *)
Definition setProp (o : object) (k : jsstring) (v : value) : object :=
  if JsString.eqb k (js "__proto__") then o
  else match lookupProp o k with
       | Some _ => replaceProp o k v
       | None => o ++ [(k, v)]
       end.

(** [typeof v === 'number' && !Number.isNaN(v)]. *)
Definition isRealNumber (v : value) : bool :=
  match v with
  | Num x => negb (PrimFloat.is_nan x)
  | _ => false
  end.

Definition isNullish (v : value) : bool :=
  match v with
  | Undefined | Null => true
  | _ => false
  end.

Definition isUndefined (v : value) : bool :=
  match v with
  | Undefined => true
  | _ => false
  end.

(** ['k' in o] for a key that [Object.prototype] does not define. *)
Definition hasProp (o : object) (k : jsstring) : bool :=
  match lookupProp o k with
  | Some _ => true
  | None => false
  end.
End JsValue.

(** ** JavaScript numbers

  A JavaScript number is a binary64 floating-point number: the primitive
  [float], with the IEEE 754 operations [+], [-], [*], [<?] and [<=?]. *)

Module JsNumber.
Open Scope Z_scope.

Definition number := float.

(** The number that an integer literal or an integer-valued expression
    denotes: [z] rounded to binary64 (exact below 2^53). *)
Definition ofInt (z : Z) : number :=
  SF2Prim (binary_normalize prec emax z 0 false).

Inductive integerOrInfinity : Type :=
| Integer (z : Z)
| PlusInfinity
| MinusInfinity.

(** The integral part of [m * 2^e]. *)
Definition integralPart (m : positive) (e : Z) : Z :=
  match e with
  | Z0 => Zpos m
  | Zpos _ => Zpos m * 2 ^ e
  | Zneg p => Zpos m / 2 ^ Zpos p
  end.

(** ECMAScript [ToIntegerOrInfinity]. *)
Definition ToIntegerOrInfinity (x : number) : integerOrInfinity :=
  match Prim2SF x with
  | S754_nan | S754_zero _ => Integer 0
  | S754_infinity s => if s then MinusInfinity else PlusInfinity
  | S754_finite s m e => Integer (cond_Zopp s (integralPart m e))
  end.

(** An index given as a number, for a string of length [len]: both
    infinities fall outside [0, len] and are clamped by the callers. *)
Definition clampIndex (len : Z) (i : integerOrInfinity) : Z :=
  match i with
  | Integer z => z
  | PlusInfinity => len
  | MinusInfinity => 0
  end.

(** *** Notions used in the statements of Part II *)

(** [c * 2^j]. *)
Definition shiftl_pos (c : positive) (j : Z) : positive :=
  match j with
  | Zpos p => Pos.iter xO c p
  | _ => c
  end.

(** The finite binary64 number of sign [s] and magnitude [c], for [c]
    below 2^53: the mantissa has 53 digits. *)
Definition canon (s : bool) (c : positive) : spec_float :=
  S754_finite s (shiftl_pos c (53 - Zpos (digits2_pos c)))
    (Zpos (digits2_pos c) - 53).

(** The binary64 form of an integer below 2^53 in magnitude. *)
Definition canonZ (z : Z) : spec_float :=
  match z with
  | Z0 => S754_zero false
  | Zpos c => canon false c
  | Zneg c => canon true c
  end.
End JsNumber.

(** ** utils/errors.ts *)

Module Errors.
Import JsString JsValue.
Open Scope Z_scope.

(** [JSON_RPC_ERROR_CODES] of types.ts. *)
Definition PARSE_ERROR : Z := -32700.
Definition INVALID_REQUEST : Z := -32600.
Definition METHOD_NOT_FOUND : Z := -32601.
Definition INVALID_PARAMS : Z := -32602.
Definition INTERNAL_ERROR : Z := -32603.
Definition NEO4J_CONNECTION_ERROR : Z := -32001.
Definition NEO4J_QUERY_ERROR : Z := -32002.
Definition AUTHENTICATION_ERROR : Z := -32003.
Definition RATE_LIMIT_ERROR : Z := -32004.
Definition VALIDATION_ERROR : Z := -32005.

(** The subclasses of [McpError]. *)
Inductive errorClass : Type :=
| ParseErrorC | InvalidRequestErrorC | MethodNotFoundErrorC
| InvalidParamsErrorC | InternalErrorC | Neo4jConnectionErrorC
| Neo4jQueryErrorC | AuthenticationErrorC | RateLimitErrorC
| ValidationErrorC.

Record McpError : Type := MkMcpError {
  errClass : errorClass;
  code : Z;
  message : jsstring;
  data : option value
}.

(** What a [throw] carries: an [McpError] or another [Error]. *)
Inductive exn : Type :=
| Mcp (e : McpError)
| OtherError (msg : jsstring).

Definition ParseError (msg : jsstring) : exn :=
  Mcp (MkMcpError ParseErrorC PARSE_ERROR msg None).
Definition InvalidRequestError (msg : jsstring) : exn :=
  Mcp (MkMcpError InvalidRequestErrorC INVALID_REQUEST msg None).
Definition MethodNotFoundError (method : jsstring) : exn :=
  Mcp (MkMcpError MethodNotFoundErrorC METHOD_NOT_FOUND
         (js "Method not found: " ++ method) None).
Definition InvalidParamsError (msg : jsstring) : exn :=
  Mcp (MkMcpError InvalidParamsErrorC INVALID_PARAMS msg None).
Definition InternalError (msg : jsstring) : McpError :=
  MkMcpError InternalErrorC INTERNAL_ERROR msg None.
Definition ValidationError (msg : jsstring) : exn :=
  Mcp (MkMcpError ValidationErrorC VALIDATION_ERROR msg None).

(** [toMcpError]. *)
Definition toMcpError (e : exn) : McpError :=
  match e with
  | Mcp m => m
  | OtherError msg => InternalError msg
  end.

(** The result of a computation that may throw. *)
Inductive outcome (A : Type) : Type :=
| Ok (a : A)
| Throw (e : exn).
Arguments Ok {A} a.
Arguments Throw {A} e.

(** *** Notions used in the statements of Part II *)

(** The fault thrown for a blocked or malformed query: class
    [ValidationError], code -32005. *)
Definition validationFault (msg : jsstring) : exn :=
  Mcp (MkMcpError ValidationErrorC (-32005) msg None).
End Errors.

(** ** security/query-validator.ts *)

Module QueryValidator.
Import JsString Regex JsValue.
Open Scope Z_scope.

Inductive QueryType : Type := read | write | admin | unknown.

Record QueryValidationResult : Type := MkResult {
  valid : bool;
  error : option jsstring;
  warnings : list jsstring;
  queryType : QueryType
}.

(** [/\bA\s+B\b/i] and [/\bA\b/i]. *)
Definition words2 (a b : string) : regex :=
  seqs [WordBoundary; liti a; Plus isSpace; liti b; WordBoundary].
Definition word1 (a : string) : regex :=
  seqs [WordBoundary; liti a; WordBoundary].

Definition quoteMark : N -> bool := fun c => (c =? 39)%N || (c =? 34)%N.

Definition pat_CREATE_DATABASE := words2 "CREATE" "DATABASE".
Definition pat_DROP_DATABASE := words2 "DROP" "DATABASE".
Definition pat_CREATE_USER := words2 "CREATE" "USER".
Definition pat_GRANT := word1 "GRANT".
Definition pat_REVOKE := word1 "REVOKE".
(** [/\bLOAD\s+CSV\s+FROM\s+Q https?:/i] where [Q] is the class of the two
    quote marks (single and double). *)
Definition pat_LOAD_CSV_remote : regex :=
  seqs [WordBoundary; liti "LOAD"; Plus isSpace; liti "CSV"; Plus isSpace;
        liti "FROM"; Plus isSpace; Chr quoteMark; liti "http";
        Opt (liti "s"); lit ":"].

Definition DANGEROUS_OPERATIONS : list (regex * jsstring) :=
  [ (pat_CREATE_DATABASE, js "CREATE DATABASE is not allowed");
    (pat_DROP_DATABASE, js "DROP DATABASE is not allowed");
    (words2 "STOP" "DATABASE", js "STOP DATABASE is not allowed");
    (words2 "START" "DATABASE", js "START DATABASE is not allowed");
    (pat_CREATE_USER, js "CREATE USER is not allowed");
    (words2 "DROP" "USER", js "DROP USER is not allowed");
    (words2 "ALTER" "USER", js "ALTER USER is not allowed");
    (words2 "CREATE" "ROLE", js "CREATE ROLE is not allowed");
    (words2 "DROP" "ROLE", js "DROP ROLE is not allowed");
    (pat_GRANT, js "GRANT is not allowed");
    (pat_REVOKE, js "REVOKE is not allowed");
    (word1 "DENY", js "DENY is not allowed");
    (words2 "DETACH" "DELETE",
     js "DETACH DELETE is potentially dangerous - use with caution");
    (seqs [WordBoundary; liti "CALL"; Plus isSpace; lit "{"],
     js "Subquery CALL blocks may be restricted");
    (seqs [WordBoundary; liti "CALL"; Plus isSpace; liti "dbms"; lit "."],
     js "System DBMS procedures are not allowed");
    (seqs [WordBoundary; liti "CALL"; Plus isSpace; liti "db"; lit ".";
           NotAhead (alts [liti "labels"; liti "relationshipTypes";
                           liti "propertyKeys"; liti "schema"])],
     js "Most db.* procedures are not allowed");
    (pat_LOAD_CSV_remote, js "LOAD CSV from remote URLs is not allowed") ].

Definition WRITE_OPERATIONS : list regex :=
  [ word1 "CREATE"; word1 "MERGE"; word1 "DELETE"; word1 "SET";
    word1 "REMOVE"; word1 "FOREACH" ].

Definition adminObjects : regex :=
  alts [liti "INDEX"; liti "CONSTRAINT"; liti "DATABASE"; liti "USER";
        liti "ROLE"].

Definition ADMIN_OPERATIONS : list regex :=
  [ seqs [WordBoundary; liti "CREATE"; Plus isSpace; adminObjects;
          WordBoundary];
    seqs [WordBoundary; liti "DROP"; Plus isSpace; adminObjects;
          WordBoundary];
    word1 "ALTER"; word1 "GRANT"; word1 "REVOKE" ].

(** [/MATCH\s+\([^)]*\)\s*(?!WHERE|RETURN|-)/i] *)
Definition pat_unboundedMatch : regex :=
  seqs [liti "MATCH"; Plus isSpace; lit "("; Star (notUnit 41); lit ")";
        Star isSpace;
        NotAhead (alts [liti "WHERE"; liti "RETURN"; lit "-"])].

(** [/\bLIMIT\s+(\d+)/i] *)
Definition pat_limit : regex :=
  seqs [WordBoundary; liti "LIMIT"; Plus isSpace; Group1 (Plus isDigit)].

(** [parseInt(digits, 10)] on a string of decimal digits.  The exact
    integer stands for the double: rounding is monotone and 10000 is a
    double, so the comparison with 10000 below is not affected. *)
Definition parseDigits (s : jsstring) : N :=
  fold_left (fun acc c => (10 * acc + (c - 48))%N) s 0%N.

Definition limitCheck (st : mstate) : option jsstring :=
  let limit := parseDigits (match cap1 st with Some d => d | None => js "0" end) in
  if (10000 <? limit)%N
  then Some (js "Large LIMIT value may cause performance issues")
  else None.

(** One entry of [WARNING_PATTERNS]: a pattern with a [check] function
    or a fixed [message]. *)
Inductive warningRule : Type :=
| WithMessage (pattern : regex) (message : jsstring)
| WithCheck (pattern : regex) (check : mstate -> option jsstring).

Definition WARNING_PATTERNS : list warningRule :=
  [ WithMessage pat_unboundedMatch
      (js "Unbounded MATCH may return large results");
    WithCheck pat_limit limitCheck ].

Definition MAX_QUERY_LENGTH : Z := 50000.

Definition lineComment : regex := seqs [lit "//"; Star dot; LineEnd true].
Definition blockComment : regex :=
  seqs [lit "/*"; LazyStar anyUnit; lit "*/"].

(** [removeComments]. *)
Definition removeComments (query : jsstring) : jsstring :=
  let result := replaceAll lineComment [] query in
  replaceAll blockComment [] result.

(** [detectQueryType]. *)
Definition detectQueryType (query : jsstring) : QueryType :=
  if existsb (fun p => test p query) ADMIN_OPERATIONS then admin
  else if existsb (fun p => test p query) WRITE_OPERATIONS then write
  else if test (seqs [WordBoundary;
                      alts [liti "MATCH"; liti "RETURN"; liti "WITH";
                            liti "UNWIND"; liti "CALL"];
                      WordBoundary]) query
       then read
       else unknown.

Definition applyWarning (normalized : jsstring) (w : warningRule)
  : list jsstring :=
  match w with
  | WithMessage p msg =>
      match exec p normalized with
      | Some _ => [msg]
      | None => []
      end
  | WithCheck p check =>
      match exec p normalized with
      | Some st => match check st with
                   | Some msg => [msg]
                   | None => []
                   end
      | None => []
      end
  end.

(** [validateQuery]. *)
Definition validateQuery (query : jsstring) : QueryValidationResult :=
  if MAX_QUERY_LENGTH <? jslength query then
    MkResult false
      (Some (js "Query too long (" ++ ofZ (jslength query)
             ++ js " chars). Maximum allowed: " ++ ofZ MAX_QUERY_LENGTH))
      [] unknown
  else
    match trim query with
    | [] => MkResult false (Some (js "Query cannot be empty")) [] unknown
    | _ :: _ =>
        let normalizedQuery := removeComments query in
        match find (fun op => test (fst op) normalizedQuery)
                DANGEROUS_OPERATIONS with
        | Some (_, message) => MkResult false (Some message) [] admin
        | None =>
            let queryType := detectQueryType normalizedQuery in
            let warnings :=
              flat_map (applyWarning normalizedQuery) WARNING_PATTERNS in
            MkResult true None warnings queryType
        end
    end.

(** [isReadOnlyQuery]. *)
Definition isReadOnlyQuery (query : jsstring) : bool :=
  match detectQueryType (removeComments query) with
  | read | unknown => true
  | _ => false
  end.

(** [containsWriteOperations]. *)
Definition containsWriteOperations (query : jsstring) : bool :=
  existsb (fun p => test p (removeComments query)) WRITE_OPERATIONS.

(** [/^[a-zA-Z_][a-zA-Z0-9_]*$/] *)
Definition pat_paramKey : regex :=
  seqs [LineStart false;
        Chr (fun c => isLetter c || (c =? 95)%N);
        Star isWordChar;
        LineEnd false].

(** [sanitizeParameters].  Every value of the embedding is [null],
    [undefined], a string, a number, a boolean, an array or an object, so
    the test on the value's type always holds and only the key decides. *)
Definition sanitizeParameters (params : option object) : option object :=
  match params with
  | None => None
  | Some entries =>
      let sanitized :=
        fold_left
          (fun (acc : object) (kv : jsstring * value) =>
             if test pat_paramKey (fst kv)
             then setProp acc (fst kv) (snd kv)
             else acc)
          entries [] in
      match sanitized with
      | [] => None
      | _ :: _ => Some sanitized
      end
  end.

(** *** Notions used in the statements of Part II *)

Definition keyOk (kv : jsstring * value) : bool := test pat_paramKey (fst kv).

Definition sanitizeStep (acc : object) (kv : jsstring * value) : object :=
  if test pat_paramKey (fst kv) then setProp acc (fst kv) (snd kv) else acc.
End QueryValidator.

(** ** neo4j/queries.ts (query classification and syntax check) *)

Module Queries.
Import JsString Regex.
Open Scope Z_scope.

(** [/\bW\s/] *)
Definition wordThenSpace (w : string) : regex :=
  seqs [WordBoundary; lit w; Chr isSpace].

Definition writePatterns : list regex :=
  [ wordThenSpace "create";
    wordThenSpace "merge";
    wordThenSpace "delete";
    seqs [WordBoundary; lit "detach"; Plus isSpace; lit "delete";
          Chr isSpace];
    wordThenSpace "set";
    wordThenSpace "remove";
    wordThenSpace "drop";
    seqs [WordBoundary; lit "call"; Star isSpace; lit "{";
          Star (notUnit 125); WordBoundary;
          alts [lit "create"; lit "merge"; lit "delete"; lit "set";
                lit "remove"];
          WordBoundary];
    seqs [WordBoundary; lit "foreach"; Star isSpace; lit "("] ].

Definition normalize (cypher : jsstring) : jsstring :=
  trim
    (replaceAll (Plus isSpace) (js " ")
       (replaceAll QueryValidator.lineComment []
          (replaceAll QueryValidator.blockComment []
             (toLowerCase cypher)))).

(** [isWriteQuery]. *)
Definition isWriteQuery (cypher : jsstring) : bool :=
  existsb (fun p => test p (normalize cypher)) writePatterns.

Record SyntaxCheck : Type := MkSyntaxCheck {
  valid : bool;
  error : option jsstring
}.

(** The loop of [validateCypherSyntax] over the trimmed text: [None] when
    a counter went negative, the three counters otherwise. *)
Fixpoint countBrackets (s : jsstring) (paren bracket brace : Z)
  : option (Z * Z * Z) :=
  match s with
  | [] => Some (paren, bracket, brace)
  | c :: s' =>
      let paren := if (c =? 40)%N then paren + 1
                   else if (c =? 41)%N then paren - 1 else paren in
      let bracket := if (c =? 91)%N then bracket + 1
                     else if (c =? 93)%N then bracket - 1 else bracket in
      let brace := if (c =? 123)%N then brace + 1
                   else if (c =? 125)%N then brace - 1 else brace in
      if (paren <? 0) || (bracket <? 0) || (brace <? 0) then None
      else countBrackets s' paren bracket brace
  end.

(** [validateCypherSyntax]. *)
Definition validateCypherSyntax (cypher : jsstring) : SyntaxCheck :=
  let trimmed := trim cypher in
  match trimmed with
  | [] => MkSyntaxCheck false (Some (js "Query cannot be empty"))
  | _ :: _ =>
      match countBrackets trimmed 0 0 0 with
      | None => MkSyntaxCheck false (Some (js "Unbalanced brackets in query"))
      | Some (paren, bracket, brace) =>
          if negb (paren =? 0) then
            MkSyntaxCheck false (Some (js "Unbalanced parentheses in query"))
          else if negb (bracket =? 0) then
            MkSyntaxCheck false
              (Some (js "Unbalanced square brackets in query"))
          else if negb (brace =? 0) then
            MkSyntaxCheck false (Some (js "Unbalanced curly braces in query"))
          else MkSyntaxCheck true None
      end
  end.

Import JsValue.

(** *** Notions used in the statements of Part II *)

(** The number of units [c] in [s]. *)
Definition occurrences (c : N) (s : jsstring) : Z :=
  Z.of_nat (length (List.filter (N.eqb c) s)).

(** Openers minus closers. *)
Definition depthOf (opener closer : N) (s : jsstring) : Z :=
  occurrences opener s - occurrences closer s.

(** No prefix of [s] closes more brackets of a kind than it opens, and
    [s] as a whole closes as many as it opens. *)
Definition balanced (opener closer : N) (s : jsstring) : Prop :=
  (forall n : nat, 0 <= depthOf opener closer (firstn n s))
  /\ depthOf opener closer s = 0.

(** *** The transformation of a query response *)

(** [key.startsWith('_')]. *)
Definition startsWithUnderscore (key : jsstring) : bool :=
  match key with
  | c :: _ => (c =? 95)%N
  | [] => false
  end.

(** [isNeo4jNode]. *)
Definition isNeo4jNode (v : value) : bool :=
  match v with
  | Obj o => hasProp o (js "_element_id") && hasProp o (js "_labels")
  | _ => false
  end.

(** [isNeo4jRelationship]. *)
Definition isNeo4jRelationship (v : value) : bool :=
  match v with
  | Obj o =>
      hasProp o (js "_element_id") && hasProp o (js "_type")
      && hasProp o (js "_start_node_element_id")
  | _ => false
  end.

(** [transformValue], with the loops of [transformNode] and
    [transformRelationship] in place: [copy result keep] runs
    [result[key] = transformValue(value)] over the entries whose key
    [keep] retains. *)
Fixpoint transformValue (v : value) : value :=
  match v with
  | Undefined | Null => Null
  | Arr items => Arr (map transformValue items)
  | Obj o =>
      let copy (result : object) (keep : jsstring -> bool) : object :=
        fold_left
          (fun (result : object) (kv : jsstring * value) =>
             if keep (fst kv)
             then setProp result (fst kv) (transformValue (snd kv))
             else result)
          o result in
      if isNeo4jNode v then
        Obj (copy [(js "_labels", getProp o (js "_labels"))]
               (fun key => negb (startsWithUnderscore key)))
      else if isNeo4jRelationship v then
        Obj (copy [(js "_type", getProp o (js "_type"))]
               (fun key => negb (startsWithUnderscore key)))
      else Obj (copy [] (fun _ => true))
  | _ => v
  end.

(** [transformNode] and [transformRelationship]. *)
Definition transformNode (node : object) : object :=
  fold_left
    (fun (result : object) (kv : jsstring * value) =>
       if negb (startsWithUnderscore (fst kv))
       then setProp result (fst kv) (transformValue (snd kv))
       else result)
    node [(js "_labels", getProp node (js "_labels"))].

Definition transformRelationship (rel : object) : object :=
  fold_left
    (fun (result : object) (kv : jsstring * value) =>
       if negb (startsWithUnderscore (fst kv))
       then setProp result (fst kv) (transformValue (snd kv))
       else result)
    rel [(js "_type", getProp rel (js "_type"))].

(** The [data] of a query response. *)
Record QueryData : Type := MkQueryData {
  fields : list jsstring;
  values : list (list value)
}.

Record QueryResult : Type := MkQueryResult {
  columns : list jsstring;
  rows : list object;
  rowCount : Z
}.

(** The inner loop of [transformQueryResult]: one row. *)
Definition transformRow (columns : list jsstring) (valueRow : list value)
  : object :=
  fold_left
    (fun (row : object) (ic : nat * jsstring) =>
       let colName := snd ic in
       match nth_error valueRow (fst ic) with
       | Some Undefined | None => setProp row colName Null
       | Some value => setProp row colName (transformValue value)
       end)
    (combine (seq 0 (length columns)) columns) [].

(** [transformQueryResult]. *)
Definition transformQueryResult (data : option QueryData) : QueryResult :=
  match data with
  | None => MkQueryResult [] [] 0
  | Some d =>
      let rows := map (transformRow (fields d)) (values d) in
      MkQueryResult (fields d) rows (Z.of_nat (length rows))
  end.
End Queries.

(** ** security/ratelimit.ts

  Counts and epoch seconds are integers far below 2^53, on which the
  arithmetic of JavaScript numbers is the arithmetic of [Z].  The clock is
  read once per call: [nowMs] is the value of [Date.now()]. *)

Module RateLimit.
Import JsString.
Open Scope Z_scope.

Record RateLimitConfig : Type := MkConfig {
  maxRequests : Z;
  windowSeconds : Z
}.

Record RateLimitResult : Type := MkRateLimitResult {
  allowed : bool;
  current : Z;
  limit : Z;
  resetIn : Z;
  remaining : Z
}.

Record RateLimitEntry : Type := MkEntry {
  count : Z;
  window : Z
}.

(** [DEFAULTS.RATE_LIMIT_REQUESTS], [DEFAULTS.RATE_LIMIT_WINDOW]. *)
Definition DEFAULT_CONFIG : RateLimitConfig := MkConfig 100 60.

(** The key-value namespace, restricted to the keys of the rate limiter:
    each holds the JSON text of a [RateLimitEntry] and the second at which
    the store drops it.  [online = false] stands for a store whose calls
    reject. *)
Record KVRecord : Type := MkKVRecord {
  stored : RateLimitEntry;
  expiresAt : Z
}.

Record KVNamespace : Type := MkKV {
  records : gmap jsstring KVRecord;
  online : bool
}.

(** [kv.get(key, 'json')] at second [now]; the outer [None] is a
    rejected call, the inner one is [null]. *)
Definition kvGet (kv : KVNamespace) (now : Z) (key : jsstring)
  : option (option RateLimitEntry) :=
  if online kv then
    Some (match records kv !! key with
          | Some r => if now <? expiresAt r then Some (stored r) else None
          | None => None
          end)
  else None.

(** [kv.put(key, JSON.stringify(entry), { expirationTtl })]. *)
Definition kvPut (kv : KVNamespace) (now : Z) (key : jsstring)
    (entry : RateLimitEntry) (expirationTtl : Z) : option KVNamespace :=
  if online kv then
    Some (MkKV (<[key := MkKVRecord entry (now + expirationTtl)]> (records kv))
            (online kv))
  else None.

(** [KV_PREFIXES.RATE_LIMIT]. *)
Definition RATE_LIMIT_PREFIX : jsstring := js "rate:".

Definition getRateLimitKey (identifier : jsstring) : jsstring :=
  RATE_LIMIT_PREFIX ++ identifier.

Definition nowSeconds (nowMs : Z) : Z := nowMs / 1000.

(** [getCurrentWindow]. *)
Definition getCurrentWindow (nowMs : Z) (windowSeconds : Z) : Z :=
  let now := nowSeconds nowMs in
  (now / windowSeconds) * windowSeconds.

(** The result of the [catch] branch. *)
Definition failOpen (config : RateLimitConfig) : RateLimitResult :=
  MkRateLimitResult true 0 (maxRequests config) (windowSeconds config)
    (maxRequests config).

(** [checkRateLimit]: the result and the namespace after the call. *)
Definition checkRateLimit (kv : KVNamespace) (nowMs : Z)
    (identifier : jsstring) (config : RateLimitConfig)
  : RateLimitResult * KVNamespace :=
  let key := getRateLimitKey identifier in
  let currentWindow := getCurrentWindow nowMs (windowSeconds config) in
  let now := nowSeconds nowMs in
  match kvGet kv now key with
  | None => (failOpen config, kv)
  | Some existing =>
      let count :=
        match existing with
        | Some e => if window e =? currentWindow then count e + 1 else 1
        | None => 1
        end in
      let allowed := count <=? maxRequests config in
      let afterPut :=
        if allowed
        then kvPut kv now key (MkEntry count currentWindow)
               (windowSeconds config * 2)
        else Some kv in
      match afterPut with
      | None => (failOpen config, kv)
      | Some kv' =>
          let windowEnd := currentWindow + windowSeconds config in
          let resetIn := Z.max 0 (windowEnd - now) in
          (MkRateLimitResult allowed count (maxRequests config) resetIn
             (Z.max 0 (maxRequests config - count)),
           kv')
      end
  end.

Definition takeUntilComma (s : jsstring) : jsstring :=
  (fix go (s : jsstring) : jsstring :=
     match s with
     | [] => []
     | c :: s' => if (c =? 44)%N then [] else c :: go s'
     end) s.

(** [getRateLimitIdentifier]; the request is represented by its two
    headers [CF-Connecting-IP] and [X-Forwarded-For]. *)
Definition getRateLimitIdentifier (cfIp forwardedFor : option jsstring)
    (userId : option jsstring) : jsstring :=
  match userId with
  | Some ((_ :: _) as u) => js "user:" ++ u
  | _ =>
      match cfIp with
      | Some ((_ :: _) as ip) => js "ip:" ++ ip
      | _ =>
          match forwardedFor with
          | Some ((_ :: _) as f) =>
              match trim (takeUntilComma f) with
              | (_ :: _) as ip => js "ip:" ++ ip
              | [] => js "anonymous"
              end
          | _ => js "anonymous"
          end
      end
  end.

(** *** Notions used in the statements of Part II *)

(** What the limiter reads for an identity: the count of the current
    window, or 0 when there is no live record of that window. *)
Definition liveCount (kv : KVNamespace) (nowMs W : Z) (identifier : jsstring)
  : Z :=
  match records kv !! getRateLimitKey identifier with
  | Some r =>
      if nowSeconds nowMs <? expiresAt r then
        if window (stored r) =? getCurrentWindow nowMs W
        then count (stored r) else 0
      else 0
  | None => 0
  end.

(** The five calls of the scenario, threaded through the store. *)
Definition fiveCalls (kv0 : KVNamespace) (identifier : jsstring)
    (config : RateLimitConfig) (t1 t2 t3 t4 t5 : Z)
  : list RateLimitResult :=
  let c1 := checkRateLimit kv0 t1 identifier config in
  let c2 := checkRateLimit (snd c1) t2 identifier config in
  let c3 := checkRateLimit (snd c2) t3 identifier config in
  let c4 := checkRateLimit (snd c3) t4 identifier config in
  let c5 := checkRateLimit (snd c4) t5 identifier config in
  [fst c1; fst c2; fst c3; fst c4; fst c5].

(** Hence the bound is an invariant of the store under calls made with one
    configuration. *)
Definition countsWithin (config : RateLimitConfig) (kv : KVNamespace) : Prop :=
  forall key r,
    records kv !! key = Some r -> count (stored r) <= maxRequests config.

(** A run of calls for one identity, threaded through the store: the
    results, in order. *)
Fixpoint callsFrom (kv : KVNamespace) (identifier : jsstring)
    (config : RateLimitConfig) (times : list Z) : list RateLimitResult :=
  match times with
  | [] => []
  | t :: ts =>
      let c := checkRateLimit kv t identifier config in
      fst c :: callsFrom (snd c) identifier config ts
  end.
End RateLimit.

(** ** utils/sanitize.ts *)

Module Sanitize.
Import JsString JsValue.
Open Scope Z_scope.

Record SanitizeOptions : Type := MkOptions {
  maxListSize : Z;
  removeEmbeddings : bool;
  removeNulls : bool;
  maxStringLength : Z;
  maxDepth : Z
}.

(** [DEFAULT_OPTIONS], with [DEFAULTS.MAX_LIST_SIZE = 128]. *)
Definition DEFAULT_OPTIONS : SanitizeOptions := MkOptions 128 true true 0 20.

Definition arrayLength (arr : list value) : Z := Z.of_nat (length arr).

(** [arr.slice(0, n)] for an integer [n]: a negative [n] counts from the
    end of the array, and the end is clamped to the array. *)
Definition slice0 (arr : list value) (n : Z) : list value :=
  firstn (Z.to_nat (if n <? 0 then arrayLength arr + n else n)) arr.

(** [isEmbeddingArray].  The threshold [sampleSize * 0.8] is compared in
    tenths; at this point [sampleSize] is 10 and the product is the
    double 8. *)
Definition isEmbeddingArray (arr : list value) : bool :=
  if arrayLength arr <? 64 then false
  else
    let sampleSize := Z.min 10 (arrayLength arr) in
    let numericCount :=
      Z.of_nat (length (List.filter isRealNumber (slice0 arr sampleSize))) in
    8 * sampleSize <=? 10 * numericCount.

Definition embeddingPatterns : list jsstring :=
  [ js "embedding"; js "embeddings"; js "vector"; js "vectors"; js "embed";
    js "encoding"; js "encodings"; js "feature_vector"; js "featurevector" ].

(** [isEmbeddingKey]. *)
Definition isEmbeddingKey (key : jsstring) : bool :=
  let lowerKey := toLowerCase key in
  existsb (fun pattern => includes lowerKey pattern) embeddingPatterns.

Definition defined (v : value) : bool := negb (isUndefined v).

(** [sanitizeValue].  [slice] is applied after [map] instead of before:
    the mapped function has no effect besides its result, so both orders
    give the same array. *)
Fixpoint sanitizeValue (options : SanitizeOptions) (depth : Z) (v : value)
    {struct v} : value :=
  if maxDepth options <? depth then Str (js "[Max depth exceeded]")
  else
    match v with
    | Undefined | Null => if removeNulls options then Undefined else v
    | Str s =>
        if (0 <? maxStringLength options)
           && (maxStringLength options <? jslength s)
        then Str (substring s 0 (maxStringLength options)
                  ++ js "...[truncated]")
        else v
    | Num _ | Bool _ => v
    | Arr items =>
        if removeEmbeddings options && isEmbeddingArray items then
          Str (js "[Embedding array with " ++ ofZ (arrayLength items)
               ++ js " dimensions - filtered]")
        else if maxListSize options <? arrayLength items then
          let sanitized :=
            List.filter defined
              (slice0 (map (sanitizeValue options (depth + 1)) items)
                 (maxListSize options)) in
          Arr (sanitized
               ++ [Str (js "...["
                        ++ ofZ (arrayLength items - maxListSize options)
                        ++ js " more items truncated]")])
        else
          Arr (List.filter defined
                 (map (sanitizeValue options (depth + 1)) items))
    | Obj props =>
        Obj (fold_left
               (fun (result : object) (kv : jsstring * value) =>
                  if removeEmbeddings options && isEmbeddingKey (fst kv)
                  then setProp result (fst kv)
                         (Str (js "[Embedding property - filtered]"))
                  else
                    let sanitized :=
                      sanitizeValue options (depth + 1) (snd kv) in
                    if defined sanitized
                    then setProp result (fst kv) sanitized
                    else result)
               props [])
    end.

(** [sanitize] with the default options. *)
Definition sanitize (data : value) : value :=
  sanitizeValue DEFAULT_OPTIONS 0 data.

(** *** Notions used in the statements of Part II *)

Definition embeddingPlaceholder (arr : list value) : value :=
  Str (js "[Embedding array with " ++ ofZ (arrayLength arr)
       ++ js " dimensions - filtered]").

Definition truncationPlaceholder (dropped : Z) : value :=
  Str (js "...[" ++ ofZ dropped ++ js " more items truncated]").

(** The sanitized forms of the first 128 elements that survive. *)
Definition keptItems (A : list value) : list value :=
  List.filter defined (map (sanitizeValue DEFAULT_OPTIONS 1) (slice0 A 128)).

Definition isNumber (v : value) : bool :=
  match v with
  | Num _ => true
  | _ => false
  end.

(** [typeof v === 'object']. *)
Definition typeofObject (v : value) : bool :=
  match v with
  | Null | Arr _ | Obj _ => true
  | _ => false
  end.

(** The own enumerable properties that [{ ...v }] copies: those of an
    object, the elements of an array and the code units of a string under
    their indices, none for another primitive. *)
Definition indexed {A} (f : A -> value) (l : list A) : object :=
  map (fun p => (ofZ (Z.of_nat (fst p)), f (snd p)))
    (combine (seq 0 (length l)) l).

Definition spread (v : value) : object :=
  match v with
  | Obj o => o
  | Arr items => indexed (fun x => x) items
  | Str s => indexed (fun c => Str [c]) s
  | _ => []
  end.

(** [sanitizeNeo4jResults] with the default options. *)
Definition sanitizeNeo4jResults (rows : list value) : list value :=
  List.filter defined
    (map (fun row =>
            match row with
            | Obj obj =>
                if hasProp obj (js "properties")
                   && typeofObject (getProp obj (js "properties"))
                then Obj (spread (sanitizeValue DEFAULT_OPTIONS 0 row))
                else sanitizeValue DEFAULT_OPTIONS 0 row
            | _ => sanitizeValue DEFAULT_OPTIONS 0 row
            end)
       rows).

(** Every array inside [v], and [v] itself if it is one, has at most [n]
    elements. *)
Fixpoint listsWithin (n : nat) (v : value) : bool :=
  match v with
  | Arr items => (length items <=? n)%nat && forallb (listsWithin n) items
  | Obj props => forallb (fun kv => listsWithin n (snd kv)) props
  | _ => true
  end.

(** No element of an array and no property value inside [v] is [null] or
    [undefined]. *)
Fixpoint nullFree (v : value) : bool :=
  match v with
  | Arr items => forallb (fun x => negb (isNullish x) && nullFree x) items
  | Obj props =>
      forallb (fun kv => negb (isNullish (snd kv)) && nullFree (snd kv)) props
  | _ => true
  end.

Definition embeddingProperty : value :=
  Str (js "[Embedding property - filtered]").

Definition isEmbeddingProperty (v : value) : bool :=
  match v with
  | Str s => JsString.eqb s (js "[Embedding property - filtered]")
  | _ => false
  end.

(** Every property inside [v] whose key [isEmbeddingKey] recognises holds
    the placeholder. *)
Fixpoint embeddingsFiltered (v : value) : bool :=
  match v with
  | Arr items => forallb embeddingsFiltered items
  | Obj props =>
      forallb (fun kv => if isEmbeddingKey (fst kv)
                         then isEmbeddingProperty (snd kv)
                         else embeddingsFiltered (snd kv)) props
  | _ => true
  end.

(** The nesting of arrays and objects in [v]. *)
Fixpoint height (v : value) : Z :=
  match v with
  | Arr items => 1 + fold_right (fun x h => Z.max (height x) h) 0 items
  | Obj props =>
      1 + fold_right (fun kv h => Z.max (height (snd kv)) h) 0 props
  | _ => 0
  end.

(** The loop of [sanitizeValue] over the properties of an object. *)
Definition sanitizeProps (options : SanitizeOptions) (depth : Z)
    (props : object) : object :=
  fold_left
    (fun (result : object) (kv : jsstring * value) =>
       if removeEmbeddings options && isEmbeddingKey (fst kv)
       then setProp result (fst kv)
              (Str (js "[Embedding property - filtered]"))
       else
         let sanitized := sanitizeValue options (depth + 1) (snd kv) in
         if defined sanitized
         then setProp result (fst kv) sanitized
         else result)
    props [].
End Sanitize.

(** ** utils/tokens.ts *)

Module Tokens.
Import JsString JsNumber.
Open Scope Z_scope.

(** [charsPerToken] is never passed by a caller and stays at its default,
    an integer; [maxTokens] is the number the caller passes. *)
Record TokenOptions : Type := MkTokenOptions {
  charsPerToken : Z;
  maxTokens : number;
  truncationSuffix : jsstring
}.

Definition defaultSuffix : jsstring :=
  [10%N; 10%N] ++ js "...[Response truncated due to token limit]".

(** [{ ...DEFAULT_OPTIONS, maxTokens }]. *)
Definition withMaxTokens (maxTokens : number) : TokenOptions :=
  MkTokenOptions 4 maxTokens defaultSuffix.

(** [Math.ceil(a / b)] for integers. *)
Definition ceilDiv (a b : Z) : Z := - ((- a) / b).

(** [estimateTokens]. *)
Definition estimateTokens (text : jsstring) (charsPerToken : Z) : Z :=
  match text with
  | [] => 0
  | _ :: _ => ceilDiv (jslength text) charsPerToken
  end.

Record TruncateResult : Type := MkTruncateResult {
  text : jsstring;
  truncated : bool;
  originalTokens : Z;
  finalTokens : Z
}.

(** The position from which [s.lastIndexOf(ch, position)] searches
    backwards: [NaN] counts as +infinity, any other number is converted
    with [ToIntegerOrInfinity]. *)
Definition searchPosition (s : jsstring) (position : number) : Z :=
  match Prim2SF position with
  | S754_nan => jslength s
  | _ => clampIndex (jslength s) (ToIntegerOrInfinity position)
  end.

(** The end index of [s.substring(0, end)] before clamping. *)
Definition endPosition (s : jsstring) (finish : number) : Z :=
  clampIndex (jslength s) (ToIntegerOrInfinity finish).

(** [truncateToTokens].  [truncateAt] is kept as the integer that
    [substring] makes of it: an index is an integer already. *)
Definition truncateToTokens (text : jsstring) (options : TokenOptions)
  : TruncateResult :=
  let originalTokens := estimateTokens text (charsPerToken options) in
  if (ofInt originalTokens <=? maxTokens options)%float then
    MkTruncateResult text false originalTokens originalTokens
  else
    let suffixTokens :=
      estimateTokens (truncationSuffix options) (charsPerToken options) in
    let availableTokens := (maxTokens options - ofInt suffixTokens)%float in
    let maxChars := (availableTokens * ofInt (charsPerToken options))%float in
    let lastNewline := lastIndexOf text 10%N (searchPosition text maxChars) in
    let truncateAt :=
      if (maxChars - ofInt 100 <? ofInt lastNewline)%float
         && (0 <? lastNewline)
      then lastNewline
      else
        let lastSpace := lastIndexOf text 32%N (searchPosition text maxChars) in
        if (maxChars - ofInt 50 <? ofInt lastSpace)%float && (0 <? lastSpace)
        then lastSpace
        else endPosition text maxChars in
    let truncatedText :=
      substring text 0 truncateAt ++ truncationSuffix options in
    let finalTokens := estimateTokens truncatedText (charsPerToken options) in
    MkTruncateResult truncatedText true originalTokens finalTokens.

(** *** Notions used in the statements of Part II *)

(** The cut position chosen by [truncateToTokens]. *)
Definition cutPoint (text : jsstring) (maxChars : number) : Z :=
  let lastNewline := lastIndexOf text 10%N (searchPosition text maxChars) in
  if (maxChars - ofInt 100 <? ofInt lastNewline)%float && (0 <? lastNewline)
  then lastNewline
  else
    let lastSpace := lastIndexOf text 32%N (searchPosition text maxChars) in
    if (maxChars - ofInt 50 <? ofInt lastSpace)%float && (0 <? lastSpace)
    then lastSpace
    else endPosition text maxChars.

Definition maxCharsOf (options : TokenOptions) : number :=
  ((maxTokens options
    - ofInt (estimateTokens (truncationSuffix options) (charsPerToken options)))
   * ofInt (charsPerToken options))%float.

(** The text of the counterexample to idempotence: "A B" followed by 200
    times "C". *)
Definition spacedText : jsstring := js "A B" ++ repeat 67%N 200.
End Tokens.

(** ** The world a request runs in

  Two collaborators are reached through side effects: the key-value
  namespace [env.SESSIONS] and the remote graph database behind the HTTP
  client.  A computation threads the namespace and the log of the calls
  made to the client, and ends with a value or a thrown error. *)

Module Effects.
Import JsString JsValue Errors.

(** One call [client.query(cypher, params, options)]. *)
Record ClientCall : Type := MkCall {
  statement : jsstring;
  parameters : option object;
  includeCounters : bool
}.

(** The client of one connection: what the remote endpoint answers (the
    decoded response body, or the error the client throws). *)
Record Neo4jClient : Type := MkClient {
  respond : ClientCall -> outcome value
}.

Record World : Type := MkWorld {
  kv : RateLimit.KVNamespace;
  clientLog : list ClientCall
}.

Definition M (A : Type) : Type := World -> outcome A * World.

Definition ret {A} (a : A) : M A := fun w => (Ok a, w).
Definition throw {A} (e : exn) : M A := fun w => (Throw e, w).
Definition bind {A B} (m : M A) (f : A -> M B) : M B :=
  fun w =>
    match m w with
    | (Ok a, w') => f a w'
    | (Throw e, w') => (Throw e, w')
    end.
(** [try { m } catch (error) { handler(error) }]. *)
Definition tryCatch {A} (m : M A) (handler : exn -> M A) : M A :=
  fun w =>
    match m w with
    | (Ok a, w') => (Ok a, w')
    | (Throw e, w') => handler e w'
    end.
Definition lift {A} (o : outcome A) : M A := fun w => (o, w).

(** [await client.query(...)]: the call is logged, then answered. *)
Definition clientQuery (client : Neo4jClient) (call : ClientCall) : M value :=
  fun w =>
    (respond client call, MkWorld (kv w) (clientLog w ++ [call])).

Definition errorMessage (e : exn) : jsstring :=
  match e with
  | Mcp m => message m
  | OtherError msg => msg
  end.
End Effects.

Declare Scope effect_scope.
Delimit Scope effect_scope with effect.
Notation "'let!' x ':=' m 'in' k" := (Effects.bind m (fun x => k))
(at level 10, x name, m at level 100, k at level 200) : effect_scope.

(** ** mcp/protocol.ts *)

Module Protocol.
Import JsString JsValue Errors.

Record JsonRpcRequest : Type := MkRequest {
  id : value;          (* a string, a number or [null] *)
  method : jsstring;
  params : value       (* [undefined], [null], an array or an object *)
}.

(** [v[k]] for the keys read below, none of which is defined on arrays or
    on [Object.prototype]. *)
Definition member (v : value) (k : jsstring) : value :=
  match v with
  | Obj o => getProp o k
  | _ => Undefined
  end.

(** The message of the version fault,
    [Invalid JSON-RPC version. Must be ] followed by 2.0 between double
    quotes (code unit 34). *)
Definition invalidVersionMessage : jsstring :=
  js "Invalid JSON-RPC version. Must be " ++ [34%N] ++ js "2.0" ++ [34%N].

(** [parseJsonRpcRequest]. *)
Definition parseJsonRpcRequest (body : value) : outcome JsonRpcRequest :=
  match body with
  | Obj request =>
      match getProp request (js "jsonrpc") with
      | Str v =>
          if JsString.eqb v (js "2.0") then
            match getProp request (js "method") with
            | Str ((_ :: _) as m) =>
                let id := getProp request (js "id") in
                match id with
                | Undefined | Null | Str _ | Num _ =>
                    let params := getProp request (js "params") in
                    match params with
                    | Undefined | Null | Arr _ | Obj _ =>
                        Ok (MkRequest
                              (match id with Undefined => Null | _ => id end)
                              m params)
                    | _ =>
                        Throw (InvalidParamsError
                                 (js "Params must be an object or array"))
                    end
                | _ =>
                    Throw (InvalidRequestError
                             (js "Request id must be a string, number, or null"))
                end
            | _ =>
                Throw (InvalidRequestError
                         (js "Method must be a non-empty string"))
            end
          else Throw (InvalidRequestError
                        (invalidVersionMessage))
      | _ => Throw (InvalidRequestError
                      (invalidVersionMessage))
      end
  | _ => Throw (ParseError (js "Request body must be a JSON object"))
  end.

(** [isNotification]. *)
Definition isNotification (request : JsonRpcRequest) : bool :=
  isNullish (id request).

(** [getOptionalNumberParam]. *)
Definition getOptionalNumberParam (params : option object) (name : jsstring)
    (defaultValue : float) : outcome float :=
  match params with
  | None => Ok defaultValue
  | Some o =>
      match getProp o name with
      | Undefined => Ok defaultValue
      | Num x => Ok x
      | _ => Throw (InvalidParamsError
                      (js "Parameter " ++ name ++ js " must be a number"))
      end
  end.

(** [getOptionalObjectParam]. *)
Definition getOptionalObjectParam (params : option object) (name : jsstring)
  : outcome (option object) :=
  match params with
  | None => Ok None
  | Some o =>
      match getProp o name with
      | Undefined => Ok None
      | Obj p => Ok (Some p)
      | _ => Throw (InvalidParamsError
                      (js "Parameter " ++ name ++ js " must be an object"))
      end
  end.

(** [validateToolCallParams]. *)
Definition validateToolCallParams (params : value)
  : outcome (jsstring * option object) :=
  match params with
  | Undefined | Null =>
      Throw (InvalidParamsError (js "Missing params for tools/call"))
  | _ =>
      match member params (js "name") with
      | Str ((_ :: _) as name) =>
          match member params (js "arguments") with
          | Undefined => Ok (name, None)
          | Obj a => Ok (name, Some a)
          | _ => Throw (InvalidParamsError
                          (js "Tool arguments must be an object"))
          end
      | _ => Throw (InvalidParamsError
                      (js "Tool name must be a non-empty string"))
      end
  end.
End Protocol.

(** ** mcp/handlers.ts *)

Module Handlers.
Import JsString JsValue Errors Effects Protocol.
Local Open Scope effect_scope.

(** The text of a tool result: [JSON.stringify(v, null, 2)] of a value
    built by the handler, or text produced by a collaborator. *)
Inductive toolText : Type :=
| JsonText (v : value)
| PlainText (s : jsstring).

(** [McpToolResult]: one text item and the [isError] flag. *)
Record McpToolResult : Type := MkToolResult {
  content : toolText;
  isError : bool
}.

(** [createToolResult]. *)
Definition createToolResult (text : toolText) (isError : bool)
  : McpToolResult :=
  MkToolResult text isError.

(** The code that runs after a query has been sent, and the schema
    extraction, as functions of what they read:
    - [presentRead response tokenLimit]: [transformQueryResult],
      [sanitizeNeo4jResults], [JSON.stringify] and [truncateToTokens];
    - [presentWrite response]: [generateWriteSummary] and
      [JSON.stringify];
    - [schemaText client sampleSize connectionId tokenLimit]: the body of
      the [try] block of [executeGetSchema] (schema cache, extraction,
      sanitization, formatting, truncation). *)
Record Presentation : Type := MkPresentation {
  presentRead : value -> Z -> jsstring;
  presentWrite : value -> jsstring;
  schemaText : Neo4jClient -> float -> option jsstring -> Z -> M jsstring
}.

Record HandlerContext : Type := MkContext {
  neo4jClient : option Neo4jClient;
  readOnly : bool;
  timeout : option Z;
  tokenLimit : option Z;
  schemaSampleSize : option float;
  userId : option jsstring;
  connectionId : option jsstring
}.

(** [DEFAULTS]. *)
Definition DEFAULT_TOKEN_LIMIT : Z := 10000.
Definition DEFAULT_SCHEMA_SAMPLE_SIZE : float := 1000%float.

Definition orDefault {A} (o : option A) (d : A) : A :=
  match o with
  | Some a => a
  | None => d
  end.

(** [query.substring(0, 100) + (query.length > 100 ? '...' : '')]. *)
Definition queryPreview (query : jsstring) : jsstring :=
  substring query 0 100
  ++ (if (100 <? jslength query)%Z then js "..." else []).

Definition noConnection (extraKey : jsstring) (extra : jsstring)
  : McpToolResult :=
  createToolResult
    (JsonText
       (Obj [ (js "error", Str (js "No Neo4j connection configured"));
              (js "message",
               Str (js "Please configure your Neo4j connection via the setup endpoint first."));
              (extraKey, Str extra) ]))
    true.

Definition executionFailed (title : jsstring) (e : exn)
    (query : option jsstring) : McpToolResult :=
  createToolResult
    (JsonText
       (Obj ([ (js "error", Str title);
               (js "message", Str (errorMessage e)) ]
             ++ match query with
                | Some q => [(js "query", Str (queryPreview q))]
                | None => []
                end)))
    true.

(** [executeReadQuery] of neo4j/queries.ts, up to the transformation of
    the response. *)
Definition executeReadQuery (client : Neo4jClient) (cypher : jsstring)
    (params : option object) : M value :=
  if Queries.isWriteQuery cypher then
    throw (ValidationError
             (js "This query contains write operations. Use executeWriteQuery for CREATE, MERGE, DELETE, SET, or REMOVE operations."))
  else clientQuery client (MkCall cypher params false).

(** [executeWriteQuery] of neo4j/queries.ts, up to the summary. *)
Definition executeWriteQuery (client : Neo4jClient) (cypher : jsstring)
    (params : option object) : M value :=
  clientQuery client (MkCall cypher params true).

(** [executeGetSchema]. *)
Definition executeGetSchema (pr : Presentation) (args : option object)
    (context : HandlerContext) : M McpToolResult :=
  let! sampleSize := lift (getOptionalNumberParam args (js "sample_size")
                        (orDefault (schemaSampleSize context)
                           DEFAULT_SCHEMA_SAMPLE_SIZE)) in
  match neo4jClient context with
  | None => ret (noConnection (js "setupUrl") (js "/setup"))
  | Some client =>
      tryCatch
        (let! text := schemaText pr client sampleSize (connectionId context)
                   (orDefault (tokenLimit context) DEFAULT_TOKEN_LIMIT) in
         ret (createToolResult (PlainText text) false))
        (fun e =>
           ret (executionFailed (js "Schema extraction failed") e None))
  end.

(** The checks shared by the read and the write tool: the security
    validation, the sanitization of the parameters and the syntax check. *)
Definition securityAndSyntax (query : jsstring) (rawParams : option object)
  : M (option object) :=
  let securityCheck := QueryValidator.validateQuery query in
  if negb (QueryValidator.valid securityCheck) then
    throw (ValidationError
             (orDefault (QueryValidator.error securityCheck)
                (js "Query blocked for security reasons")))
  else
    let params := QueryValidator.sanitizeParameters rawParams in
    let syntaxCheck := Queries.validateCypherSyntax query in
    if negb (Queries.valid syntaxCheck) then
      throw (ValidationError
               (orDefault (Queries.error syntaxCheck)
                  (js "Invalid query syntax")))
    else ret params.

(** [executeReadCypher]. *)
Definition executeReadCypher (pr : Presentation) (args : option object)
    (context : HandlerContext) : M McpToolResult :=
  match args with
  | Some a =>
      match getProp a (js "query") with
      | Str query =>
          let! rawParams := lift (getOptionalObjectParam args (js "params")) in
          let! params := securityAndSyntax query rawParams in
          if Queries.isWriteQuery query then
            throw (ValidationError
                     (js "This query contains write operations. Use write_neo4j_cypher for CREATE, MERGE, DELETE, SET, or REMOVE operations."))
          else
            match neo4jClient context with
            | None => ret (noConnection (js "query") (queryPreview query))
            | Some client =>
                tryCatch
                  (let! result := executeReadQuery client query params in
                   ret (createToolResult
                          (PlainText
                             (presentRead pr result
                                (orDefault (tokenLimit context)
                                   DEFAULT_TOKEN_LIMIT)))
                          false))
                  (fun e =>
                     ret (executionFailed (js "Query execution failed") e
                            (Some query)))
            end
      | _ => throw (InvalidParamsError (js "Missing required parameter: query"))
      end
  | None => throw (InvalidParamsError (js "Missing required parameter: query"))
  end.

(** [executeWriteCypher]. *)
Definition executeWriteCypher (pr : Presentation) (args : option object)
    (context : HandlerContext) : M McpToolResult :=
  if readOnly context then
    ret (createToolResult
           (JsonText
              (Obj [ (js "error", Str (js "Write operations disabled"));
                     (js "message",
                      Str (js "This connection is configured as read-only. Write operations are not permitted.")) ]))
           true)
  else
    match args with
    | Some a =>
        match getProp a (js "query") with
        | Str query =>
            let! rawParams := lift (getOptionalObjectParam args (js "params")) in
            let! params := securityAndSyntax query rawParams in
            match neo4jClient context with
            | None => ret (noConnection (js "query") (queryPreview query))
            | Some client =>
                tryCatch
                  (let! result := executeWriteQuery client query params in
                   ret (createToolResult
                          (PlainText (presentWrite pr result)) false))
                  (fun e =>
                     ret (executionFailed (js "Query execution failed") e
                            (Some query)))
            end
        | _ =>
            throw (InvalidParamsError (js "Missing required parameter: query"))
        end
    | None =>
        throw (InvalidParamsError (js "Missing required parameter: query"))
    end.

(** [TOOL_NAMES]. *)
Definition GET_SCHEMA : jsstring := js "get_neo4j_schema".
Definition READ_CYPHER : jsstring := js "read_neo4j_cypher".
Definition WRITE_CYPHER : jsstring := js "write_neo4j_cypher".

(** [toolExists] of mcp/tools.ts. *)
Definition toolExists (name : jsstring) : bool :=
  JsString.eqb name GET_SCHEMA || JsString.eqb name READ_CYPHER
  || JsString.eqb name WRITE_CYPHER.

(** [handleToolsCall]. *)
Definition handleToolsCall (pr : Presentation) (request : JsonRpcRequest)
    (context : HandlerContext) : M McpToolResult :=
  let! call := lift (validateToolCallParams (params request)) in
  let name := fst call in
  let args := snd call in
  if negb (toolExists name) then
    throw (InvalidParamsError (js "Unknown tool: " ++ name))
  else if JsString.eqb name GET_SCHEMA then executeGetSchema pr args context
  else if JsString.eqb name READ_CYPHER then executeReadCypher pr args context
  else if JsString.eqb name WRITE_CYPHER then
    executeWriteCypher pr args context
  else throw (InvalidParamsError (js "Unknown tool: " ++ name)).

(** What a handler answers ([result] of a success envelope). *)
Inductive resultPayload : Type :=
| InitializeResult            (* protocol version, server info, capabilities *)
| ToolsListResult (includeWriteTool : bool)
| ToolCallResult (r : McpToolResult)
| EmptyObject.                (* {} *)

(** [HandlerResult]. *)
Inductive HandlerResult : Type :=
| response (result : resultPayload)
| notification
| error (e : exn).

(** [MCP_METHODS]. *)
Definition INITIALIZE : jsstring := js "initialize".
Definition INITIALIZED : jsstring := js "notifications/initialized".
Definition TOOLS_LIST : jsstring := js "tools/list".
Definition TOOLS_CALL : jsstring := js "tools/call".
Definition PING : jsstring := js "ping".

(** [routeRequest]. *)
Definition routeRequest (pr : Presentation) (request : JsonRpcRequest)
    (context : HandlerContext) : M HandlerResult :=
  tryCatch
    (if JsString.eqb (method request) INITIALIZE then
       ret (response InitializeResult)
     else if JsString.eqb (method request) INITIALIZED then
       ret notification
     else if JsString.eqb (method request) TOOLS_LIST then
       ret (response (ToolsListResult (negb (readOnly context))))
     else if JsString.eqb (method request) TOOLS_CALL then
       let! result := handleToolsCall pr request context in
       ret (response (ToolCallResult result))
     else if JsString.eqb (method request) PING then
       ret (response EmptyObject)
     else throw (MethodNotFoundError (method request)))
    (fun e => ret (error e)).
End Handlers.

(** ** index.ts (the MCP endpoint) *)

Module Index.
Import JsString JsValue Errors Effects Protocol Handlers.
Local Open Scope effect_scope.

(** The parts of the HTTP request the endpoint reads: the body as
    [request.json()] decodes it ([None] when it is not JSON) and the two
    headers used to identify the caller. *)
Record Request : Type := MkHttpRequest {
  jsonBody : option value;
  cfConnectingIp : option jsstring;
  xForwardedFor : option jsstring
}.

(** What [optionalAuth] resolved: the caller and the client of the
    caller's connection ([createNeo4jClient(authContext.connection)]). *)
Record AuthContext : Type := MkAuth {
  authUserId : jsstring;
  authConnectionId : jsstring;
  authReadOnly : bool;
  authClient : Neo4jClient
}.

(** [getServerConfig(env)]. *)
Record ServerConfig : Type := MkServerConfig {
  readTimeout : Z;
  configTokenLimit : Z;
  configSchemaSampleSize : float
}.

(** The body of a response. *)
Inductive responseBody : Type :=
| SuccessEnvelope (id : value) (result : resultPayload)
    (* jsonRpcSuccess(id, result) *)
| ErrorEnvelope (id : value) (e : McpError)
    (* createJsonRpcErrorResponse(id, error) *)
| TooManyRequests (r : RateLimit.RateLimitResult).

Record Response : Type := MkResponse {
  status : Z;
  body : option responseBody;
  rateLimitHeaders : option RateLimit.RateLimitResult
}.

(** [HTTP_STATUS]. *)
Definition OK : Z := 200.
Definition NO_CONTENT : Z := 204.
Definition TOO_MANY_REQUESTS : Z := 429.

(** [checkRateLimit(env.SESSIONS, rateLimitId)] on the world. *)
Definition checkRateLimitM (nowMs : Z) (identifier : jsstring)
  : M RateLimit.RateLimitResult :=
  fun w =>
    let r := RateLimit.checkRateLimit (kv w) nowMs identifier
               RateLimit.DEFAULT_CONFIG in
    (Ok (fst r), MkWorld (snd r) (clientLog w)).

(** [handleMcpRequest].  [auth] is the result of [optionalAuth] and
    [nowMs] the reading of the clock. *)
Definition handleMcpRequest (pr : Presentation) (config : ServerConfig)
    (request : Request) (auth : option AuthContext) (nowMs : Z)
  : M Response :=
  tryCatch
    (let! body := match jsonBody request with
             | Some b => ret b
             | None => throw (ParseError (js "Invalid JSON in request body"))
             end in
     let! rpcRequest := lift (parseJsonRpcRequest body) in
     let rateLimitId :=
       RateLimit.getRateLimitIdentifier (cfConnectingIp request)
         (xForwardedFor request) (option_map authUserId auth) in
     let! rateLimitResult := checkRateLimitM nowMs rateLimitId in
     if negb (RateLimit.allowed rateLimitResult) then
       ret (MkResponse TOO_MANY_REQUESTS
              (Some (TooManyRequests rateLimitResult))
              (Some rateLimitResult))
     else
       let context :=
         match auth with
         | Some a =>
             MkContext (Some (authClient a)) (authReadOnly a)
               (Some (readTimeout config)) (Some (configTokenLimit config))
               (Some (configSchemaSampleSize config))
               (Some (authUserId a)) (Some (authConnectionId a))
         | None =>
             MkContext None false
               (Some (readTimeout config)) (Some (configTokenLimit config))
               (Some (configSchemaSampleSize config)) None None
         end in
       let! result := routeRequest pr rpcRequest context in
       match result with
       | notification =>
           if isNotification rpcRequest then
             ret (MkResponse NO_CONTENT None (Some rateLimitResult))
           else
             ret (MkResponse OK
                    (Some (SuccessEnvelope (id rpcRequest) EmptyObject))
                    (Some rateLimitResult))
       | response payload =>
           ret (MkResponse OK
                  (Some (SuccessEnvelope (id rpcRequest) payload))
                  (Some rateLimitResult))
       | error e => throw e
       end)
    (fun err =>
       ret (MkResponse OK (Some (ErrorEnvelope Null (toMcpError err))) None)).

(** *** Notions used in the statements of Part II *)

(** The identity the endpoint counts the request under. *)
Definition callerId (request : Request) (auth : option AuthContext)
  : jsstring :=
  RateLimit.getRateLimitIdentifier (cfConnectingIp request)
    (xForwardedFor request) (option_map authUserId auth).

End Index.

(** ** auth/crypto.ts

  The Web platform functions the file calls are modelled as follows:
  [btoa], [atob], [TextEncoder] and [TextDecoder] by their WHATWG
  algorithms; SHA-256 and AES-GCM ([crypto.subtle]) by a record of
  functions with their contract; the random initialization vector is an
  argument of [encrypt]. *)

Module Crypto.
Import JsString Errors.
Open Scope N_scope.

Definition bytes := list byte.

(** Storing a number in a [Uint8Array] keeps it modulo 256. *)
Definition toUint8 (n : N) : byte :=
  match Byte.of_N (n mod 256) with
  | Some b => b
  | None => x00
  end.

(** The base64 alphabet: digit to code unit and back. *)
Definition base64Char (n : N) : N :=
  if n <? 26 then 65 + n
  else if n <? 52 then 97 + (n - 26)
  else if n <? 62 then 48 + (n - 52)
  else if n =? 62 then 43
  else 47.

Definition base64Value (c : N) : option N :=
  if isUpper c then Some (c - 65)
  else if isLower c then Some (c - 97 + 26)
  else if isDigit c then Some (c - 48 + 52)
  else if c =? 43 then Some 62
  else if c =? 47 then Some 63
  else None.

Fixpoint encodeGroups (l : list N) : jsstring :=
  match l with
  | a :: b :: c :: r =>
      let n := a * 65536 + b * 256 + c in
      base64Char (n / 262144) :: base64Char ((n / 4096) mod 64)
      :: base64Char ((n / 64) mod 64) :: base64Char (n mod 64)
      :: encodeGroups r
  | [a; b] =>
      let n := a * 65536 + b * 256 in
      [base64Char (n / 262144); base64Char ((n / 4096) mod 64);
       base64Char ((n / 64) mod 64); 61]
  | [a] =>
      let n := a * 65536 in
      [base64Char (n / 262144); base64Char ((n / 4096) mod 64); 61; 61]
  | [] => []
  end.

(** [btoa]: [None] stands for the InvalidCharacterError thrown when a code
    unit exceeds 255. *)
Definition btoa (binary : jsstring) : option jsstring :=
  if forallb (fun c => c <=? 255) binary then Some (encodeGroups binary)
  else None.

Definition isAsciiWhitespace (c : N) : bool :=
  (c =? 9) || (c =? 10) || (c =? 12) || (c =? 13) || (c =? 32).

(** Forgiving-base64 decode, step 2: when the length is a multiple of 4,
    one or two trailing [=] are removed. *)
Definition stripPadding (data : jsstring) : jsstring :=
  if (N.of_nat (length data) mod 4 =? 0) then
    match rev data with
    | c1 :: c2 :: r =>
        if c1 =? 61 then (if c2 =? 61 then rev r else rev (c2 :: r))
        else data
    | _ => data
    end
  else data.

Fixpoint decodeGroups (l : list N) : list N :=
  match l with
  | a :: b :: c :: d :: r =>
      let n := ((a * 64 + b) * 64 + c) * 64 + d in
      n / 65536 :: (n / 256) mod 256 :: n mod 256 :: decodeGroups r
  | [a; b; c] =>
      let n := ((a * 64 + b) * 64 + c) / 4 in
      [n / 256; n mod 256]
  | [a; b] => [(a * 64 + b) / 16]
  | _ => []
  end.

Fixpoint base64Values (data : jsstring) : option (list N) :=
  match data with
  | [] => Some []
  | c :: r =>
      match base64Value c, base64Values r with
      | Some v, Some vs => Some (v :: vs)
      | _, _ => None
      end
  end.

(** [atob]: [None] stands for the InvalidCharacterError. *)
Definition atob (data : jsstring) : option jsstring :=
  let data := List.filter (fun c => negb (isAsciiWhitespace c)) data in
  let data := stripPadding data in
  if N.of_nat (length data) mod 4 =? 1 then None
  else option_map decodeGroups (base64Values data).

Definition invalidCharacter {A} : outcome A :=
  Throw (OtherError (js "InvalidCharacterError")).

(** [arrayBufferToBase64]. *)
Definition arrayBufferToBase64 (buffer : bytes) : outcome jsstring :=
  match btoa (map Byte.to_N buffer) with
  | Some s => Ok s
  | None => invalidCharacter
  end.

(** [base64ToArrayBuffer]. *)
Definition base64ToArrayBuffer (base64 : jsstring) : outcome bytes :=
  match atob base64 with
  | Some binary => Ok (map toUint8 binary)
  | None => invalidCharacter
  end.

(** *** Text encoding *)

Definition isHighSurrogate (c : N) : bool := (0xD800 <=? c) && (c <=? 0xDBFF).
Definition isLowSurrogate (c : N) : bool := (0xDC00 <=? c) && (c <=? 0xDFFF).

(** The scalar values of a string: a surrogate pair is one code point, an
    unpaired surrogate becomes U+FFFD. *)
Fixpoint scalarValues (s : jsstring) : list N :=
  match s with
  | [] => []
  | c :: s' =>
      if isHighSurrogate c then
        match s' with
        | d :: s'' =>
            if isLowSurrogate d
            then (0x10000 + (c - 0xD800) * 0x400 + (d - 0xDC00))
                 :: scalarValues s''
            else 0xFFFD :: scalarValues s'
        | [] => [0xFFFD]
        end
      else if isLowSurrogate c then 0xFFFD :: scalarValues s'
      else c :: scalarValues s'
  end.

Definition utf8Encode (cp : N) : list N :=
  if cp <? 0x80 then [cp]
  else if cp <? 0x800 then [0xC0 + cp / 64; 0x80 + cp mod 64]
  else if cp <? 0x10000 then
    [0xE0 + cp / 4096; 0x80 + (cp / 64) mod 64; 0x80 + cp mod 64]
  else
    [0xF0 + cp / 262144; 0x80 + (cp / 4096) mod 64;
     0x80 + (cp / 64) mod 64; 0x80 + cp mod 64].

(** [new TextEncoder().encode(s)]. *)
Definition textEncode (s : jsstring) : bytes :=
  map toUint8 (flat_map utf8Encode (scalarValues s)).

(** The state of the WHATWG UTF-8 decoder. *)
Record decoder : Type := MkDecoder {
  codePoint : N;
  bytesSeen : N;
  bytesNeeded : N;
  lowerBoundary : N;
  upperBoundary : N
}.

Definition decoder0 : decoder := MkDecoder 0 0 0 0x80 0xBF.

(** A byte read while no sequence is open: the code points emitted and
    the next state. *)
Definition leadByte (b : N) : list N * decoder :=
  if b <=? 0x7F then ([b], decoder0)
  else if (0xC2 <=? b) && (b <=? 0xDF) then
    ([], MkDecoder (b mod 32) 0 1 0x80 0xBF)
  else if (0xE0 <=? b) && (b <=? 0xEF) then
    ([], MkDecoder (b mod 16) 0 2
           (if b =? 0xE0 then 0xA0 else 0x80)
           (if b =? 0xED then 0x9F else 0xBF))
  else if (0xF0 <=? b) && (b <=? 0xF4) then
    ([], MkDecoder (b mod 8) 0 3
           (if b =? 0xF0 then 0x90 else 0x80)
           (if b =? 0xF4 then 0x8F else 0xBF))
  else ([0xFFFD], decoder0).

(** The decoder with [fatal] unset.  A byte that cannot continue the open
    sequence yields U+FFFD and is then read again as a lead byte. *)
Fixpoint utf8Decode (st : decoder) (bs : list N) : list N :=
  match bs with
  | [] => if bytesNeeded st =? 0 then [] else [0xFFFD]
  | b :: r =>
      if bytesNeeded st =? 0 then
        fst (leadByte b) ++ utf8Decode (snd (leadByte b)) r
      else if (lowerBoundary st <=? b) && (b <=? upperBoundary st) then
        let cp := codePoint st * 64 + b mod 64 in
        if bytesSeen st + 1 =? bytesNeeded st
        then cp :: utf8Decode decoder0 r
        else utf8Decode
               (MkDecoder cp (bytesSeen st + 1) (bytesNeeded st) 0x80 0xBF) r
      else
        0xFFFD :: fst (leadByte b) ++ utf8Decode (snd (leadByte b)) r
  end.

Definition utf16Units (cp : N) : jsstring :=
  if cp <? 0x10000 then [cp]
  else [0xD800 + (cp - 0x10000) / 0x400; 0xDC00 + (cp - 0x10000) mod 0x400].

(** [new TextDecoder().decode(buffer)]: UTF-8, [fatal] and [ignoreBOM]
    unset, so a leading U+FEFF is dropped. *)
Definition textDecode (buffer : bytes) : jsstring :=
  let cps := utf8Decode decoder0 (map Byte.to_N buffer) in
  let cps := match cps with
             | c :: r => if c =? 0xFEFF then r else cps
             | [] => cps
             end in
  flat_map utf16Units cps.

(** *** crypto.subtle *)

(** SHA-256 and AES-GCM with a 128-bit tag.  A key is represented by its
    raw bytes. *)
Record SubtleCrypto : Type := MkSubtle {
  sha256 : bytes -> bytes;
  aesGcmEncrypt : bytes -> bytes -> bytes -> bytes;
    (* key, iv, plaintext *)
  aesGcmDecrypt : bytes -> bytes -> bytes -> option bytes
    (* key, iv, ciphertext; [None] is the OperationError *)
}.

(** The contract of the primitives: a digest has 32 bytes, and under a
    256-bit key decryption inverts encryption with the same iv. *)
Definition SubtleCryptoSpec (sc : SubtleCrypto) : Prop :=
  (forall d, length (sha256 sc d) = 32%nat)
  /\ (forall key iv plaintext,
         length key = 32%nat ->
         aesGcmDecrypt sc key iv (aesGcmEncrypt sc key iv plaintext)
         = Some plaintext).

(** [crypto.subtle.importKey('raw', ...)] for AES: the key has 128, 192
    or 256 bits. *)
Definition importKey (keyMaterial : bytes) : outcome bytes :=
  let n := length keyMaterial in
  if ((n =? 16) || (n =? 24) || (n =? 32))%nat then Ok keyMaterial
  else Throw (OtherError (js "DataError")).

(** [deriveKey]. *)
Definition deriveKey (sc : SubtleCrypto) (base64Key : jsstring)
  : outcome bytes :=
  match base64ToArrayBuffer base64Key with
  | Throw e => Throw e
  | Ok keyData =>
      let keyMaterial :=
        if (length keyData =? 32)%nat then keyData else sha256 sc keyData in
      importKey keyMaterial
  end.

Record EncryptedData : Type := MkEncrypted {
  ciphertext : jsstring;
  iv : jsstring
}.

(** [encrypt]; [ivBytes] is the result of [generateIV()]. *)
Definition encrypt (sc : SubtleCrypto) (ivBytes : bytes)
    (plaintext encryptionKey : jsstring) : outcome EncryptedData :=
  match deriveKey sc encryptionKey with
  | Throw e => Throw e
  | Ok key =>
      let plaintextBytes := textEncode plaintext in
      let ciphertextBuffer := aesGcmEncrypt sc key ivBytes plaintextBytes in
      match arrayBufferToBase64 ciphertextBuffer with
      | Throw e => Throw e
      | Ok c =>
          match arrayBufferToBase64 ivBytes with
          | Throw e => Throw e
          | Ok i => Ok (MkEncrypted c i)
          end
      end
  end.

(** [decrypt]. *)
Definition decrypt (sc : SubtleCrypto) (encryptedData : EncryptedData)
    (encryptionKey : jsstring) : outcome jsstring :=
  match deriveKey sc encryptionKey with
  | Throw e => Throw e
  | Ok key =>
      match base64ToArrayBuffer (iv encryptedData) with
      | Throw e => Throw e
      | Ok ivBuffer =>
          match base64ToArrayBuffer (ciphertext encryptedData) with
          | Throw e => Throw e
          | Ok ciphertextBuffer =>
              match aesGcmDecrypt sc key ivBuffer ciphertextBuffer with
              | Some plaintextBuffer => Ok (textDecode plaintextBuffer)
              | None =>
                  Throw (OtherError
                           (js "Decryption failed: Invalid key or corrupted data"))
              end
          end
      end
  end.

(** [s.split(':')]. *)
Fixpoint splitColon (s : jsstring) : list jsstring :=
  match s with
  | [] => [[]]
  | c :: r =>
      if c =? 58 then [] :: splitColon r
      else
        match splitColon r with
        | p :: ps => (c :: p) :: ps
        | [] => [[c]]
        end
  end.

(** [encryptToString]; [ivBytes] is the result of [generateIV()]. *)
Definition encryptToString (sc : SubtleCrypto) (ivBytes : bytes)
    (plaintext encryptionKey : jsstring) : outcome jsstring :=
  match encrypt sc ivBytes plaintext encryptionKey with
  | Throw e => Throw e
  | Ok d => Ok (iv d ++ [58] ++ ciphertext d)
  end.

(** [decryptFromString]. *)
Definition decryptFromString (sc : SubtleCrypto)
    (encryptedString encryptionKey : jsstring) : outcome jsstring :=
  match splitColon encryptedString with
  | [ (_ :: _) as i; (_ :: _) as c ] =>
      decrypt sc (MkEncrypted c i) encryptionKey
  | _ => Throw (OtherError (js "Invalid encrypted string format"))
  end.

(** [generateToken]; [random] is the result of
    [crypto.getRandomValues(new Uint8Array(length))]. *)
Definition generateToken (random : bytes) : outcome jsstring :=
  arrayBufferToBase64 random.

(** [generateUrlSafeToken]. *)
Definition generateUrlSafeToken (random : bytes) : outcome jsstring :=
  match generateToken random with
  | Throw e => Throw e
  | Ok token =>
      let dashed := map (fun c => if c =? 43 then 45 else c) token in
      let underscored := map (fun c => if c =? 47 then 95 else c) dashed in
      Ok (List.filter (fun c => negb (c =? 61)) underscored)
  end.

(** [secureCompare].  The code units are below 2^16, so that [^] and [|=]
    on 32-bit integers are the bitwise operations on the units. *)
Definition secureCompare (a b : jsstring) : bool :=
  if negb (length a =? length b)%nat then false
  else
    let result :=
      fold_left (fun result xy => N.lor result (N.lxor (fst xy) (snd xy)))
        (combine a b) 0 in
    result =? 0.

(** A stand-in for the primitives, used to run the functions above on
    concrete inputs: the digest is 32 zero bytes, and encryption appends a
    16-byte tag computed from the key and iv lengths. *)
Definition toyTag (key ivb : bytes) : bytes :=
  repeat (toUint8 (N.of_nat (length key + length ivb))) 16.

Definition toySubtle : SubtleCrypto :=
  MkSubtle
    (fun _ => repeat x00 32)
    (fun key ivb p => p ++ toyTag key ivb)
    (fun key ivb c =>
       let n := (length c - 16)%nat in
       if decide (map Byte.to_N (skipn n c) = map Byte.to_N (toyTag key ivb))
   then if (16 <=? length c)%nat then Some (firstn n c) else None
   else None).

(** *** Notions used in the statements of Part II *)

(** The steps of [atob] after the removal of white space. *)
Definition atobCore (data : jsstring) : option (list N) :=
  let data := stripPadding data in
  if N.of_nat (length data) mod 4 =? 1 then None
  else option_map decodeGroups (base64Values data).

(** A Unicode scalar value: a code point that is not a surrogate. *)
Definition isScalar (cp : N) : Prop :=
  cp < 0x110000 /\ ~ (0xD800 <= cp <= 0xDFFF).

(** The plaintext and the key of the test suite: "Hello, " followed by two
    CJK characters, "! " and an emoji (a surrogate pair); the key is the
    base64 text of 28 bytes, so it goes through SHA-256. *)
Definition samplePlaintext : jsstring :=
  js "Hello, " ++ [0x4E16; 0x754C] ++ js "! " ++ [0xD83C; 0xDF0D].

Definition sampleKey : jsstring := js "dGVzdC1lbmNyeXB0aW9uLWtleS0zMi1ieXRlcw==".

(** The characters of a URL-safe token. *)
Definition urlSafe (c : N) : bool :=
  isUpper c || isLower c || isDigit c || (c =? 45) || (c =? 95).

(** The number of colons of a string. *)
Definition colons (s : jsstring) : nat :=
  length (List.filter (fun c => c =? 58) s).
End Crypto.

(** ** Sample data

    Concrete requests, contexts and worlds on which the embedding is run. *)

Module Samples.
Import JsString JsValue Errors Effects.

Definition presentation : Handlers.Presentation :=
  Handlers.MkPresentation
    (fun _ _ => js "rows")
    (fun _ => js "summary")
    (fun _ _ _ _ => ret (js "schema")).

(** A client whose endpoint answers every call with [null]. *)
Definition client : Neo4jClient := MkClient (fun _ => Ok Null).

Definition emptyKV : RateLimit.KVNamespace := RateLimit.MkKV ∅ true.

(** A namespace in which the identity [user:limited] has used its three
    requests of the window that starts at second 1200. *)
Definition fullKV : RateLimit.KVNamespace :=
  RateLimit.MkKV
    (<[RateLimit.getRateLimitKey (js "user:limited") :=
         RateLimit.MkKVRecord (RateLimit.MkEntry 3 1200) 1340]> ∅)
    true.

Definition world : World := MkWorld emptyKV [].

(** A world in which the caller without credentials and without address
    headers has used the 100 requests of the window that starts at second
    1699999980. *)
Definition busyWorld : World :=
  MkWorld
    (RateLimit.MkKV
       (<[RateLimit.getRateLimitKey (js "anonymous") :=
            RateLimit.MkKVRecord (RateLimit.MkEntry 100 1699999980)
              1700000100]> ∅)
       true)
    [].

(** An authenticated, writable context. *)
Definition context : Handlers.HandlerContext :=
  Handlers.MkContext (Some client) false (Some 30%Z) (Some 10000%Z) None
    (Some (js "user-1")) (Some (js "conn-1")).

(** An authenticated context of a connection configured as read-only. *)
Definition readOnlyContext : Handlers.HandlerContext :=
  Handlers.MkContext (Some client) true (Some 30%Z) (Some 10000%Z) None
    (Some (js "user-1")) (Some (js "conn-1")).

Definition serverConfig : Index.ServerConfig :=
  Index.MkServerConfig 30 10000 1000%float.

(** [{ name: 'read_neo4j_cypher', arguments: args }] as the params of a
    tools/call request with id 1. *)
Definition readCall (args : object) : Protocol.JsonRpcRequest :=
  Protocol.MkRequest (Num 1%float) Handlers.TOOLS_CALL
    (Obj [ (js "name", Str Handlers.READ_CYPHER);
           (js "arguments", Obj args) ]).

Definition createQuery : jsstring := js "CREATE (n) RETURN n".

(** The body [{ jsonrpc: '2.0', method: 'ping' }], which has no id. *)
Definition pingWithoutId : Index.Request :=
  Index.MkHttpRequest
    (Some (Obj [ (js "jsonrpc", Str (js "2.0"));
                 (js "method", Str (js "ping")) ]))
    None None.

End Samples.

(* ===================================================================== *)
(** * Part II. Properties                                                 *)
(* ===================================================================== *)

(** ** Query validator *)

Section QueryValidatorFacts.
Import JsString Regex JsValue QueryValidator.

Lemma find_hit {A} (f : A -> bool) (l : list A) (x : A) :
  In x l -> f x = true -> exists y, find f l = Some y.
Proof.
  intros Hin Hfx. destruct (find f l) as [y|] eqn:E.
  - now exists y.
  - rewrite (find_none f l E x Hin) in Hfx. discriminate.
Qed.

(** A verdict produced by a hit in the deny-list is a rejection. *)
Lemma validateQuery_deny_hit (query : jsstring) (op : regex * jsstring) :
  In op DANGEROUS_OPERATIONS ->
  test (fst op) (removeComments query) = true ->
  valid (validateQuery query) = false.
Proof.
  intros Hin Hhit. unfold validateQuery.
  destruct (MAX_QUERY_LENGTH <? jslength query)%Z; [reflexivity|].
  destruct (trim query); [reflexivity|].
  destruct (find_hit (fun op => test (fst op) (removeComments query))
              DANGEROUS_OPERATIONS op Hin Hhit) as [[r m] ->].
  reflexivity.
Qed.

(** C1.  The deny-list lets three texts through, each of which holds one
    of the constructs outside any comment, and [validateQuery] returns a
    verdict with [valid = true] for each of them:
    - DROP DATABASE after a string literal that holds a URL: the two
      slashes of the URL start what [removeComments] takes for a line
      comment, and the deny-list is consulted on what stands before them;
    - DROP and DATABASE with an empty block comment between them: the
      comment is replaced by nothing, which glues the keywords into one
      word;
    - LOAD CSV WITH HEADERS FROM a remote URL: the pattern asks for FROM
      right after CSV. *)
Theorem validateQuery_accepts_denied_constructs :
  (test pat_DROP_DATABASE
     (js "RETURN 'http://example.com' AS site DROP DATABASE neo4j") = true
   /\ removeComments
        (js "RETURN 'http://example.com' AS site DROP DATABASE neo4j")
      = js "RETURN 'http:"
   /\ validateQuery
        (js "RETURN 'http://example.com' AS site DROP DATABASE neo4j")
      = MkResult true None [] read)
  /\ (removeComments (js "DROP/**/DATABASE neo4j") = js "DROPDATABASE neo4j"
      /\ validateQuery (js "DROP/**/DATABASE neo4j")
         = MkResult true None [] unknown)
  /\ validateQuery
       (js "LOAD CSV WITH HEADERS FROM 'https://evil.example/x.csv' AS row RETURN row")
     = MkResult true None [] read.
Proof. repeat split; vm_compute; reflexivity. Qed.

(** *** Parameter sanitization *)

Lemma sanitizeParameters_unfold (entries : object) :
  sanitizeParameters (Some entries)
  = match fold_left sanitizeStep entries [] with
    | [] => None
    | _ :: _ => Some (fold_left sanitizeStep entries [])
    end.
Proof. reflexivity. Qed.

Lemma fold_sanitizeStep_dropped (entries acc : object) :
  Forall (fun kv => keyOk kv = false) entries ->
  fold_left sanitizeStep entries acc = acc.
Proof.
  revert acc. induction entries as [|kv entries IH]; intros acc H.
  - reflexivity.
  - inversion H as [|? ? Hkv Hrest]; subst. cbn [fold_left].
    unfold sanitizeStep at 2. unfold keyOk in Hkv. rewrite Hkv.
    now apply IH.
Qed.

(** When every key is dropped the result is [undefined]. *)
Lemma sanitizeParameters_all_dropped (entries : object) :
  Forall (fun kv => keyOk kv = false) entries ->
  sanitizeParameters (Some entries) = None.
Proof.
  intros H. rewrite sanitizeParameters_unfold.
  now rewrite fold_sanitizeStep_dropped.
Qed.

Lemma eqb_true_iff (a b : jsstring) : JsString.eqb a b = true <-> a = b.
Proof. unfold JsString.eqb. destruct (decide (a = b)); split; congruence. Qed.

Lemma eqb_false_iff (a b : jsstring) : JsString.eqb a b = false <-> a <> b.
Proof. unfold JsString.eqb. destruct (decide (a = b)); split; congruence. Qed.

Lemma lookupProp_None (o : object) (k : jsstring) :
  ~ In k (map fst o) -> lookupProp o k = None.
Proof.
  induction o as [|[k' v] o IH]; intros H; [reflexivity|].
  cbn [lookupProp]. destruct (JsString.eqb k k') eqn:E.
  - apply eqb_true_iff in E. subst. exfalso. apply H. now left.
  - apply IH. intros Hin. apply H. now right.
Qed.

Lemma setProp_fresh (o : object) (k : jsstring) (v : value) :
  k <> js "__proto__" -> ~ In k (map fst o) -> setProp o k v = o ++ [(k, v)].
Proof.
  intros Hk Hfresh. unfold setProp.
  apply eqb_false_iff in Hk. rewrite Hk.
  now rewrite lookupProp_None.
Qed.

Lemma fold_sanitizeStep_filter (entries acc : object) :
  List.NoDup (map fst (acc ++ entries)) ->
  ~ In (js "__proto__") (map fst entries) ->
  fold_left sanitizeStep entries acc = acc ++ List.filter keyOk entries.
Proof.
  revert acc. induction entries as [|[k v] entries IH]; intros acc Hnd Hproto.
  - cbn. now rewrite app_nil_r.
  - cbn [fold_left List.filter]. unfold sanitizeStep at 2. unfold keyOk at 1.
    cbn [fst snd].
    assert (Hk : k <> js "__proto__").
    { intros ->. apply Hproto. now left. }
    assert (Hrest : ~ In (js "__proto__") (map fst entries)).
    { intros Hin. apply Hproto. now right. }
    assert (Hfresh : ~ In k (map fst acc)).
    { rewrite map_app in Hnd. cbn in Hnd.
      apply NoDup_remove_2 in Hnd. intros Hin. apply Hnd.
      apply in_or_app. now left. }
    destruct (test pat_paramKey k).
    + rewrite setProp_fresh by assumption.
      rewrite IH; [now rewrite <- app_assoc | | assumption].
      rewrite <- app_assoc. exact Hnd.
    + apply IH; [|assumption].
      rewrite map_app in *. cbn in Hnd.
      now apply NoDup_remove_1 in Hnd.
Qed.

(** For a parameter map with no own property named [__proto__], the result
    holds exactly the entries whose key matches the pattern, in order, and
    is [undefined] when there is none. *)
Theorem sanitizeParameters_filters_keys (entries : object) :
  List.NoDup (map fst entries) ->
  ~ In (js "__proto__") (map fst entries) ->
  sanitizeParameters (Some entries)
  = match List.filter keyOk entries with
    | [] => None
    | _ :: _ => Some (List.filter keyOk entries)
    end.
Proof.
  intros Hnd Hproto. rewrite sanitizeParameters_unfold.
  now rewrite (fold_sanitizeStep_filter entries []).
Qed.

Lemma sanitizeParameters_filters_keys_witness :
  sanitizeParameters
    (Some [ (js "valid_key", Num 1%float); (js "123invalid", Num 2%float);
            (js "also-invalid", Num 3%float) ])
  = Some [ (js "valid_key", Num 1%float) ].
Proof.
  rewrite sanitizeParameters_filters_keys.
  - vm_compute. reflexivity.
  - vm_compute. repeat constructor; cbn; intuition discriminate.
  - vm_compute. intuition discriminate.
Defined.

(** C10.  The key [__proto__] matches the pattern, yet an entry under it
    never reaches the result: the assignment [sanitized[key] = value]
    reaches the prototype accessor instead of creating a property.  With
    one more valid key the result is defined and lacks the entry; alone,
    the result is [undefined] although no key was rejected. *)
Theorem sanitizeParameters_loses_proto_key :
  test pat_paramKey (js "__proto__") = true
  /\ sanitizeParameters
       (Some [ (js "__proto__", Num 1%float); (js "limit", Num 5%float) ])
     = Some [ (js "limit", Num 5%float) ]
  /\ sanitizeParameters (Some [ (js "__proto__", Num 1%float) ]) = None.
Proof. repeat split; vm_compute; reflexivity. Qed.

End QueryValidatorFacts.

(** ** Syntax check and result transformation *)

Section QueriesFacts.
Import JsString Regex JsValue Queries.
Local Open Scope Z_scope.

Lemma depthOf_cons (o c x : N) (s : jsstring) :
  depthOf o c (x :: s)
  = (if (o =? x)%N then 1 else 0) - (if (c =? x)%N then 1 else 0)
    + depthOf o c s.
Proof.
  unfold depthOf, occurrences. cbn [List.filter].
  destruct (o =? x)%N, (c =? x)%N; cbn [length]; lia.
Qed.

Lemma depthOf_single (o c x : N) :
  depthOf o c [x]
  = (if (o =? x)%N then 1 else 0) - (if (c =? x)%N then 1 else 0).
Proof.
  rewrite depthOf_cons. unfold depthOf, occurrences. cbn [List.filter length].
  lia.
Qed.

(** The counters after the loop are the initial ones plus the depths, and
    the loop ends early exactly when a counter goes below zero. *)
Lemma countBrackets_spec (s : jsstring) (p b c : Z) :
  0 <= p -> 0 <= b -> 0 <= c ->
  match countBrackets s p b c with
  | Some r =>
      r = (p + depthOf 40 41 s, b + depthOf 91 93 s, c + depthOf 123 125 s)
      /\ forall n : nat,
           0 <= p + depthOf 40 41 (firstn n s)
           /\ 0 <= b + depthOf 91 93 (firstn n s)
           /\ 0 <= c + depthOf 123 125 (firstn n s)
  | None =>
      exists n : nat,
        p + depthOf 40 41 (firstn n s) < 0
        \/ b + depthOf 91 93 (firstn n s) < 0
        \/ c + depthOf 123 125 (firstn n s) < 0
  end.
Proof.
  revert p b c. induction s as [|x s IH]; intros p b c Hp Hb Hc.
  - cbn [countBrackets]. split.
    + unfold depthOf, occurrences. cbn. repeat f_equal; lia.
    + intros n. rewrite firstn_nil. unfold depthOf, occurrences. cbn. lia.
  - cbn [countBrackets].
    set (p' := if (x =? 40)%N then p + 1
               else if (x =? 41)%N then p - 1 else p).
    set (b' := if (x =? 91)%N then b + 1
               else if (x =? 93)%N then b - 1 else b).
    set (c' := if (x =? 123)%N then c + 1
               else if (x =? 125)%N then c - 1 else c).
    assert (Ep : p' = p + depthOf 40 41 [x]).
    { subst p'. rewrite depthOf_single.
      destruct (N.eqb_spec x 40), (N.eqb_spec x 41), (N.eqb_spec 40 x),
        (N.eqb_spec 41 x); subst; try lia; congruence. }
    assert (Eb : b' = b + depthOf 91 93 [x]).
    { subst b'. rewrite depthOf_single.
      destruct (N.eqb_spec x 91), (N.eqb_spec x 93), (N.eqb_spec 91 x),
        (N.eqb_spec 93 x); subst; try lia; congruence. }
    assert (Ec : c' = c + depthOf 123 125 [x]).
    { subst c'. rewrite depthOf_single.
      destruct (N.eqb_spec x 123), (N.eqb_spec x 125), (N.eqb_spec 123 x),
        (N.eqb_spec 125 x); subst; try lia; congruence. }
    assert (Hcons : forall o cl t,
              depthOf o cl (x :: t) = depthOf o cl [x] + depthOf o cl t).
    { intros o cl t. rewrite depthOf_single. apply depthOf_cons. }
    destruct ((p' <? 0) || (b' <? 0) || (c' <? 0)) eqn:Hneg.
    + exists 1%nat. change (firstn 1 (x :: s)) with [x].
      rewrite <- Ep, <- Eb, <- Ec.
      apply orb_prop in Hneg. destruct Hneg as [Hneg|Hneg].
      * apply orb_prop in Hneg. destruct Hneg as [Hneg|Hneg];
          apply Z.ltb_lt in Hneg; auto.
      * apply Z.ltb_lt in Hneg. auto.
    + apply orb_false_elim in Hneg. destruct Hneg as [Hneg Hc'].
      apply orb_false_elim in Hneg. destruct Hneg as [Hp' Hb'].
      apply Z.ltb_ge in Hp', Hb', Hc'.
      specialize (IH p' b' c' Hp' Hb' Hc').
      destruct (countBrackets s p' b' c') as [r|].
      * destruct IH as [-> IH]. split.
        -- rewrite (Hcons 40%N 41%N s), (Hcons 91%N 93%N s),
             (Hcons 123%N 125%N s). f_equal; [f_equal|]; lia.
        -- intros [|n].
           ++ cbn [firstn]. unfold depthOf, occurrences. cbn. lia.
           ++ cbn [firstn]. rewrite (Hcons 40%N 41%N (firstn n s)), (Hcons 91%N 93%N (firstn n s)),
             (Hcons 123%N 125%N (firstn n s)).
              specialize (IH n). lia.
      * destruct IH as [n IH]. exists (S n). cbn [firstn].
        rewrite (Hcons 40%N 41%N (firstn n s)), (Hcons 91%N 93%N (firstn n s)),
             (Hcons 123%N 125%N (firstn n s)). lia.
Qed.

(** X17.  [validateCypherSyntax] accepts a text exactly when, after
    trimming, it is not empty and round, square and curly brackets are
    each balanced: no prefix closes more than it opens and the text closes
    as many as it opens.  The three kinds are counted separately and
    brackets inside string literals count too. *)
Theorem validateCypherSyntax_accepts_iff (cypher : jsstring) :
  valid (validateCypherSyntax cypher) = true
  <-> trim cypher <> []
      /\ balanced 40 41 (trim cypher)
      /\ balanced 91 93 (trim cypher)
      /\ balanced 123 125 (trim cypher).
Proof.
  unfold validateCypherSyntax, balanced. cbv zeta.
  destruct (trim cypher) as [|x t] eqn:Et.
  - cbn [valid]. split; [discriminate|]. intros [H _]. now contradiction H.
  - pose proof (countBrackets_spec (x :: t) 0 0 0
                  ltac:(lia) ltac:(lia) ltac:(lia)) as Hspec.
    destruct (countBrackets (x :: t) 0 0 0) as [[[p b] c]|].
    + destruct Hspec as [E Hpre]. injection E as -> -> ->.
      rewrite !Z.add_0_l.
      destruct (Z.eqb_spec (depthOf 40 41 (x :: t)) 0) as [E1|E1];
        cbn [negb]; [|cbn [valid]; split; [discriminate|tauto]].
      destruct (Z.eqb_spec (depthOf 91 93 (x :: t)) 0) as [E2|E2];
        cbn [negb]; [|cbn [valid]; split; [discriminate|tauto]].
      destruct (Z.eqb_spec (depthOf 123 125 (x :: t)) 0) as [E3|E3];
        cbn [negb]; [|cbn [valid]; split; [discriminate|tauto]].
      cbn [valid]. split; [|reflexivity]. intros _.
      split; [discriminate|].
      repeat split; try assumption; intros n; specialize (Hpre n); lia.
    + cbn [valid]. split; [discriminate|].
      intros (_ & [H1 _] & [H2 _] & [H3 _]).
      destruct Hspec as [n Hn]. specialize (H1 n). specialize (H2 n).
      specialize (H3 n). lia.
Qed.


Lemma transformValue_Obj (o : object) :
  transformValue (Obj o)
  = if isNeo4jNode (Obj o) then Obj (transformNode o)
    else if isNeo4jRelationship (Obj o) then Obj (transformRelationship o)
    else Obj (fold_left
                (fun (result : object) (kv : jsstring * value) =>
                   setProp result (fst kv) (transformValue (snd kv)))
                o []).
Proof. reflexivity. Qed.

Lemma transformValue_defined (v : value) : transformValue v <> Undefined.
Proof.
  destruct v as [| | b | x | s | items | o]; try discriminate.
  rewrite transformValue_Obj.
  destruct (isNeo4jNode (Obj o)); [discriminate|].
  destruct (isNeo4jRelationship (Obj o)); discriminate.
Qed.




Lemma lookupProp_setProp_proto (o : object) (k' : jsstring) (v : value) :
  lookupProp (setProp o (js "__proto__") v) k' = lookupProp o k'.
Proof. reflexivity. Qed.





End QueriesFacts.
(** ** Tool handlers *)

Section HandlerFacts.
Import JsString JsValue Errors Effects Protocol Handlers.

Lemma ValidationError_is_validationFault (msg : jsstring) :
  ValidationError msg = validationFault msg.
Proof. reflexivity. Qed.

(** Once the arguments are well-formed, a query that [isWriteQuery]
    classifies as a write leaves [executeReadCypher] with a validation
    fault, whichever of the three checks fires, and the world is the one
    the handler started in. *)
Lemma executeReadCypher_rejects_write (pr : Presentation) (a : object)
    (query : jsstring) (rawParams : option object) (context : HandlerContext)
    (w : World) :
  getProp a (js "query") = Str query ->
  getOptionalObjectParam (Some a) (js "params") = Ok rawParams ->
  Queries.isWriteQuery query = true ->
  exists msg,
    executeReadCypher pr (Some a) context w = (Throw (validationFault msg), w).
Proof.
  intros Hq Hp Hw. unfold executeReadCypher. rewrite Hq, Hp.
  unfold bind, lift, securityAndSyntax.
  destruct (negb (QueryValidator.valid (QueryValidator.validateQuery query))).
  - eexists. reflexivity.
  - destruct (negb (Queries.valid (Queries.validateCypherSyntax query))).
    + eexists. reflexivity.
    + unfold ret. rewrite Hw. eexists. reflexivity.
Qed.

(** For every tools/call invocation of the read tool whose [query]
    argument is a string that [isWriteQuery] classifies as a write, and
    whose optional [params] argument is absent or an object, the call
    throws a [ValidationError] with code -32005, and it does so in an
    unchanged world: no call has reached the remote database client. *)
Lemma read_tool_rejects_write_query (pr : Presentation)
    (request : JsonRpcRequest) (a : object) (query : jsstring)
    (rawParams : option object) (context : HandlerContext) (w : World) :
  validateToolCallParams (params request) = Ok (READ_CYPHER, Some a) ->
  getProp a (js "query") = Str query ->
  getOptionalObjectParam (Some a) (js "params") = Ok rawParams ->
  Queries.isWriteQuery query = true ->
  exists msg,
    handleToolsCall pr request context w = (Throw (validationFault msg), w)
    /\ code (toMcpError (validationFault msg)) = (-32005)%Z.
Proof.
  intros Hcall Hq Hp Hw.
  destruct (executeReadCypher_rejects_write pr a query rawParams context w
              Hq Hp Hw) as [msg Hmsg].
  exists msg. split; [|reflexivity].
  unfold handleToolsCall, bind, lift. rewrite Hcall. cbn [fst snd].
  change (toolExists READ_CYPHER) with true.
  change (JsString.eqb READ_CYPHER GET_SCHEMA) with false.
  change (JsString.eqb READ_CYPHER READ_CYPHER) with true.
  cbn [negb]. exact Hmsg.
Qed.

(** The theorem at the call
    [{ name: 'read_neo4j_cypher', arguments: { query: 'CREATE (n) RETURN n' } }]
    made with a connected client. *)
Lemma read_tool_rejects_write_query_witness :
  exists msg,
    handleToolsCall Samples.presentation
      (Samples.readCall [ (js "query", Str Samples.createQuery) ])
      Samples.context Samples.world
    = (Throw (validationFault msg), Samples.world)
    /\ code (toMcpError (validationFault msg)) = (-32005)%Z.
Proof.
  apply (read_tool_rejects_write_query Samples.presentation
           (Samples.readCall [ (js "query", Str Samples.createQuery) ])
           [ (js "query", Str Samples.createQuery) ]
           Samples.createQuery None);
    vm_compute; reflexivity.
Defined.

(** With a [params] argument that is not an object the same write query
    is rejected by [getOptionalObjectParam], which runs first: the fault is
    an [InvalidParamsError] with code -32602, not a validation fault. *)
Lemma read_tool_malformed_params_fault :
  Queries.isWriteQuery Samples.createQuery = true
  /\ handleToolsCall Samples.presentation
       (Samples.readCall [ (js "query", Str Samples.createQuery);
                           (js "params", Str (js "none")) ])
       Samples.context Samples.world
     = (Throw (Mcp (MkMcpError InvalidParamsErrorC (-32602)
                      (js "Parameter params must be an object") None)),
        Samples.world).
Proof. split; vm_compute; reflexivity. Qed.

(** C2.  The read tool forwards statements that write.  On a connection
    configured as read-only, the calls with the query [CREATE(n) RETURN n]
    (no white space after the keyword) and with a query that creates a node
    after a string literal holding a URL both pass the three checks of
    [executeReadCypher]: [isWriteQuery] answers [false], the statement is
    the one call the database client receives, and the tool answers with a
    result instead of a validation fault. *)
Theorem read_tool_forwards_write_query :
  readOnly Samples.readOnlyContext = true
  /\ (Queries.isWriteQuery (js "CREATE(n) RETURN n") = false
      /\ exists r,
          handleToolsCall Samples.presentation
            (Samples.readCall [ (js "query", Str (js "CREATE(n) RETURN n")) ])
            Samples.readOnlyContext Samples.world
          = (Ok r,
             MkWorld (kv Samples.world)
               [ MkCall (js "CREATE(n) RETURN n") None false ]))
  /\ (Queries.isWriteQuery
        (js "RETURN 'http://example.com' AS site CREATE (n:Copy)") = false
      /\ exists r,
          handleToolsCall Samples.presentation
            (Samples.readCall
               [ (js "query",
                  Str (js "RETURN 'http://example.com' AS site CREATE (n:Copy)")) ])
            Samples.readOnlyContext Samples.world
          = (Ok r,
             MkWorld (kv Samples.world)
               [ MkCall
                   (js "RETURN 'http://example.com' AS site CREATE (n:Copy)")
                   None false ])).
Proof.
  split; [reflexivity|]. split.
  - split; [vm_compute; reflexivity|]. eexists. vm_compute. reflexivity.
  - split; [vm_compute; reflexivity|]. eexists. vm_compute. reflexivity.
Qed.




Lemma securityAndSyntax_cases (query : jsstring) (rawParams : option object)
    (w : World) :
  (exists e, securityAndSyntax query rawParams w = (Throw e, w))
  \/ (securityAndSyntax query rawParams w
      = (Ok (QueryValidator.sanitizeParameters rawParams), w)
      /\ QueryValidator.valid (QueryValidator.validateQuery query) = true
      /\ Queries.valid (Queries.validateCypherSyntax query) = true).
Proof.
  unfold securityAndSyntax.
  destruct (QueryValidator.valid (QueryValidator.validateQuery query));
    cbn [negb]; [|left; eexists; reflexivity].
  destruct (Queries.valid (Queries.validateCypherSyntax query));
    cbn [negb]; [|left; eexists; reflexivity].
  right. auto.
Qed.

Lemma executeReadCypher_trace (pr : Presentation) (args : option object)
    (context : HandlerContext) (w : World) :
  snd (executeReadCypher pr args context w) = w
  \/ exists a query rawParams,
      args = Some a
      /\ getProp a (js "query") = Str query
      /\ getOptionalObjectParam args (js "params") = Ok rawParams
      /\ snd (executeReadCypher pr args context w)
      = MkWorld (kv w)
          (clientLog w
           ++ [MkCall query (QueryValidator.sanitizeParameters rawParams)
                 false])
      /\ QueryValidator.valid (QueryValidator.validateQuery query) = true
      /\ Queries.valid (Queries.validateCypherSyntax query) = true
      /\ Queries.isWriteQuery query = false.
Proof.
  unfold executeReadCypher.
  destruct args as [a|]; [|now left].
  destruct (getProp a (js "query")) as [| |?|?|query|?|?] eqn:Hq;
    try now left.
  unfold bind at 1, lift.
  destruct (getOptionalObjectParam (Some a) (js "params")) as [rawParams|e]
    eqn:Hp; [|now left].
  unfold bind.
  destruct (securityAndSyntax_cases query rawParams w)
    as [[e ->]|(-> & Hsec & Hsyn)]; [now left|].
  destruct (Queries.isWriteQuery query) eqn:Hw; [now left|].
  destruct (neo4jClient context) as [client|]; [|now left].
  right. exists a, query, rawParams.
  split; [reflexivity|]. split; [first [exact Hq|reflexivity]|].
  split; [first [exact Hp|reflexivity]|].
  split; [|auto].
  unfold tryCatch, executeReadQuery. rewrite Hw. unfold clientQuery.
  destruct (respond client _); reflexivity.
Qed.

Lemma executeWriteCypher_trace (pr : Presentation) (args : option object)
    (context : HandlerContext) (w : World) :
  snd (executeWriteCypher pr args context w) = w
  \/ exists a query rawParams,
      args = Some a
      /\ getProp a (js "query") = Str query
      /\ getOptionalObjectParam args (js "params") = Ok rawParams
      /\ snd (executeWriteCypher pr args context w)
      = MkWorld (kv w)
          (clientLog w
           ++ [MkCall query (QueryValidator.sanitizeParameters rawParams)
                 true])
      /\ QueryValidator.valid (QueryValidator.validateQuery query) = true
      /\ Queries.valid (Queries.validateCypherSyntax query) = true
      /\ readOnly context = false.
Proof.
  unfold executeWriteCypher.
  destruct (readOnly context) eqn:Hro; [now left|].
  destruct args as [a|]; [|now left].
  destruct (getProp a (js "query")) as [| |?|?|query|?|?] eqn:Hq;
    try now left.
  unfold bind at 1, lift.
  destruct (getOptionalObjectParam (Some a) (js "params")) as [rawParams|e]
    eqn:Hp; [|now left].
  unfold bind.
  destruct (securityAndSyntax_cases query rawParams w)
    as [[e ->]|(-> & Hsec & Hsyn)]; [now left|].
  destruct (neo4jClient context) as [client|]; [|now left].
  right. exists a, query, rawParams.
  split; [reflexivity|]. split; [first [exact Hq|reflexivity]|].
  split; [first [exact Hp|reflexivity]|].
  split; [|auto].
  unfold tryCatch, executeWriteQuery, clientQuery.
  destruct (respond client _); reflexivity.
Qed.

(** X20.  A call of the read or the write tool leaves the world
    as it was or adds exactly one call to the log of the database client.
    The statement of that call is the [query] argument, it has passed
    [validateQuery] and [validateCypherSyntax], and its parameters are the
    sanitized [params] argument; a call without counters comes from the
    read tool and [isWriteQuery] answered [false] for its statement, a call
    with counters comes from the write tool on a connection that is not
    read-only. *)
Theorem tool_call_sends_validated_statement (pr : Presentation)
    (request : JsonRpcRequest) (name : jsstring) (args : option object)
    (context : HandlerContext) (w : World) :
  validateToolCallParams (params request) = Ok (name, args) ->
  name <> GET_SCHEMA ->
  snd (handleToolsCall pr request context w) = w
  \/ exists a query rawParams counters,
      args = Some a
      /\ getProp a (js "query") = Str query
      /\ getOptionalObjectParam args (js "params") = Ok rawParams
      /\ snd (handleToolsCall pr request context w)
      = MkWorld (kv w)
          (clientLog w
           ++ [MkCall query (QueryValidator.sanitizeParameters rawParams)
                 counters])
      /\ QueryValidator.valid (QueryValidator.validateQuery query) = true
      /\ Queries.valid (Queries.validateCypherSyntax query) = true
      /\ (counters = false ->
          name = READ_CYPHER /\ Queries.isWriteQuery query = false)
      /\ (counters = true ->
          name = WRITE_CYPHER /\ readOnly context = false).
Proof.
  intros Hcall Hname. unfold handleToolsCall, bind, lift. rewrite Hcall.
  cbn [fst snd].
  destruct (toolExists name); cbn [negb]; [|now left].
  destruct (JsString.eqb name GET_SCHEMA) eqn:E0.
  { apply eqb_true_iff in E0. contradiction. }
  destruct (JsString.eqb name READ_CYPHER) eqn:E1.
  { apply eqb_true_iff in E1.
    destruct (executeReadCypher_trace pr args context w)
      as [H|(a & query & rawParams & Ha & Hq & Hp & H & Hsec & Hsyn & Hw)];
      [now left|].
    right. exists a, query, rawParams, false.
    repeat split; auto; discriminate. }
  destruct (JsString.eqb name WRITE_CYPHER) eqn:E2; [|now left].
  apply eqb_true_iff in E2.
  destruct (executeWriteCypher_trace pr args context w)
    as [H|(a & query & rawParams & Ha & Hq & Hp & H & Hsec & Hsyn & Hro)];
    [now left|].
  right. exists a, query, rawParams, true.
  repeat split; auto; discriminate.
Qed.

Lemma tool_call_sends_validated_statement_witness :
  snd (handleToolsCall Samples.presentation
         (Samples.readCall [ (js "query", Str (js "RETURN 1")) ])
         Samples.context Samples.world)
  = Samples.world
  \/ exists a query rawParams counters,
      Some [ (js "query", Str (js "RETURN 1")) ] = Some a
      /\ getProp a (js "query") = Str query
      /\ getOptionalObjectParam (Some [ (js "query", Str (js "RETURN 1")) ])
           (js "params") = Ok rawParams
      /\ snd (handleToolsCall Samples.presentation
             (Samples.readCall [ (js "query", Str (js "RETURN 1")) ])
             Samples.context Samples.world)
      = MkWorld (kv Samples.world)
          (clientLog Samples.world
           ++ [MkCall query (QueryValidator.sanitizeParameters rawParams)
                 counters])
      /\ QueryValidator.valid (QueryValidator.validateQuery query) = true
      /\ Queries.valid (Queries.validateCypherSyntax query) = true
      /\ (counters = false ->
          READ_CYPHER = READ_CYPHER /\ Queries.isWriteQuery query = false)
      /\ (counters = true ->
          READ_CYPHER = WRITE_CYPHER /\ readOnly Samples.context = false).
Proof.
  apply (tool_call_sends_validated_statement Samples.presentation
           (Samples.readCall [ (js "query", Str (js "RETURN 1")) ])
           READ_CYPHER (Some [ (js "query", Str (js "RETURN 1")) ])).
  - reflexivity.
  - discriminate.
Defined.

(** [routeRequest] never throws. *)
Lemma routeRequest_returns (pr : Presentation) (request : JsonRpcRequest)
    (context : HandlerContext) (w : World) :
  exists r w', routeRequest pr request context w = (Ok r, w').
Proof.
  unfold routeRequest, tryCatch.
  match goal with
  | |- context [match ?m w with _ => _ end] => destruct (m w) as [[r|e] w']
  end; eauto.
Qed.
End HandlerFacts.

(** ** Rate limiter *)

Section RateLimitFacts.
Import JsString RateLimit.
Local Open Scope Z_scope.

(** The current window starts at or before the current second and ends
    after it. *)
Lemma getCurrentWindow_bounds (nowMs W : Z) :
  0 < W ->
  getCurrentWindow nowMs W <= nowSeconds nowMs < getCurrentWindow nowMs W + W.
Proof.
  intros HW. unfold getCurrentWindow.
  pose proof (Z.mul_div_le (nowSeconds nowMs) W HW).
  pose proof (Z.mul_succ_div_gt (nowSeconds nowMs) W HW).
  lia.
Qed.

(** One call on a store that answers: the count read plus one is reported,
    and it is written back exactly when it is within the limit. *)
Lemma checkRateLimit_online (kv : KVNamespace) (nowMs : Z)
    (identifier : jsstring) (config : RateLimitConfig) :
  online kv = true ->
  let n := liveCount kv nowMs (windowSeconds config) identifier + 1 in
  let W := windowSeconds config in
  checkRateLimit kv nowMs identifier config
  = (MkRateLimitResult (n <=? maxRequests config) n (maxRequests config)
       (Z.max 0 (getCurrentWindow nowMs W + W - nowSeconds nowMs))
       (Z.max 0 (maxRequests config - n)),
     if n <=? maxRequests config
     then MkKV (<[getRateLimitKey identifier :=
                   MkKVRecord (MkEntry n (getCurrentWindow nowMs W))
                     (nowSeconds nowMs + W * 2)]> (records kv)) true
     else kv).
Proof.
  intros Hon n W. subst n W.
  unfold checkRateLimit, liveCount, kvGet, kvPut. rewrite Hon.
  destruct (records kv !! getRateLimitKey identifier) as [r|].
  - destruct (nowSeconds nowMs <? expiresAt r).
    + destruct (window (stored r)
                =? getCurrentWindow nowMs (windowSeconds config)).
      * destruct (count (stored r) + 1 <=? maxRequests config);
          reflexivity.
      * change (0 + 1) with 1.
        destruct (1 <=? maxRequests config); reflexivity.
    + change (0 + 1) with 1.
      destruct (1 <=? maxRequests config); reflexivity.
  - change (0 + 1) with 1.
    destruct (1 <=? maxRequests config); reflexivity.
Qed.

(** After an allowed call, a later call in the same window reads the count
    just written. *)
Lemma liveCount_after_write (m : gmap jsstring KVRecord) (identifier : jsstring)
    (n W t t' : Z) :
  0 < W ->
  getCurrentWindow t' W = getCurrentWindow t W ->
  liveCount
    (MkKV (<[getRateLimitKey identifier :=
              MkKVRecord (MkEntry n (getCurrentWindow t W))
                (nowSeconds t + W * 2)]> m) true)
    t' W identifier
  = n.
Proof.
  intros HW Hsame. unfold liveCount. cbn [records].
  rewrite lookup_insert_eq. cbn [expiresAt stored window count].
  pose proof (getCurrentWindow_bounds t W HW).
  pose proof (getCurrentWindow_bounds t' W HW).
  rewrite Hsame in *.
  replace (nowSeconds t' <? nowSeconds t + W * 2) with true
    by (symmetry; apply Z.ltb_lt; lia).
  now rewrite Z.eqb_refl.
Qed.

(** A record of another window counts for nothing. *)
Lemma liveCount_other_window (m : gmap jsstring KVRecord)
    (identifier : jsstring) (n W w expires t' : Z) :
  getCurrentWindow t' W <> w ->
  liveCount
    (MkKV (<[getRateLimitKey identifier :=
              MkKVRecord (MkEntry n w) expires]> m) true)
    t' W identifier
  = 0.
Proof.
  intros Hother. unfold liveCount. cbn [records].
  rewrite lookup_insert_eq. cbn [expiresAt stored window count].
  destruct (nowSeconds t' <? expires); [|reflexivity].
  destruct (Z.eqb_spec w (getCurrentWindow t' W)); [congruence|reflexivity].
Qed.

(** C4.  With [maxRequests = 3], for an identity the store holds no record
    of, four calls whose clock readings fall in one window are answered
    allowed, allowed, allowed, then not allowed with [current = 4] and
    [remaining = 0]; a fifth call in the window that follows is allowed
    with [current = 1]. *)
Theorem rate_limit_three_then_blocked_then_reset (kv0 : KVNamespace)
    (identifier : jsstring) (W t1 t2 t3 t4 t5 : Z) :
  online kv0 = true ->
  records kv0 !! getRateLimitKey identifier = None ->
  0 < W ->
  getCurrentWindow t2 W = getCurrentWindow t1 W ->
  getCurrentWindow t3 W = getCurrentWindow t1 W ->
  getCurrentWindow t4 W = getCurrentWindow t1 W ->
  getCurrentWindow t5 W = getCurrentWindow t1 W + W ->
  exists r1 r2 r3 r4 r5,
    fiveCalls kv0 identifier (MkConfig 3 W) t1 t2 t3 t4 t5
    = [r1; r2; r3; r4; r5]
    /\ allowed r1 = true /\ allowed r2 = true /\ allowed r3 = true
    /\ allowed r4 = false /\ current r4 = 4 /\ remaining r4 = 0
    /\ allowed r5 = true /\ current r5 = 1.
Proof.
  intros Hon Hfresh HW H2 H3 H4 H5. unfold fiveCalls. cbv zeta.
  assert (L1 : liveCount kv0 t1 W identifier = 0).
  { unfold liveCount. now rewrite Hfresh. }
  (* first call *)
  rewrite (checkRateLimit_online kv0 t1 identifier (MkConfig 3 W) Hon).
  cbv zeta. cbn [maxRequests windowSeconds fst snd]. rewrite L1.
  change (0 + 1) with 1. change (1 <=? 3) with true. cbv iota.
  (* second call *)
  rewrite checkRateLimit_online by reflexivity.
  cbv zeta. cbn [maxRequests windowSeconds fst snd].
  rewrite (liveCount_after_write _ identifier 1 W t1 t2 HW H2).
  change (1 + 1) with 2. change (2 <=? 3) with true. cbv iota.
  (* third call *)
  rewrite checkRateLimit_online by reflexivity.
  cbv zeta. cbn [maxRequests windowSeconds fst snd].
  rewrite (liveCount_after_write _ identifier 2 W t2 t3 HW)
    by congruence.
  change (2 + 1) with 3. change (3 <=? 3) with true. cbv iota.
  (* fourth call: over the limit, nothing is written *)
  rewrite checkRateLimit_online by reflexivity.
  cbv zeta. cbn [maxRequests windowSeconds fst snd].
  rewrite (liveCount_after_write _ identifier 3 W t3 t4 HW)
    by congruence.
  change (3 + 1) with 4. change (4 <=? 3) with false. cbv iota.
  (* fifth call: the record belongs to the previous window *)
  rewrite checkRateLimit_online by reflexivity.
  cbv zeta. cbn [maxRequests windowSeconds fst snd].
  rewrite (liveCount_other_window _ identifier 3 W
             (getCurrentWindow t3 W) _ t5) by lia.
  change (0 + 1) with 1. change (1 <=? 3) with true. cbv iota.
  do 5 eexists. split; [reflexivity|].
  cbn [allowed current remaining]. repeat split; reflexivity.
Qed.

(** The scenario of the test suite: a 60-second window, four calls at
    seconds 1200, 1210, 1220 and 1259, the fifth at second 1260. *)
Lemma rate_limit_three_then_blocked_then_reset_witness :
  exists r1 r2 r3 r4 r5,
    fiveCalls Samples.emptyKV (js "user:limited") (MkConfig 3 60)
      1200000 1210000 1220000 1259999 1260000
    = [r1; r2; r3; r4; r5]
    /\ allowed r1 = true /\ allowed r2 = true /\ allowed r3 = true
    /\ allowed r4 = false /\ current r4 = 4 /\ remaining r4 = 0
    /\ allowed r5 = true /\ current r5 = 1.
Proof.
  apply (rate_limit_three_then_blocked_then_reset Samples.emptyKV
           (js "user:limited") 60 1200000 1210000 1220000 1259999 1260000);
    vm_compute; reflexivity.
Defined.

(** What a call leaves under a key is what was there before, or a record
    of the caller's identity whose count is within [maxRequests]. *)
Lemma checkRateLimit_record_origin (kv : KVNamespace) (nowMs : Z)
    (identifier : jsstring) (config : RateLimitConfig) (key : jsstring)
    (r : KVRecord) :
  records (snd (checkRateLimit kv nowMs identifier config)) !! key = Some r ->
  records kv !! key = Some r
  \/ (key = getRateLimitKey identifier
      /\ count (stored r) <= maxRequests config).
Proof.
  unfold checkRateLimit, kvGet, kvPut.
  destruct (online kv) eqn:Hon; [|auto].
  set (n := match
              match records kv !! getRateLimitKey identifier with
              | Some r =>
                  if nowSeconds nowMs <? expiresAt r
                  then Some (stored r) else None
              | None => None
              end
            with
            | Some e =>
                if window e =? getCurrentWindow nowMs (windowSeconds config)
                then count e + 1 else 1
            | None => 1
            end).
  destruct (n <=? maxRequests config) eqn:Hle; cbn [fst snd records]; [|auto].
  destruct (decide (getRateLimitKey identifier = key)) as [<-|Hne].
  - rewrite lookup_insert_eq. intros [= <-]. right. split; [reflexivity|].
    cbn [stored count]. now apply Z.leb_le.
  - rewrite lookup_insert_ne by assumption. auto.
Qed.

(** C5.  A call whose result is not allowed leaves the namespace as it
    found it; and whatever a call leaves under a key is either what was
    there before or a record of the caller's identity whose count is within
    [maxRequests]. *)
Theorem blocked_request_writes_nothing (kv : KVNamespace) (nowMs : Z)
    (identifier : jsstring) (config : RateLimitConfig) :
  (allowed (fst (checkRateLimit kv nowMs identifier config)) = false ->
   snd (checkRateLimit kv nowMs identifier config) = kv)
  /\ (forall key r,
         records (snd (checkRateLimit kv nowMs identifier config)) !! key
         = Some r ->
         records kv !! key = Some r
         \/ (key = getRateLimitKey identifier
             /\ count (stored r) <= maxRequests config)).
Proof.
  split.
  - destruct (online kv) eqn:Hon.
    + rewrite checkRateLimit_online by assumption. cbv zeta. cbn [fst snd allowed].
      intros Hblocked. now rewrite Hblocked.
    + unfold checkRateLimit, kvGet. now rewrite Hon.
  - intros key r. apply checkRateLimit_record_origin.
Qed.

(** The theorem at a store that already holds the third request of the
    window: the fourth is blocked and the store is the same afterwards. *)
Lemma blocked_request_writes_nothing_witness :
  allowed (fst (checkRateLimit Samples.fullKV 1259999 (js "user:limited")
                  (MkConfig 3 60))) = false
  /\ snd (checkRateLimit Samples.fullKV 1259999 (js "user:limited")
            (MkConfig 3 60)) = Samples.fullKV.
Proof.
  split.
  - vm_compute. reflexivity.
  - apply (blocked_request_writes_nothing Samples.fullKV 1259999
             (js "user:limited") (MkConfig 3 60)).
    vm_compute. reflexivity.
Defined.

Lemma checkRateLimit_keeps_counts_within (kv : KVNamespace) (nowMs : Z)
    (identifier : jsstring) (config : RateLimitConfig) :
  countsWithin config kv ->
  countsWithin config (snd (checkRateLimit kv nowMs identifier config)).
Proof.
  intros Hinv key r Hr.
  destruct (checkRateLimit_record_origin kv nowMs identifier config
              key r Hr) as [Hold|[_ Hnew]]; [now apply (Hinv key)|exact Hnew].
Qed.

Lemma checkRateLimit_keeps_counts_within_witness :
  countsWithin (MkConfig 3 60)
    (snd (checkRateLimit Samples.emptyKV 1200000 (js "user:limited")
            (MkConfig 3 60))).
Proof.
  apply (checkRateLimit_keeps_counts_within Samples.emptyKV 1200000
           (js "user:limited") (MkConfig 3 60)).
  intros key r Hr. cbn in Hr. rewrite lookup_empty in Hr. discriminate.
Defined.


(** The store a call leaves behind still answers. *)
Lemma checkRateLimit_stays_online (kv : KVNamespace) (nowMs : Z)
    (identifier : jsstring) (config : RateLimitConfig) :
  online kv = true ->
  online (snd (checkRateLimit kv nowMs identifier config)) = true.
Proof.
  intros Hon. rewrite checkRateLimit_online by exact Hon. cbv zeta.
  cbn [snd]. now destruct (_ <=? _).
Qed.

(** The count a run of calls starts from determines its answers: with
    [c] requests already counted in the window, call number [i] (from 0)
    reports [min (c + i + 1) (maxRequests + 1)]. *)
Lemma callsFrom_counts (identifier : jsstring) (config : RateLimitConfig)
    (W : Z) (times : list Z) :
  0 < windowSeconds config ->
  Forall (fun t => getCurrentWindow t (windowSeconds config) = W) times ->
  forall (kv : KVNamespace) (c : Z),
    online kv = true ->
    0 <= c <= maxRequests config ->
    (forall t, In t times ->
               liveCount kv t (windowSeconds config) identifier = c) ->
    forall i r,
      nth_error (callsFrom kv identifier config times) i = Some r ->
      allowed r = (c + Z.of_nat i + 1 <=? maxRequests config)
      /\ current r = Z.min (c + Z.of_nat i + 1) (maxRequests config + 1).
Proof.
  intros HW Hwin. induction Hwin as [|t ts Ht Hts IH];
    intros kv c Hon Hc Hlive i r Hnth.
  - destruct i; discriminate.
  - cbn [callsFrom] in Hnth.
    assert (Hcall := checkRateLimit_online kv t identifier config Hon).
    cbv zeta in Hcall. rewrite (Hlive t (or_introl eq_refl)) in Hcall.
    destruct i as [|i].
    + cbn [nth_error] in Hnth. injection Hnth as <-. rewrite Hcall.
      cbn [fst allowed current]. change (Z.of_nat 0) with 0.
      rewrite Z.add_0_r. split; [reflexivity|lia].
    + cbn [nth_error] in Hnth. rewrite Hcall in Hnth. cbn [snd] in Hnth.
      destruct (Z.leb_spec (c + 1) (maxRequests config)) as [Hle|Hgt].
      * (* the call was counted *)
        eapply (IH _ (c + 1)) in Hnth.
        -- destruct Hnth as [Ha Hc']. rewrite Ha, Hc'.
           split; [f_equal; lia|lia].
        -- reflexivity.
        -- lia.
        -- intros t' Ht'.
           apply liveCount_after_write; [exact HW|].
           rewrite Ht. rewrite List.Forall_forall in Hts. now apply Hts.
      * (* the call was refused: the store is unchanged *)
        assert (c = maxRequests config) by lia. subst c.
        eapply (IH kv (maxRequests config)) in Hnth.
        -- destruct Hnth as [Ha Hc']. rewrite Ha, Hc'. split; [|lia].
           transitivity false;
             [apply Z.leb_gt; lia|symmetry; apply Z.leb_gt; lia].
        -- exact Hon.
        -- lia.
        -- intros t' Ht'. apply Hlive. now right.
Qed.

(** X9.  In a run of calls for one identity whose clock readings
    fall in one window, starting with no request counted in it, call
    number [k] (from 1) is allowed exactly when [k <= maxRequests], and
    reports [current = min k (maxRequests + 1)]. *)
Theorem checkRateLimit_burst (kv : KVNamespace) (identifier : jsstring)
    (config : RateLimitConfig) (W : Z) (times : list Z) :
  online kv = true ->
  0 < windowSeconds config ->
  0 <= maxRequests config ->
  Forall (fun t => getCurrentWindow t (windowSeconds config) = W) times ->
  (forall t, In t times ->
             liveCount kv t (windowSeconds config) identifier = 0) ->
  forall i r,
    nth_error (callsFrom kv identifier config times) i = Some r ->
    allowed r = (Z.of_nat i + 1 <=? maxRequests config)
    /\ current r = Z.min (Z.of_nat i + 1) (maxRequests config + 1).
Proof.
  intros Hon HW HM Hwin Hlive i r Hnth.
  destruct (callsFrom_counts identifier config W times HW Hwin kv 0 Hon
              ltac:(lia) Hlive i r Hnth) as [Ha Hc].
  now rewrite Z.add_0_l in Ha, Hc.
Qed.

Lemma checkRateLimit_burst_witness :
  exists r,
    nth_error (callsFrom Samples.emptyKV (js "user:limited") (MkConfig 3 60)
                 [1200000; 1210000; 1220000; 1259999]) 3 = Some r
    /\ allowed r = false /\ current r = 4.
Proof.
  eexists. split; [vm_compute; reflexivity|].
  assert (Hlive : forall t, In t [1200000; 1210000; 1220000; 1259999] ->
            liveCount Samples.emptyKV t 60 (js "user:limited") = 0)
    by (intros t _; reflexivity).
  assert (Hwin : Forall (fun t => getCurrentWindow t 60 = 1200)
                   [1200000; 1210000; 1220000; 1259999])
    by (repeat constructor).
  exact (checkRateLimit_burst Samples.emptyKV (js "user:limited")
           (MkConfig 3 60) 1200 [1200000; 1210000; 1220000; 1259999]
           eq_refl eq_refl ltac:(discriminate) Hwin Hlive 3%nat _ eq_refl).
Defined.


Lemma getRateLimitKey_inj (a b : jsstring) :
  getRateLimitKey a = getRateLimitKey b -> a = b.
Proof. unfold getRateLimitKey. apply app_inv_head. Qed.

Lemma liveCount_other_key (kv : KVNamespace) (r : KVRecord)
    (other identifier : jsstring) (t W : Z) :
  other <> identifier ->
  liveCount (MkKV (<[getRateLimitKey other := r]> (records kv)) true)
    t W identifier
  = liveCount kv t W identifier.
Proof.
  intros Hne. unfold liveCount. cbn [records].
  rewrite lookup_insert_ne; [reflexivity|].
  intros E. apply Hne. now apply getRateLimitKey_inj.
Qed.

(** X10.  A call for one identity does not change what the next
    call for another identity is answered. *)
Theorem checkRateLimit_other_identity (kv : KVNamespace) (t1 t : Z)
    (id1 id2 : jsstring) (config1 config : RateLimitConfig) :
  id1 <> id2 ->
  fst (checkRateLimit (snd (checkRateLimit kv t1 id1 config1)) t id2 config)
  = fst (checkRateLimit kv t id2 config).
Proof.
  intros Hne. destruct (online kv) eqn:Hon.
  - rewrite (checkRateLimit_online kv t1 id1 config1 Hon). cbv zeta.
    cbn [snd].
    destruct (_ <=? maxRequests config1); [|reflexivity].
    rewrite checkRateLimit_online by reflexivity.
    rewrite (checkRateLimit_online kv t id2 config Hon). cbv zeta.
    cbn [fst]. now rewrite liveCount_other_key.
  - assert (E : snd (checkRateLimit kv t1 id1 config1) = kv).
    { unfold checkRateLimit, kvGet. now rewrite Hon. }
    now rewrite E.
Qed.

Lemma checkRateLimit_other_identity_witness :
  fst (checkRateLimit
         (snd (checkRateLimit Samples.fullKV 1259999 (js "user:other")
                 (MkConfig 3 60)))
         1259999 (js "user:limited") (MkConfig 3 60))
  = fst (checkRateLimit Samples.fullKV 1259999 (js "user:limited")
           (MkConfig 3 60)).
Proof.
  apply (checkRateLimit_other_identity Samples.fullKV 1259999 1259999
           (js "user:other") (js "user:limited")).
  discriminate.
Defined.

(** X11.  The identity of an authenticated caller is [user:]
    followed by the user id whatever the headers say; distinct users have
    distinct identities, and no headers give an unauthenticated caller the
    identity of a user. *)
Theorem getRateLimitIdentifier_separates (cfIp forwardedFor : option jsstring)
    (cfIp' forwardedFor' : option jsstring) (u u' : jsstring) :
  u <> [] -> u' <> [] ->
  getRateLimitIdentifier cfIp forwardedFor (Some u) = js "user:" ++ u
  /\ (u <> u' ->
      getRateLimitIdentifier cfIp forwardedFor (Some u)
      <> getRateLimitIdentifier cfIp' forwardedFor' (Some u'))
  /\ getRateLimitIdentifier cfIp' forwardedFor' None
     <> getRateLimitIdentifier cfIp forwardedFor (Some u).
Proof.
  intros Hu Hu'.
  assert (E : forall c f x, x <> [] ->
            getRateLimitIdentifier c f (Some x) = js "user:" ++ x).
  { intros c f [|a x] Hx; [contradiction|reflexivity]. }
  split; [now apply E|]. split.
  - intros Hne. rewrite !E by assumption. intros H.
    apply app_inv_head in H. contradiction.
  - rewrite E by assumption. unfold getRateLimitIdentifier.
    destruct cfIp' as [[|a ip]|].
    + destruct forwardedFor' as [[|b f]|]; try discriminate.
      destruct (trim _); discriminate.
    + discriminate.
    + destruct forwardedFor' as [[|b f]|]; try discriminate.
      destruct (trim _); discriminate.
Qed.

Lemma getRateLimitIdentifier_separates_witness :
  getRateLimitIdentifier (Some (js "203.0.113.7")) None (Some (js "alice"))
  = js "user:alice"
  /\ (js "alice" <> js "bob" ->
      getRateLimitIdentifier (Some (js "203.0.113.7")) None
        (Some (js "alice"))
      <> getRateLimitIdentifier None (Some (js "user:alice, 10.0.0.1"))
           (Some (js "bob")))
  /\ getRateLimitIdentifier None (Some (js "user:alice, 10.0.0.1")) None
     <> getRateLimitIdentifier (Some (js "203.0.113.7")) None
          (Some (js "alice")).
Proof.
  apply (getRateLimitIdentifier_separates (Some (js "203.0.113.7")) None
           None (Some (js "user:alice, 10.0.0.1")) (js "alice") (js "bob"));
    discriminate.
Defined.
End RateLimitFacts.

(** ** The MCP endpoint *)

Section EndpointFacts.
Import JsString JsValue Errors Effects Protocol Handlers Index.
Import RateLimit.
Local Open Scope Z_scope.

(** C6.  The request [{ jsonrpc: '2.0', method: 'ping' }] has no id, so
    [isNotification] holds of it; the endpoint nevertheless answers with
    status 200 and a success envelope carrying a result. *)
Theorem notification_ping_gets_result_envelope :
  (exists rpc,
      option_map parseJsonRpcRequest (jsonBody Samples.pingWithoutId)
      = Some (Ok rpc)
      /\ isNotification rpc = true)
  /\ exists r,
      fst (handleMcpRequest Samples.presentation Samples.serverConfig
             Samples.pingWithoutId None 1700000000000 Samples.world)
      = Ok r
      /\ status r = 200%Z
      /\ body r = Some (SuccessEnvelope Null EmptyObject).
Proof.
  split.
  - eexists. split; vm_compute; reflexivity.
  - eexists. repeat split; vm_compute; reflexivity.
Qed.





(** X21.  A request that parses as JSON-RPC, from a caller whose
    count in the current window has reached the limit of 100, is answered
    with status 429 and the rate-limit result ([allowed = false],
    [remaining = 0]); the world is unchanged: the counter is not written and
    neither the router nor the database client is reached. *)
Theorem rate_limited_request_gets_429 (pr : Presentation)
    (config : ServerConfig) (request : Request) (payload : value)
    (rpc : JsonRpcRequest) (auth : option AuthContext) (nowMs : Z)
    (w : World) :
  jsonBody request = Some payload ->
  parseJsonRpcRequest payload = Ok rpc ->
  online (kv w) = true ->
  100 <= liveCount (kv w) nowMs 60 (callerId request auth) ->
  exists result,
    handleMcpRequest pr config request auth nowMs w
    = (Ok (MkResponse 429 (Some (TooManyRequests result)) (Some result)), w)
    /\ allowed result = false
    /\ current result = liveCount (kv w) nowMs 60 (callerId request auth) + 1
    /\ limit result = 100
    /\ remaining result = 0.
Proof.
  intros Hbody Hparse Hon Hfull.
  unfold handleMcpRequest, tryCatch, bind, lift, checkRateLimitM.
  rewrite Hbody. unfold ret at 1. rewrite Hparse.
  fold (callerId request auth). cbv zeta.
  rewrite checkRateLimit_online by assumption. cbv zeta.
  cbn [fst snd allowed maxRequests windowSeconds DEFAULT_CONFIG].
  replace (liveCount (kv w) nowMs 60 (callerId request auth) + 1 <=? 100)
    with false by (symmetry; apply Z.leb_gt; lia).
  cbn [negb]. unfold ret. eexists. split.
  - destruct w as [store log]. reflexivity.
  - cbn [allowed current limit remaining]. repeat split. lia.
Qed.

(** The theorem at a ping of the caller of [Samples.busyWorld]. *)
Lemma rate_limited_request_gets_429_witness :
  exists result,
    handleMcpRequest Samples.presentation Samples.serverConfig
      Samples.pingWithoutId None 1700000000000 Samples.busyWorld
    = (Ok (MkResponse 429 (Some (TooManyRequests result)) (Some result)),
       Samples.busyWorld)
    /\ allowed result = false
    /\ current result
       = liveCount (kv Samples.busyWorld) 1700000000000 60
           (callerId Samples.pingWithoutId None) + 1
    /\ limit result = 100
    /\ remaining result = 0.
Proof.
  eapply (rate_limited_request_gets_429 Samples.presentation
            Samples.serverConfig Samples.pingWithoutId).
  - reflexivity.
  - vm_compute. reflexivity.
  - reflexivity.
  - vm_compute. discriminate.
Defined.

(** X22.  [handleMcpRequest] answers every request: the status
    is 200, 204 or 429, an error envelope always carries the id [null], and
    the body is absent exactly when the status is 204. *)
Theorem handleMcpRequest_always_responds (pr : Presentation)
    (config : ServerConfig) (request : Request) (auth : option AuthContext)
    (nowMs : Z) (w : World) :
  exists r w',
    handleMcpRequest pr config request auth nowMs w = (Ok r, w')
    /\ (status r = 200 \/ status r = 204 \/ status r = 429)
    /\ (forall i e, body r = Some (ErrorEnvelope i e) -> i = Null)
    /\ (status r = 204 <-> body r = None).
Proof.
  unfold handleMcpRequest, tryCatch, bind, lift, checkRateLimitM.
  destruct (jsonBody request) as [payload|].
  2:{ unfold throw, ret. eexists. eexists. split; [reflexivity|].
      cbn. repeat split; auto; try discriminate. intros i e [= <- _]. reflexivity. }
  unfold ret at 1.
  destruct (parseJsonRpcRequest payload) as [rpc|e].
  2:{ unfold ret. eexists. eexists. split; [reflexivity|].
      cbn. repeat split; auto; try discriminate. intros i e' [= <- _]. reflexivity. }
  cbv zeta.
  match goal with
  | |- context [negb (allowed ?r)] => destruct (allowed r)
  end; cbn [negb].
  2:{ unfold ret. eexists. eexists. split; [reflexivity|].
      cbn. repeat split; auto; discriminate. }
  match goal with
  | |- context [routeRequest pr rpc ?c ?w0] =>
      destruct (routeRequest_returns pr rpc c w0) as (res & w' & ->)
  end.
  destruct res as [p| |e].
  - unfold ret. eexists. eexists. split; [reflexivity|].
    cbn. repeat split; auto; discriminate.
  - destruct (isNotification rpc); unfold ret; eexists; eexists;
      (split; [reflexivity|]); cbn; repeat split; auto; discriminate.
  - unfold throw, ret. eexists. eexists. split; [reflexivity|].
    cbn. repeat split; auto; try discriminate. intros i e' [= <- _]. reflexivity.
Qed.

End EndpointFacts.

(** ** Response sanitizer *)

Section SanitizeFacts.
Import JsString JsValue Sanitize.
Local Open Scope Z_scope.

(** [sanitize] on an array, with the default options spelled out. *)
Lemma sanitize_Arr (items : list value) :
  sanitize (Arr items)
  = if isEmbeddingArray items then embeddingPlaceholder items
    else if 128 <? arrayLength items then
      Arr (List.filter defined
             (slice0 (map (sanitizeValue DEFAULT_OPTIONS 1) items) 128)
           ++ [truncationPlaceholder (arrayLength items - 128)])
    else Arr (List.filter defined
                (map (sanitizeValue DEFAULT_OPTIONS 1) items)).
Proof. reflexivity. Qed.

(** Below the depth cap and with the default options, an element is
    removed exactly when it is [null] or [undefined]. *)
Lemma sanitizeValue_defined (v : value) :
  defined (sanitizeValue DEFAULT_OPTIONS 1 v) = negb (isNullish v).
Proof.
  destruct v as [| | b | x | s | items | props]; try reflexivity.
  (* an array becomes a string or an array *)
  change (sanitizeValue DEFAULT_OPTIONS 1 (Arr items))
    with (if isEmbeddingArray items
          then Str (js "[Embedding array with " ++ ofZ (arrayLength items)
                    ++ js " dimensions - filtered]")
          else if 128 <? arrayLength items then
            Arr (List.filter defined
                   (slice0 (map (sanitizeValue DEFAULT_OPTIONS (1 + 1)) items)
                      128)
                 ++ [Str (js "...[" ++ ofZ (arrayLength items - 128)
                          ++ js " more items truncated]")])
          else Arr (List.filter defined
                      (map (sanitizeValue DEFAULT_OPTIONS (1 + 1)) items))).
  destruct (isEmbeddingArray items); [reflexivity|].
  destruct (128 <? arrayLength items); reflexivity.
Qed.

Lemma sanitizeValue_number (v : value) :
  (exists x, v = Num x) -> sanitizeValue DEFAULT_OPTIONS 1 v = v.
Proof. intros [x ->]. reflexivity. Qed.

Lemma filter_defined_length (l : list value) :
  length (List.filter defined (map (sanitizeValue DEFAULT_OPTIONS 1) l))
  = length (List.filter (fun v => negb (isNullish v)) l).
Proof.
  induction l as [|v l IH]; [reflexivity|].
  cbn [map List.filter]. rewrite sanitizeValue_defined.
  destruct (negb (isNullish v)); cbn [length]; now rewrite IH.
Qed.

Lemma filter_all {A} (f : A -> bool) (l : list A) :
  Forall (fun x => f x = true) l -> List.filter f l = l.
Proof.
  induction 1 as [|x l Hx _ IH]; [reflexivity|].
  cbn. now rewrite Hx, IH.
Qed.

Lemma slice0_map (f : value -> value) (l : list value) (n : Z) :
  slice0 (map f l) n = map f (slice0 l n).
Proof. unfold slice0, arrayLength. rewrite length_map. apply firstn_map. Qed.

Lemma slice0_nonneg (l : list value) (n : Z) :
  0 <= n -> slice0 l n = firstn (Z.to_nat n) l.
Proof.
  intros Hn. unfold slice0.
  replace (n <? 0) with false by (symmetry; apply Z.ltb_ge; lia).
  reflexivity.
Qed.

(** C8 (as amended).  For every array longer than 128 that
    [isEmbeddingArray] does not classify as an embedding, [sanitize] with
    the default options returns an array that ends with the placeholder
    stating [len - 128] truncated items; before it stand the sanitized
    forms of those of the first 128 elements that are neither [null] nor
    [undefined], so the length is 129 exactly when none of them is. *)
Theorem sanitize_truncates_long_array (A : list value) :
  128 < arrayLength A ->
  isEmbeddingArray A = false ->
  sanitize (Arr A)
  = Arr (keptItems A ++ [truncationPlaceholder (arrayLength A - 128)])
  /\ length (keptItems A)
     = length (List.filter (fun v => negb (isNullish v)) (slice0 A 128))
  /\ (Forall (fun v => isNullish v = false) (slice0 A 128) ->
      length (keptItems A ++ [truncationPlaceholder (arrayLength A - 128)])
      = 129%nat).
Proof.
  intros Hlen Hemb. unfold keptItems.
  rewrite sanitize_Arr, Hemb.
  replace (128 <? arrayLength A) with true by (symmetry; now apply Z.ltb_lt).
  rewrite slice0_map.
  split; [reflexivity|]. split; [apply filter_defined_length|].
  intros Hnonnull.
  rewrite length_app, filter_defined_length. cbn [length].
  rewrite filter_all.
  - rewrite slice0_nonneg by lia. rewrite firstn_length_le; [reflexivity|].
    unfold arrayLength in Hlen. lia.
  - revert Hnonnull. apply List.Forall_impl. intros v ->. reflexivity.
Qed.

(** The theorem at the array of the test suite: 200 strings. *)
Lemma sanitize_truncates_long_array_witness :
  sanitize (Arr (repeat (Str (js "item")) 200))
  = Arr (keptItems (repeat (Str (js "item")) 200)
         ++ [truncationPlaceholder 72])
  /\ length (keptItems (repeat (Str (js "item")) 200)) = 128%nat.
Proof.
  destruct (sanitize_truncates_long_array (repeat (Str (js "item")) 200))
    as (Hshape & Hkept & _).
  - vm_compute. reflexivity.
  - vm_compute. reflexivity.
  - split; [exact Hshape|]. rewrite Hkept. vm_compute. reflexivity.
Defined.

(** C8 (as stated) fails.  An array of 129 numbers is longer than 128, and
    [sanitize] returns a string for it, not an array of 129 elements; an
    array of 129 [null]s comes back with the placeholder alone. *)
Lemma sanitize_long_array_not_129 :
  sanitize (Arr (repeat (Num 0.5%float) 129))
  = Str (js "[Embedding array with 129 dimensions - filtered]")
  /\ sanitize (Arr (repeat Null 129))
     = Arr [Str (js "...[1 more items truncated]")].
Proof. split; vm_compute; reflexivity. Qed.

Lemma isEmbeddingArray_real_numbers (A : list value) :
  Forall (fun v => isRealNumber v = true) A ->
  64 <= arrayLength A ->
  isEmbeddingArray A = true.
Proof.
  intros Hreal Hlen. unfold isEmbeddingArray.
  replace (arrayLength A <? 64) with false by (symmetry; apply Z.ltb_ge; lia).
  rewrite Z.min_l by lia.
  rewrite filter_all.
  - rewrite slice0_nonneg by lia. rewrite firstn_length_le; [reflexivity|].
    unfold arrayLength in Hlen. lia.
  - rewrite slice0_nonneg by lia.
    rewrite <- (firstn_skipn (Z.to_nat 10) A) in Hreal.
    apply Forall_app in Hreal. tauto.
Qed.

Lemma map_sanitize_numbers (A : list value) :
  Forall (fun v => isNumber v = true) A ->
  List.filter defined (map (sanitizeValue DEFAULT_OPTIONS 1) A) = A.
Proof.
  induction 1 as [|v l Hv _ IH]; [reflexivity|].
  destruct v; try discriminate. cbn [map List.filter].
  change (defined (sanitizeValue DEFAULT_OPTIONS 1 (Num x))) with true.
  cbv iota. now rewrite IH.
Qed.

(** C9 (as amended).  An array of numbers none of which is NaN, of length
    at least 64, is replaced by the embedding placeholder naming its
    length; an array of numbers of length below 64 is returned as it is. *)
Theorem sanitize_numeric_arrays (A : list value) :
  Forall (fun v => isNumber v = true) A ->
  (64 <= arrayLength A ->
   Forall (fun v => isRealNumber v = true) A ->
   sanitize (Arr A) = embeddingPlaceholder A)
  /\ (arrayLength A < 64 -> sanitize (Arr A) = Arr A).
Proof.
  intros Hnum. split.
  - intros Hlen Hreal. rewrite sanitize_Arr.
    now rewrite isEmbeddingArray_real_numbers.
  - intros Hlen. rewrite sanitize_Arr. unfold isEmbeddingArray.
    replace (arrayLength A <? 64) with true by (symmetry; now apply Z.ltb_lt).
    replace (128 <? arrayLength A) with false
      by (symmetry; apply Z.ltb_ge; lia).
    now rewrite map_sanitize_numbers.
Qed.

(** The theorem at a vector of 64 numbers and at the three scores of the
    test suite. *)
Lemma sanitize_numeric_arrays_witness :
  sanitize (Arr (repeat (Num 0.25%float) 64))
  = embeddingPlaceholder (repeat (Num 0.25%float) 64)
  /\ sanitize (Arr [Num 85%float; Num 90%float; Num 95%float])
     = Arr [Num 85%float; Num 90%float; Num 95%float].
Proof.
  split.
  - apply (sanitize_numeric_arrays (repeat (Num 0.25%float) 64)).
    + repeat constructor.
    + vm_compute. discriminate.
    + repeat constructor.
  - apply (sanitize_numeric_arrays [Num 85%float; Num 90%float; Num 95%float]).
    + repeat constructor.
    + vm_compute. reflexivity.
Defined.

(** C9 (as stated) fails.  NaN is a number, and an array of 64 of them is
    not replaced: [isEmbeddingArray] counts only the numbers that are not
    NaN. *)
Lemma sanitize_keeps_nan_array :
  Forall (fun v => isNumber v = true) (repeat (Num nan) 64)
  /\ sanitize (Arr (repeat (Num nan) 64)) = Arr (repeat (Num nan) 64).
Proof.
  split; [repeat constructor | vm_compute; reflexivity].
Qed.


(** Induction on values, with the hypothesis available for every element
    and every property value. *)
Lemma value_nested_ind (P : value -> Prop) :
  P Undefined -> P Null -> (forall b, P (Bool b)) -> (forall x, P (Num x)) ->
  (forall s, P (Str s)) ->
  (forall items, Forall P items -> P (Arr items)) ->
  (forall props, Forall (fun kv => P (snd kv)) props -> P (Obj props)) ->
  forall v, P v.
Proof.
  intros HU HN HB HX HS HA HO.
  fix IH 1. intros [| | b | x | s | items | props].
  - exact HU.
  - exact HN.
  - apply HB.
  - apply HX.
  - apply HS.
  - apply HA. induction items as [|v items IHl]; constructor.
    + apply IH.
    + exact IHl.
  - apply HO. induction props as [|[k v] props IHl]; constructor.
    + apply IH.
    + exact IHl.
Qed.

Lemma sanitizeValue_unfold (options : SanitizeOptions) (depth : Z)
    (v : value) :
  sanitizeValue options depth v
  = if maxDepth options <? depth then Str (js "[Max depth exceeded]")
    else
      match v with
      | Undefined | Null => if removeNulls options then Undefined else v
      | Str s =>
          if (0 <? maxStringLength options)
             && (maxStringLength options <? jslength s)
          then Str (substring s 0 (maxStringLength options)
                    ++ js "...[truncated]")
          else v
      | Num _ | Bool _ => v
      | Arr items =>
          if removeEmbeddings options && isEmbeddingArray items then
            Str (js "[Embedding array with " ++ ofZ (arrayLength items)
                 ++ js " dimensions - filtered]")
          else if maxListSize options <? arrayLength items then
            Arr (List.filter defined
                   (slice0 (map (sanitizeValue options (depth + 1)) items)
                      (maxListSize options))
                 ++ [Str (js "...["
                          ++ ofZ (arrayLength items - maxListSize options)
                          ++ js " more items truncated]")])
          else
            Arr (List.filter defined
                   (map (sanitizeValue options (depth + 1)) items))
      | Obj props => Obj (sanitizeProps options depth props)
      end.
Proof. destruct v; reflexivity. Qed.


Lemma replaceProp_Forall (R : jsstring * value -> Prop) (o : object)
    (k : jsstring) (v : value) :
  Forall R o -> R (k, v) -> Forall R (replaceProp o k v).
Proof.
  intros Ho Hv. induction Ho as [|[k' v'] o Hkv Ho IH]; [constructor|].
  cbn [replaceProp]. destruct (JsString.eqb k k') eqn:E.
  - apply eqb_true_iff in E. subst k'. now constructor.
  - now constructor.
Qed.

Lemma setProp_Forall (R : jsstring * value -> Prop) (o : object)
    (k : jsstring) (v : value) :
  Forall R o -> R (k, v) -> Forall R (setProp o k v).
Proof.
  intros Ho Hv. unfold setProp.
  destruct (JsString.eqb k (js "__proto__")); [exact Ho|].
  destruct (lookupProp o k).
  - now apply replaceProp_Forall.
  - apply Forall_app. split; [exact Ho|now constructor].
Qed.

(** What holds of every property written by the loop over an object holds
    of every property of its result. *)
Lemma sanitizeProps_Forall (R : jsstring * value -> Prop)
    (options : SanitizeOptions) (depth : Z) (props : object) :
  (forall kv, In kv props ->
     removeEmbeddings options && isEmbeddingKey (fst kv) = true ->
     R (fst kv, Str (js "[Embedding property - filtered]"))) ->
  (forall kv, In kv props ->
     removeEmbeddings options && isEmbeddingKey (fst kv) = false ->
     defined (sanitizeValue options (depth + 1) (snd kv)) = true ->
     R (fst kv, sanitizeValue options (depth + 1) (snd kv))) ->
  Forall R (sanitizeProps options depth props).
Proof.
  unfold sanitizeProps.
  assert (Hacc : Forall R (@nil (jsstring * value))) by constructor.
  revert Hacc. generalize (@nil (jsstring * value)).
  induction props as [|kv props IH]; intros acc Hacc He Hs; [exact Hacc|].
  cbn [fold_left]. apply IH.
  - destruct (removeEmbeddings options && isEmbeddingKey (fst kv)) eqn:E.
    + apply setProp_Forall; [exact Hacc|]. apply He; [now left|exact E].
    + cbv zeta.
      destruct (defined (sanitizeValue options (depth + 1) (snd kv))) eqn:D;
        [|exact Hacc].
      apply setProp_Forall; [exact Hacc|]. apply Hs; [now left|exact E|exact D].
  - intros kv' Hin. apply He. now right.
  - intros kv' Hin. apply Hs. now right.
Qed.

Lemma In_firstn {A} (n : nat) (l : list A) (x : A) :
  In x (firstn n l) -> In x l.
Proof.
  intros H. rewrite <- (firstn_skipn n l). apply in_or_app. now left.
Qed.

(** The elements of a sanitized array are sanitized elements of the
    input that are not [undefined]. *)
Lemma sanitized_items (options : SanitizeOptions) (depth : Z)
    (items : list value) (n : Z) (y : value) :
  In y (List.filter defined
          (slice0 (map (sanitizeValue options depth) items) n))
  \/ In y (List.filter defined (map (sanitizeValue options depth) items)) ->
  defined y = true
  /\ exists x, In x items /\ y = sanitizeValue options depth x.
Proof.
  intros H.
  assert (Hin : In y (List.filter defined
                        (map (sanitizeValue options depth) items))).
  { destruct H as [H|H]; [|exact H].
    apply filter_In in H. destruct H as [H D]. apply filter_In. split; [|exact D].
    unfold slice0 in H. eapply In_firstn; exact H. }
  apply filter_In in Hin. destruct Hin as [Hin D]. split; [exact D|].
  apply in_map_iff in Hin. destruct Hin as (x & <- & Hx). now exists x.
Qed.

Lemma forallb_Forall {A} (f : A -> bool) (l : list A) :
  Forall (fun x => f x = true) l -> forallb f l = true.
Proof. intros H. apply forallb_forall. now apply List.Forall_forall. Qed.

Lemma length_sanitized_items (options : SanitizeOptions) (depth : Z)
    (items : list value) :
  0 <= maxListSize options ->
  (length (List.filter defined
             (slice0 (map (sanitizeValue options depth) items)
                (maxListSize options))) <= Z.to_nat (maxListSize options))%nat.
Proof.
  intros Hm.
  etransitivity; [apply filter_length_le|].
  rewrite slice0_nonneg by exact Hm. rewrite length_firstn. lia.
Qed.

(** X12.  With a non-negative [maxListSize], every array in the
    result of [sanitizeValue], at any depth, has at most [maxListSize + 1]
    elements. *)
Theorem sanitizeValue_bounds_lists (options : SanitizeOptions) (v : value)
    (depth : Z) :
  0 <= maxListSize options ->
  listsWithin (Z.to_nat (maxListSize options) + 1)
    (sanitizeValue options depth v) = true.
Proof.
  intros Hm. revert depth.
  induction v as [| | b | x | s | items IH | props IH]
    using value_nested_ind; intros depth;
    rewrite sanitizeValue_unfold;
    (destruct (maxDepth options <? depth); [reflexivity|]).
  - now destruct (removeNulls options).
  - now destruct (removeNulls options).
  - reflexivity.
  - reflexivity.
  - now destruct ((0 <? maxStringLength options)
                  && (maxStringLength options <? jslength s)).
  - destruct (removeEmbeddings options && isEmbeddingArray items);
      [reflexivity|].
    destruct (maxListSize options <? arrayLength items) eqn:Hlong.
    + cbn [listsWithin]. apply andb_true_intro. split.
      * apply Nat.leb_le. rewrite length_app. cbn [length].
        pose proof (length_sanitized_items options (depth + 1) items Hm). lia.
      * rewrite forallb_app. apply andb_true_intro. split; [|reflexivity].
        apply forallb_forall. intros y Hy.
        destruct (sanitized_items options (depth + 1) items
                    (maxListSize options) y (or_introl Hy))
          as (_ & x & Hx & ->).
        rewrite List.Forall_forall in IH. now apply IH.
    + cbn [listsWithin]. apply andb_true_intro. split.
      * apply Nat.leb_le. apply Z.ltb_ge in Hlong. unfold arrayLength in Hlong.
        pose proof (filter_length_le defined
                      (map (sanitizeValue options (depth + 1)) items)) as Hf.
        rewrite length_map in Hf. lia.
      * apply forallb_forall. intros y Hy.
        destruct (sanitized_items options (depth + 1) items 0 y
                    (or_intror Hy)) as (_ & x & Hx & ->).
        rewrite List.Forall_forall in IH. now apply IH.
  - cbn [listsWithin]. apply forallb_Forall.
    apply (sanitizeProps_Forall
             (fun kv => listsWithin (Z.to_nat (maxListSize options) + 1)
                          (snd kv) = true)).
    + reflexivity.
    + intros kv Hin _ _. cbn [snd]. rewrite List.Forall_forall in IH.
      now apply (IH kv Hin).
Qed.

Lemma sanitizeValue_bounds_lists_witness :
  listsWithin 129
    (sanitize (Arr (repeat (Arr (repeat (Str (js "x")) 200)) 3))) = true.
Proof.
  apply (sanitizeValue_bounds_lists DEFAULT_OPTIONS
           (Arr (repeat (Arr (repeat (Str (js "x")) 200)) 3)) 0).
  discriminate.
Defined.

(** With [removeNulls] set, the result is never [null]. *)
Lemma sanitizeValue_never_null (options : SanitizeOptions) (depth : Z)
    (v : value) :
  removeNulls options = true ->
  defined (sanitizeValue options depth v) = true ->
  isNullish (sanitizeValue options depth v) = false.
Proof.
  intros Hn. rewrite sanitizeValue_unfold.
  destruct (maxDepth options <? depth); [reflexivity|].
  destruct v as [| | b | x | s | items | props]; rewrite ?Hn;
    try reflexivity; try discriminate.
  - now destruct ((0 <? maxStringLength options)
                  && (maxStringLength options <? jslength s)).
  - destruct (removeEmbeddings options && isEmbeddingArray items);
      [reflexivity|].
    now destruct (maxListSize options <? arrayLength items).
Qed.

(** X13.  With [removeNulls] set, no array element and no property
    value in the result of [sanitizeValue] is [null] or [undefined]. *)
Theorem sanitizeValue_removes_nulls (options : SanitizeOptions) (v : value)
    (depth : Z) :
  removeNulls options = true ->
  nullFree (sanitizeValue options depth v) = true.
Proof.
  intros Hn. revert depth.
  induction v as [| | b | x | s | items IH | props IH]
    using value_nested_ind; intros depth;
    rewrite sanitizeValue_unfold;
    (destruct (maxDepth options <? depth); [reflexivity|]).
  - now rewrite Hn.
  - now rewrite Hn.
  - reflexivity.
  - reflexivity.
  - now destruct ((0 <? maxStringLength options)
                  && (maxStringLength options <? jslength s)).
  - rewrite List.Forall_forall in IH.
    assert (Hitems : forall n y,
      In y (List.filter defined
              (slice0 (map (sanitizeValue options (depth + 1)) items) n))
      \/ In y (List.filter defined
                 (map (sanitizeValue options (depth + 1)) items)) ->
      negb (isNullish y) && nullFree y = true).
    { intros n y Hy.
      destruct (sanitized_items options (depth + 1) items n y Hy)
        as (D & x & Hx & ->).
      rewrite sanitizeValue_never_null by assumption.
      now apply IH. }
    destruct (removeEmbeddings options && isEmbeddingArray items);
      [reflexivity|].
    destruct (maxListSize options <? arrayLength items).
    + cbn [nullFree]. rewrite forallb_app.
      apply andb_true_intro. split; [|reflexivity].
      apply forallb_forall. intros y Hy.
      apply (Hitems (maxListSize options)). now left.
    + cbn [nullFree]. apply forallb_forall. intros y Hy.
      apply (Hitems 0). now right.
  - cbn [nullFree]. apply forallb_Forall.
    apply (sanitizeProps_Forall
             (fun kv => negb (isNullish (snd kv)) && nullFree (snd kv) = true)).
    + reflexivity.
    + intros kv Hin _ D. cbn [snd].
      rewrite sanitizeValue_never_null by assumption.
      rewrite List.Forall_forall in IH. now apply (IH kv Hin).
Qed.

Lemma sanitizeValue_removes_nulls_witness :
  nullFree
    (sanitize (Obj [ (js "a", Null);
                     (js "b", Arr [Null; Str (js "x"); Obj [(js "c", Null)]]) ]))
  = true.
Proof.
  apply (sanitizeValue_removes_nulls DEFAULT_OPTIONS
           (Obj [ (js "a", Null);
                  (js "b", Arr [Null; Str (js "x"); Obj [(js "c", Null)]]) ])
           0).
  reflexivity.
Defined.

(** X14.  With [removeEmbeddings] set, every property in the
    result of [sanitizeValue] whose key [isEmbeddingKey] recognises holds
    the placeholder text, at every depth. *)
Theorem sanitizeValue_filters_embedding_keys (options : SanitizeOptions)
    (v : value) (depth : Z) :
  removeEmbeddings options = true ->
  embeddingsFiltered (sanitizeValue options depth v) = true.
Proof.
  intros He. revert depth.
  induction v as [| | b | x | s | items IH | props IH]
    using value_nested_ind; intros depth;
    rewrite sanitizeValue_unfold;
    (destruct (maxDepth options <? depth); [reflexivity|]).
  - now destruct (removeNulls options).
  - now destruct (removeNulls options).
  - reflexivity.
  - reflexivity.
  - now destruct ((0 <? maxStringLength options)
                  && (maxStringLength options <? jslength s)).
  - rewrite List.Forall_forall in IH.
    destruct (removeEmbeddings options && isEmbeddingArray items);
      [reflexivity|].
    destruct (maxListSize options <? arrayLength items).
    + cbn [embeddingsFiltered]. rewrite forallb_app.
      apply andb_true_intro. split; [|reflexivity].
      apply forallb_forall. intros y Hy.
      destruct (sanitized_items options (depth + 1) items
                  (maxListSize options) y (or_introl Hy))
        as (_ & x & Hx & ->).
      now apply IH.
    + cbn [embeddingsFiltered]. apply forallb_forall. intros y Hy.
      destruct (sanitized_items options (depth + 1) items 0 y
                  (or_intror Hy)) as (_ & x & Hx & ->).
      now apply IH.
  - cbn [embeddingsFiltered]. apply forallb_Forall.
    apply (sanitizeProps_Forall
             (fun kv => (if isEmbeddingKey (fst kv)
                         then isEmbeddingProperty (snd kv)
                         else embeddingsFiltered (snd kv)) = true)).
    + intros kv _ E. rewrite He in E. cbn [andb fst snd] in *.
      rewrite E. reflexivity.
    + intros kv Hin E _. rewrite He in E. cbn [andb fst snd] in *.
      rewrite E. rewrite List.Forall_forall in IH. now apply (IH kv Hin).
Qed.

Lemma sanitizeValue_filters_embedding_keys_witness :
  embeddingsFiltered
    (sanitize (Obj [ (js "name", Str (js "n"));
                     (js "meta", Obj [(js "textEmbedding", Arr [Num 1%float])]) ]))
  = true.
Proof.
  apply (sanitizeValue_filters_embedding_keys DEFAULT_OPTIONS
           (Obj [ (js "name", Str (js "n"));
                  (js "meta", Obj [(js "textEmbedding", Arr [Num 1%float])]) ])
           0).
  reflexivity.
Defined.

Lemma height_items_le (items : list value) (h : Z) :
  0 <= h ->
  (forall y, In y items -> height y <= h) ->
  fold_right (fun x m => Z.max (height x) m) 0 items <= h.
Proof.
  intros Hh. induction items as [|y items IH]; intros H; cbn [fold_right];
    [exact Hh|].
  apply Z.max_lub; [apply H; now left|].
  apply IH. intros z Hz. apply H. now right.
Qed.

Lemma height_props_le (props : object) (h : Z) :
  0 <= h ->
  Forall (fun kv => height (snd kv) <= h) props ->
  fold_right (fun kv m => Z.max (height (snd kv)) m) 0 props <= h.
Proof.
  intros Hh. induction 1 as [|kv props Hkv _ IH]; cbn [fold_right];
    [exact Hh|].
  now apply Z.max_lub.
Qed.

(** X15.  The result of [sanitizeValue] at depth [d] nests arrays
    and objects at most [maxDepth - d + 1] deep: what lies deeper has been
    replaced by a string. *)
Theorem sanitizeValue_bounds_depth (options : SanitizeOptions) (v : value)
    (depth : Z) :
  height (sanitizeValue options depth v)
  <= Z.max 0 (maxDepth options - depth + 1).
Proof.
  revert depth.
  induction v as [| | b | x | s | items IH | props IH]
    using value_nested_ind; intros depth;
    rewrite sanitizeValue_unfold;
    (destruct (maxDepth options <? depth) eqn:Hd; [cbn [height]; lia|]);
    apply Z.ltb_ge in Hd.
  - destruct (removeNulls options); cbn [height]; lia.
  - destruct (removeNulls options); cbn [height]; lia.
  - cbn [height]; lia.
  - cbn [height]; lia.
  - destruct ((0 <? maxStringLength options)
              && (maxStringLength options <? jslength s)); cbn [height]; lia.
  - rewrite List.Forall_forall in IH.
    assert (Hitems : forall n y,
      In y (List.filter defined
              (slice0 (map (sanitizeValue options (depth + 1)) items) n))
      \/ In y (List.filter defined
                 (map (sanitizeValue options (depth + 1)) items)) ->
      height y <= maxDepth options - depth).
    { intros n y Hy.
      destruct (sanitized_items options (depth + 1) items n y Hy)
        as (_ & x & Hx & ->).
      specialize (IH x Hx (depth + 1)). lia. }
    destruct (removeEmbeddings options && isEmbeddingArray items);
      [cbn [height]; lia|].
    destruct (maxListSize options <? arrayLength items).
    + cbn [height].
      assert (fold_right (fun x m => Z.max (height x) m) 0
                (List.filter defined
                   (slice0 (map (sanitizeValue options (depth + 1)) items)
                      (maxListSize options))
                 ++ [Str (js "...["
                          ++ ofZ (arrayLength items - maxListSize options)
                          ++ js " more items truncated]")])
              <= maxDepth options - depth); [|lia].
      apply height_items_le; [lia|]. intros y Hy.
      apply in_app_or in Hy. destruct Hy as [Hy|[<-|[]]].
      * apply (Hitems (maxListSize options)). now left.
      * cbn [height]. lia.
    + cbn [height].
      assert (fold_right (fun x m => Z.max (height x) m) 0
                (List.filter defined
                   (map (sanitizeValue options (depth + 1)) items))
              <= maxDepth options - depth); [|lia].
      apply height_items_le; [lia|]. intros y Hy.
      apply (Hitems 0). now right.
  - cbn [height].
    assert (fold_right (fun kv m => Z.max (height (snd kv)) m) 0
              (sanitizeProps options depth props)
            <= maxDepth options - depth); [|lia].
    apply height_props_le; [lia|].
    apply (sanitizeProps_Forall
             (fun kv => height (snd kv) <= maxDepth options - depth)).
    + intros kv _ _. cbn [snd height]. lia.
    + intros kv Hin _ _. cbn [snd]. rewrite List.Forall_forall in IH.
      specialize (IH kv Hin (depth + 1)). lia.
Qed.

Lemma sanitizeValue_top_defined (v : value) :
  defined (sanitizeValue DEFAULT_OPTIONS 0 v) = negb (isNullish v).
Proof.
  rewrite sanitizeValue_unfold. change (maxDepth DEFAULT_OPTIONS <? 0) with false.
  cbv iota.
  destruct v as [| | b | x | s | items | props]; try reflexivity.
  change (removeEmbeddings DEFAULT_OPTIONS) with true. cbn [andb].
  destruct (isEmbeddingArray items); [reflexivity|].
  now destruct (maxListSize DEFAULT_OPTIONS <? arrayLength items).
Qed.

(** X16.  [sanitizeNeo4jResults] drops the rows that are [null] or
    [undefined] and sanitizes every other row on its own: the list of rows
    itself is never cut or replaced, however long it is. *)
Theorem sanitizeNeo4jResults_keeps_rows (rows : list value) :
  sanitizeNeo4jResults rows
  = map (sanitizeValue DEFAULT_OPTIONS 0)
      (List.filter (fun row => negb (isNullish row)) rows).
Proof.
  unfold sanitizeNeo4jResults.
  induction rows as [|row rows IH]; [reflexivity|].
  cbn [map List.filter].
  assert (E : match row with
              | Obj obj =>
                  if hasProp obj (js "properties")
                     && typeofObject (getProp obj (js "properties"))
                  then Obj (spread (sanitizeValue DEFAULT_OPTIONS 0 row))
                  else sanitizeValue DEFAULT_OPTIONS 0 row
              | _ => sanitizeValue DEFAULT_OPTIONS 0 row
              end = sanitizeValue DEFAULT_OPTIONS 0 row).
  { destruct row as [| | b | x | s | items | props]; try reflexivity.
    destruct (hasProp props (js "properties")
              && typeofObject (getProp props (js "properties")));
      reflexivity. }
  rewrite E, sanitizeValue_top_defined.
  destruct (negb (isNullish row)); cbn [map]; now rewrite IH.
Qed.
End SanitizeFacts.

(** ** Token-budget truncation *)

(** ** Integer-valued numbers *)

Section NumberFacts.
Import JsNumber.
Local Open Scope Z_scope.

Lemma digits2_pos_iter (m k : positive) :
  digits2_pos (Pos.iter xO m k) = (digits2_pos m + k)%positive.
Proof.
  revert m. induction k as [k IH|k IH|]; intros m; cbn [Pos.iter].
  - cbn [digits2_pos]. rewrite !IH. lia.
  - rewrite !IH. lia.
  - cbn [digits2_pos]. lia.
Qed.

Lemma iter_pos_shr_1 (m k : positive) :
  SpecFloat.iter_pos shr_1 k (Build_shr_record (Zpos (Pos.iter xO m k)) false false)
  = Build_shr_record (Zpos m) false false.
Proof.
  revert m. induction k as [k IH|k IH|]; intros m;
    cbn [Pos.iter SpecFloat.iter_pos].
  - cbn [shr_1 orb]. now rewrite !IH.
  - now rewrite !IH.
  - reflexivity.
Qed.

Lemma digits2_pos_bound (c : positive) :
  Zpos c < 2 ^ Zpos (digits2_pos c).
Proof.
  induction c as [c IH|c IH|]; cbn [digits2_pos].
  - rewrite Pos2Z.inj_succ, Z.pow_succ_r by lia. lia.
  - rewrite Pos2Z.inj_succ, Z.pow_succ_r by lia. lia.
  - reflexivity.
Qed.

Lemma digits2_pos_lower (c : positive) :
  2 ^ (Zpos (digits2_pos c) - 1) <= Zpos c.
Proof.
  induction c as [c IH|c IH|]; cbn [digits2_pos].
  - rewrite Pos2Z.inj_succ.
    replace (Z.succ (Zpos (digits2_pos c)) - 1)
      with (Z.succ (Zpos (digits2_pos c) - 1)) by lia.
    rewrite Z.pow_succ_r by lia. lia.
  - rewrite Pos2Z.inj_succ.
    replace (Z.succ (Zpos (digits2_pos c)) - 1)
      with (Z.succ (Zpos (digits2_pos c) - 1)) by lia.
    rewrite Z.pow_succ_r by lia. lia.
  - reflexivity.
Qed.

Lemma digits2_pos_le53 (c : positive) :
  Zpos c < 2 ^ 53 -> Zpos (digits2_pos c) <= 53.
Proof.
  intros H. pose proof (digits2_pos_lower c) as L.
  destruct (Z_le_gt_dec (Zpos (digits2_pos c)) 53) as [|G]; [assumption|].
  assert (2 ^ 53 <= 2 ^ (Zpos (digits2_pos c) - 1))
    by (apply Z.pow_le_mono_r; lia).
  lia.
Qed.

Lemma Zpos_iter_xO (m k : positive) :
  Zpos (Pos.iter xO m k) = Zpos m * 2 ^ Zpos k.
Proof.
  revert m. induction k as [|k IH] using Pos.peano_ind; intros m.
  - cbn. lia.
  - rewrite Pos.iter_succ, Pos2Z.inj_succ, Z.pow_succ_r by lia.
    rewrite Pos2Z.inj_xO, IH. lia.
Qed.

Lemma digits2_pos_shiftl (c : positive) (j : Z) :
  0 <= j -> Zpos (digits2_pos (shiftl_pos c j)) = Zpos (digits2_pos c) + j.
Proof.
  intros Hj. destruct j as [|p|p]; cbn [shiftl_pos]; [lia| |lia].
  rewrite digits2_pos_iter. lia.
Qed.

Lemma shiftl_pos_add (c : positive) (a b : Z) :
  0 <= a -> 0 <= b -> shiftl_pos (shiftl_pos c a) b = shiftl_pos c (a + b).
Proof.
  intros Ha Hb. destruct a as [|p|p], b as [|q|q]; try lia;
    try reflexivity.
  change (Z.pos p + Z.pos q) with (Z.pos (p + q)). cbn [shiftl_pos].
  now rewrite Pos.add_comm, Pos.iter_add.
Qed.

Lemma Zpos_shiftl_pos (c : positive) (j : Z) :
  0 <= j -> Zpos (shiftl_pos c j) = Zpos c * 2 ^ j.
Proof.
  intros Hj. destruct j as [|p|p]; cbn [shiftl_pos]; [cbn; lia| |lia].
  apply Zpos_iter_xO.
Qed.

(** Rounding leaves a magnitude that fits the precision as it is:
    [c * 2^(q + r)] at exponent [-(q + r)], where [q] brings [c] to 53
    digits, is the canonical form of [c]. *)
Lemma binary_round_aux_exact (s : bool) (c : positive) (r : Z) :
  Zpos c < 2 ^ 53 -> 0 <= r ->
  let q := 53 - Zpos (digits2_pos c) in
  binary_round_aux prec emax s (Zpos (shiftl_pos c (q + r))) (- (q + r))
    loc_Exact
  = canon s c.
Proof.
  intros Hc Hr q. pose proof (digits2_pos_le53 c Hc) as Hd.
  assert (Hq : 0 <= q) by (subst q; lia).
  unfold binary_round_aux, shr_fexp.
  cbn [Zdigits2 shr_record_of_loc].
  rewrite digits2_pos_shiftl by lia.
  assert (Hfexp : fexp prec emax (Zpos (digits2_pos c) + (q + r) + - (q + r))
                  = - q).
  { unfold fexp, emin, prec, emax. subst q. lia. }
  rewrite Hfexp.
  replace (- q - - (q + r)) with r by lia.
  assert (Hshr :
    shr (Build_shr_record (Zpos (shiftl_pos c (q + r))) false false)
      (- (q + r)) r
    = (Build_shr_record (Zpos (shiftl_pos c q)) false false, - q)).
  { destruct r as [|p|p]; [| |lia].
    - cbn [shr]. now rewrite Z.add_0_r.
    - cbn [shr]. rewrite <- (shiftl_pos_add c q (Zpos p)) by lia.
      cbn [shiftl_pos]. rewrite iter_pos_shr_1. f_equal. lia. }
  rewrite Hshr. cbn [shr_m loc_of_shr_record round_nearest_even Zdigits2].
  rewrite digits2_pos_shiftl by lia.
  assert (Hfexp2 : fexp prec emax (Zpos (digits2_pos c) + q + - q) = - q).
  { unfold fexp, emin, prec, emax. subst q. lia. }
  rewrite Hfexp2. replace (- q - - q) with 0 by lia.
  cbn [shr shr_m].
  replace (- q <=? emax - prec) with true
    by (symmetry; apply Z.leb_le; unfold emax, prec; lia).
  unfold canon. subst q. f_equal. lia.
Qed.

(** The same for [binary_round], which first brings a short mantissa to
    53 digits. *)
Lemma binary_round_exact (s : bool) (c : positive) (k : Z) :
  Zpos c < 2 ^ 53 -> 0 <= k ->
  binary_round prec emax s (shiftl_pos c k) (- k) = canon s c.
Proof.
  intros Hc Hk. pose proof (digits2_pos_le53 c Hc) as Hd.
  set (q := 53 - Zpos (digits2_pos c)).
  unfold binary_round. rewrite digits2_pos_shiftl by lia.
  assert (Hfexp : fexp prec emax (Zpos (digits2_pos c) + k + - k) = - q).
  { unfold fexp, emin, prec, emax. subst q. lia. }
  rewrite Hfexp. unfold shl_align.
  destruct (Z_lt_le_dec k q) as [Hlt|Hge].
  - (* the mantissa is short: it is shifted to 53 digits *)
    destruct (- q - - k) as [|d|d] eqn:E; try lia.
    replace (Pos.iter xO (shiftl_pos c k) d)
      with (shiftl_pos c (q + 0)).
    + rewrite <- (Z.add_0_r q) at 2.
      apply (binary_round_aux_exact s c 0 Hc). lia.
    + rewrite Z.add_0_r. replace q with (k + Zpos d) by lia.
      rewrite <- (shiftl_pos_add c k (Zpos d)) by lia. reflexivity.
  - destruct (- q - - k) as [|d|d] eqn:E; try lia.
    + replace k with (q + 0) by lia.
      apply (binary_round_aux_exact s c 0 Hc). lia.
    + replace k with (q + (k - q)) by lia.
      apply (binary_round_aux_exact s c (k - q) Hc). lia.
Qed.

Lemma binary_normalize_exact (c k : Z) :
  Z.abs c < 2 ^ 53 -> 0 <= k ->
  binary_normalize prec emax (c * 2 ^ k) (- k) false = canonZ c.
Proof.
  intros Hc Hk. destruct c as [|c|c].
  - reflexivity.
  - rewrite <- Zpos_shiftl_pos by exact Hk. cbn [binary_normalize canonZ].
    apply binary_round_exact; [exact Hc|exact Hk].
  - change (Z.neg c) with (- Z.pos c). rewrite Z.mul_opp_l.
    rewrite <- Zpos_shiftl_pos by exact Hk.
    cbn [Z.opp binary_normalize canonZ].
    apply binary_round_exact; [exact Hc|exact Hk].
Qed.

Lemma canon_valid (s : bool) (c : positive) :
  Zpos c < 2 ^ 53 -> valid_binary (canon s c) = true.
Proof.
  intros Hc. pose proof (digits2_pos_le53 c Hc) as Hd.
  unfold canon. cbn [SpecFloat.valid_binary]. unfold bounded, canonical_mantissa.
  rewrite digits2_pos_shiftl by lia.
  apply andb_true_intro. split.
  - apply Z.eqb_eq. unfold fexp, emin, prec, emax. lia.
  - apply Z.leb_le. unfold emax, prec. lia.
Qed.

Lemma canonZ_valid (z : Z) :
  Z.abs z < 2 ^ 53 -> valid_binary (canonZ z) = true.
Proof.
  destruct z as [|c|c]; intros Hz; [reflexivity| |]; now apply canon_valid.
Qed.

(** An integer below 2^53 in magnitude is a binary64 number. *)
Lemma Prim2SF_ofInt (z : Z) :
  Z.abs z < 2 ^ 53 -> Prim2SF (ofInt z) = canonZ z.
Proof.
  intros Hz. unfold ofInt.
  assert (E : binary_normalize prec emax z 0 false = canonZ z).
  { rewrite <- (Z.mul_1_r z) at 1. change 1 with (2 ^ 0) at 1.
    change 0 with (- 0) at 2. apply binary_normalize_exact; [exact Hz|lia]. }
  rewrite E. apply Prim2SF_SF2Prim. now apply canonZ_valid.
Qed.

(** The value of a canonical form, aligned at exponent [-k]. *)
Lemma shl_align_canon (c : positive) (k : Z) :
  Zpos c < 2 ^ 53 ->
  53 - Zpos (digits2_pos c) <= k ->
  fst (shl_align (shiftl_pos c (53 - Zpos (digits2_pos c)))
         (Zpos (digits2_pos c) - 53) (- k))
  = shiftl_pos c k.
Proof.
  intros Hc Hk. pose proof (digits2_pos_le53 c Hc) as Hd.
  unfold shl_align.
  destruct (- k - (Zpos (digits2_pos c) - 53)) as [|d|d] eqn:E; cbn [fst].
  - f_equal. lia.
  - lia.
  - replace k with (53 - Zpos (digits2_pos c) + Zpos d) by lia.
    rewrite <- shiftl_pos_add by lia. reflexivity.
Qed.

Lemma cond_Zopp_shiftl (s : bool) (c : positive) (k : Z) :
  0 <= k ->
  cond_Zopp s (Zpos (shiftl_pos c k)) = cond_Zopp s (Zpos c) * 2 ^ k.
Proof.
  intros Hk. rewrite Zpos_shiftl_pos by exact Hk.
  destruct s; cbn [cond_Zopp]; lia.
Qed.

Lemma canonZ_cases (z : Z) :
  z = 0 /\ canonZ z = S754_zero false
  \/ exists s c, z = cond_Zopp s (Zpos c) /\ canonZ z = canon s c.
Proof.
  destruct z as [|c|c]; [now left| |]; right.
  - now exists false, c.
  - now exists true, c.
Qed.

(** Subtraction is exact on integers when the difference is below 2^53
    in magnitude. *)
Lemma SF64sub_canonZ (a b : Z) :
  Z.abs a < 2 ^ 53 -> Z.abs b < 2 ^ 53 -> Z.abs (a - b) < 2 ^ 53 ->
  SF64sub (canonZ a) (canonZ b) = canonZ (a - b).
Proof.
  intros Ha Hb Hab.
  destruct (canonZ_cases a) as [[-> Ea]|(sa & ca & Eza & Ea)];
    destruct (canonZ_cases b) as [[-> Eb]|(sb & cb & Ezb & Eb)];
    rewrite ?Ea, ?Eb.
  - reflexivity.
  - (* 0 - b *)
    unfold canon, SF64sub, SFsub. rewrite Z.sub_0_l, Ezb.
    destruct sb; reflexivity.
  - (* a - 0 *)
    rewrite Z.sub_0_r, Ea. reflexivity.
  - assert (Hca : Zpos ca < 2 ^ 53) by (destruct sa; cbn in Eza; lia).
    assert (Hcb : Zpos cb < 2 ^ 53) by (destruct sb; cbn in Ezb; lia).
    pose proof (digits2_pos_le53 ca Hca) as Hda.
    pose proof (digits2_pos_le53 cb Hcb) as Hdb.
    unfold canon at 1 2. unfold SF64sub, SFsub.
    set (ez := Z.min (Zpos (digits2_pos ca) - 53) (Zpos (digits2_pos cb) - 53)).
    replace ez with (- - ez) by lia.
    rewrite !shl_align_canon by (try assumption; lia).
    rewrite !cond_Zopp_shiftl by lia.
    rewrite <- Z.mul_sub_distr_r, <- Eza, <- Ezb.
    apply binary_normalize_exact; [exact Hab|lia].
Qed.

(** Multiplication by 4 is exact on integers when the product is below
    2^53 in magnitude. *)
Lemma SF64mul_canonZ_4 (c : Z) :
  Z.abs c < 2 ^ 51 ->
  SF64mul (canonZ c) (canonZ 4) = canonZ (4 * c).
Proof.
  intros Hc.
  destruct (canonZ_cases c) as [[-> E]|(s & p & Ez & E)]; rewrite E.
  - reflexivity.
  - assert (Hp : Zpos p < 2 ^ 51) by (destruct s; cbn in Ez; lia).
    assert (Hp4 : Zpos p~0~0 < 2 ^ 53) by lia.
    assert (E4 : canonZ (4 * c) = canon s p~0~0).
    { rewrite Ez. destruct s; reflexivity. }
    rewrite E4.
    pose proof (digits2_pos_le53 (p~0~0) Hp4) as Hd. cbn [digits2_pos] in Hd.
    rewrite !Pos2Z.inj_succ in Hd.
    change (canonZ 4) with (S754_finite false (shiftl_pos 4 50) (- 50)).
    unfold canon at 1. unfold SF64mul, SFmul. rewrite xorb_false_r.
    set (q' := 53 - Zpos (digits2_pos p~0~0)).
    assert (Hq' : q' = 53 - Zpos (digits2_pos p) - 2)
      by (subst q'; cbn [digits2_pos]; lia).
    replace (Zpos (digits2_pos p) - 53 + - 50) with (- (q' + 52)) by lia.
    replace (shiftl_pos p (53 - Zpos (digits2_pos p)) * shiftl_pos 4 50)%positive
      with (shiftl_pos p~0~0 (q' + 52)).
    + apply (binary_round_aux_exact s p~0~0 52 Hp4). lia.
    + apply Pos2Z.inj. rewrite Pos2Z.inj_mul, !Zpos_shiftl_pos by lia.
      rewrite Hq'.
      replace (53 - Zpos (digits2_pos p) - 2 + 52)
        with (53 - Zpos (digits2_pos p) + 50) by lia.
      rewrite Z.pow_add_r by lia. lia.
Qed.

Lemma digits2_pos_lt (a b : positive) :
  Zpos (digits2_pos a) < Zpos (digits2_pos b) -> Zpos a < Zpos b.
Proof.
  intros H. pose proof (digits2_pos_bound a). pose proof (digits2_pos_lower b).
  assert (2 ^ Zpos (digits2_pos a) <= 2 ^ (Zpos (digits2_pos b) - 1))
    by (apply Z.pow_le_mono_r; lia).
  lia.
Qed.

(** Magnitudes compare as their canonical forms do. *)
Lemma compare_canon (a b : positive) :
  Zpos a < 2 ^ 53 -> Zpos b < 2 ^ 53 ->
  match Zpos (digits2_pos a) - 53 ?= Zpos (digits2_pos b) - 53 with
  | Lt => Lt
  | Gt => Gt
  | Eq => Pos.compare_cont Eq
            (shiftl_pos a (53 - Zpos (digits2_pos a)))
            (shiftl_pos b (53 - Zpos (digits2_pos b)))
  end = (Zpos a ?= Zpos b).
Proof.
  intros Ha Hb. pose proof (digits2_pos_le53 a Ha). pose proof (digits2_pos_le53 b Hb).
  destruct (Z.compare_spec (Zpos (digits2_pos a) - 53)
              (Zpos (digits2_pos b) - 53)) as [E|L|G].
  - assert (Ed : Zpos (digits2_pos a) = Zpos (digits2_pos b)) by lia.
    rewrite <- Ed.
    change (Pos.compare_cont Eq ?x ?y) with (Z.pos x ?= Z.pos y).
    rewrite !Zpos_shiftl_pos by lia.
    symmetry. apply Zmult_compare_compat_r.
    apply Z.lt_gt, Z.pow_pos_nonneg; lia.
  - symmetry. apply Z.compare_lt_iff. apply digits2_pos_lt. lia.
  - symmetry. apply Z.compare_gt_iff. apply digits2_pos_lt. lia.
Qed.

Lemma SFcompare_canonZ (a b : Z) :
  Z.abs a < 2 ^ 53 -> Z.abs b < 2 ^ 53 ->
  SFcompare (canonZ a) (canonZ b) = Some (a ?= b).
Proof.
  intros Ha Hb.
  destruct a as [|a|a], b as [|b|b]; try reflexivity;
    cbn [canonZ]; unfold canon; cbn [SFcompare]; f_equal.
  - now apply compare_canon.
  - pose proof (compare_canon a b Ha Hb) as H.
    change (Z.neg a ?= Z.neg b) with (CompOpp (Z.pos a ?= Z.pos b)).
    rewrite <- H.
    destruct (Zpos (digits2_pos a) - 53 ?= Zpos (digits2_pos b) - 53);
      reflexivity.
Qed.

(** Comparison, subtraction and multiplication by 4 of integer-valued
    numbers. *)
Lemma ofInt_leb (a b : Z) :
  Z.abs a < 2 ^ 53 -> Z.abs b < 2 ^ 53 ->
  (ofInt a <=? ofInt b)%float = (a <=? b).
Proof.
  intros Ha Hb. rewrite leb_spec, !Prim2SF_ofInt by assumption.
  unfold SFleb. rewrite SFcompare_canonZ by assumption.
  unfold Z.leb. now destruct (a ?= b).
Qed.

Lemma ofInt_ltb (a b : Z) :
  Z.abs a < 2 ^ 53 -> Z.abs b < 2 ^ 53 ->
  (ofInt a <? ofInt b)%float = (a <? b).
Proof.
  intros Ha Hb. rewrite ltb_spec, !Prim2SF_ofInt by assumption.
  unfold SFltb. rewrite SFcompare_canonZ by assumption.
  unfold Z.ltb. now destruct (a ?= b).
Qed.

Lemma ofInt_sub (a b : Z) :
  Z.abs a < 2 ^ 53 -> Z.abs b < 2 ^ 53 -> Z.abs (a - b) < 2 ^ 53 ->
  (ofInt a - ofInt b)%float = ofInt (a - b).
Proof.
  intros Ha Hb Hab. apply Prim2SF_inj.
  rewrite sub_spec, !Prim2SF_ofInt by assumption.
  now apply SF64sub_canonZ.
Qed.

Lemma ofInt_mul_4 (c : Z) :
  Z.abs c < 2 ^ 51 -> (ofInt c * ofInt 4)%float = ofInt (4 * c).
Proof.
  intros Hc. apply Prim2SF_inj.
  rewrite mul_spec, !Prim2SF_ofInt by lia.
  now apply SF64mul_canonZ_4.
Qed.

Lemma ToIntegerOrInfinity_ofInt (z : Z) :
  Z.abs z < 2 ^ 53 -> ToIntegerOrInfinity (ofInt z) = Integer z.
Proof.
  intros Hz. unfold ToIntegerOrInfinity. rewrite Prim2SF_ofInt by exact Hz.
  destruct (canonZ_cases z) as [[-> E]|(s & c & Ez & E)]; rewrite E;
    [reflexivity|].
  assert (Hc : Zpos c < 2 ^ 53) by (destruct s; cbn in Ez; lia).
  pose proof (digits2_pos_le53 c Hc) as Hd.
  unfold canon. f_equal. rewrite Ez. f_equal. unfold integralPart.
  destruct (Zpos (digits2_pos c) - 53) as [|e|e] eqn:E53; [|lia|].
  - replace (53 - Zpos (digits2_pos c)) with 0 by lia. reflexivity.
  - rewrite Zpos_shiftl_pos by lia.
    replace (53 - Zpos (digits2_pos c)) with (Zpos e) by lia.
    apply Z.div_mul. apply Z.pow_nonzero; lia.
Qed.

Lemma ofInt_not_nan (z : Z) :
  Z.abs z < 2 ^ 53 -> Prim2SF (ofInt z) <> S754_nan.
Proof.
  intros Hz. rewrite Prim2SF_ofInt by exact Hz.
  destruct z; cbn [canonZ]; unfold canon; discriminate.
Qed.

End NumberFacts.

(** ** Token budget *)

Section TokensFacts.
Import JsString JsNumber Tokens.
Local Open Scope Z_scope.

Lemma lastIndexOf_from_range (s : jsstring) (ch : N) (start i acc : Z) :
  lastIndexOf_from s ch start i acc = acc
  \/ i <= lastIndexOf_from s ch start i acc <= start.
Proof.
  revert i acc. induction s as [|c s IH]; intros i acc; [now left|].
  cbn [lastIndexOf_from].
  destruct ((c =? ch)%N && (i <=? start)) eqn:E.
  - apply andb_prop in E. destruct E as [_ E]. apply Z.leb_le in E.
    destruct (IH (i + 1) i) as [->|H]; right; lia.
  - destruct (IH (i + 1) acc) as [->|H]; [now left|right; lia].
Qed.

(** [lastIndexOf] never passes the position it is given (0 for a negative
    one). *)
Lemma lastIndexOf_le (s : jsstring) (ch : N) (position : Z) :
  lastIndexOf s ch position <= Z.max position 0.
Proof.
  unfold lastIndexOf.
  destruct (lastIndexOf_from_range s ch (Z.max position 0) 0 (-1)) as [->|H];
    lia.
Qed.

Lemma substring_nonpositive (s : jsstring) (n : Z) :
  n <= 0 -> substring s 0 n = [].
Proof.
  intros Hn. unfold substring, jslength.
  match goal with
  | |- firstn ?k _ = _ => replace k with 0%nat by lia
  end.
  reflexivity.
Qed.

Lemma substring_length (s : jsstring) (n : Z) :
  jslength (substring s 0 n) <= Z.max n 0.
Proof.
  unfold substring, jslength. rewrite length_firstn. lia.
Qed.

Lemma ceilDiv_le (a b c : Z) : 0 < c -> a <= b * c -> ceilDiv a c <= b.
Proof.
  intros Hc Hab. unfold ceilDiv.
  assert (- b <= (- a) / c) by (apply Z.div_le_lower_bound; lia).
  lia.
Qed.

Lemma ceilDiv_mul_ge (a c : Z) : 0 < c -> a <= ceilDiv a c * c.
Proof.
  intros Hc. unfold ceilDiv.
  pose proof (Z.mul_div_le (- a) c Hc). lia.
Qed.

Lemma estimateTokens_le (text : jsstring) (c b : Z) :
  0 < c -> 0 <= b -> jslength text <= b * c -> estimateTokens text c <= b.
Proof.
  intros Hc Hb Hlen. destruct text as [|x text]; [exact Hb|].
  now apply ceilDiv_le.
Qed.

Lemma estimateTokens_covers (text : jsstring) (c : Z) :
  0 < c -> 0 <= estimateTokens text c
           /\ jslength text <= estimateTokens text c * c.
Proof.
  intros Hc. destruct text as [|x text]; [split; reflexivity|].
  cbn [estimateTokens]. split; [|now apply ceilDiv_mul_ge].
  unfold ceilDiv, jslength.
  assert ((- Z.of_nat (length (x :: text))) / c <= 0); [|lia].
  apply Z.div_le_upper_bound; lia.
Qed.

Lemma truncateToTokens_text (text : jsstring) (options : TokenOptions) :
  Tokens.text (truncateToTokens text options)
  = if (ofInt (estimateTokens text (charsPerToken options))
        <=? maxTokens options)%float
    then text
    else substring text 0 (cutPoint text (maxCharsOf options))
         ++ truncationSuffix options.
Proof.
  unfold truncateToTokens.
  destruct (ofInt (estimateTokens text (charsPerToken options))
            <=? maxTokens options)%float; reflexivity.
Qed.

Lemma cutPoint_le (text : jsstring) (maxChars : number) :
  cutPoint text maxChars
  <= Z.max (Z.max (searchPosition text maxChars) (endPosition text maxChars)) 0.
Proof.
  unfold cutPoint.
  pose proof (lastIndexOf_le text 10%N (searchPosition text maxChars)).
  pose proof (lastIndexOf_le text 32%N (searchPosition text maxChars)).
  destruct ((maxChars - ofInt 100
             <? ofInt (lastIndexOf text 10%N (searchPosition text maxChars)))%float
            && (0 <? lastIndexOf text 10%N (searchPosition text maxChars)));
    [lia|].
  destruct ((maxChars - ofInt 50
             <? ofInt (lastIndexOf text 32%N (searchPosition text maxChars)))%float
            && (0 <? lastIndexOf text 32%N (searchPosition text maxChars)));
    lia.
Qed.

(** With an integer budget the room left beside the default suffix is an
    integer too. *)
Lemma maxCharsOf_integer (b : Z) :
  Z.abs b <= 2 ^ 50 ->
  maxCharsOf (withMaxTokens (ofInt b)) = ofInt (4 * (b - 11)).
Proof.
  intros Hb. unfold maxCharsOf.
  cbn [maxTokens charsPerToken truncationSuffix withMaxTokens].
  change (estimateTokens defaultSuffix 4) with 11.
  rewrite ofInt_sub by (cbn; lia).
  apply ofInt_mul_4. cbn. lia.
Qed.

Lemma searchPosition_ofInt (text : jsstring) (m : Z) :
  Z.abs m < 2 ^ 53 -> searchPosition text (ofInt m) = m.
Proof.
  intros Hm. unfold searchPosition.
  rewrite ToIntegerOrInfinity_ofInt by exact Hm.
  pose proof (ofInt_not_nan m Hm).
  destruct (Prim2SF (ofInt m)); try reflexivity. contradiction.
Qed.

Lemma endPosition_ofInt (text : jsstring) (m : Z) :
  Z.abs m < 2 ^ 53 -> endPosition text (ofInt m) = m.
Proof.
  intros Hm. unfold endPosition.
  now rewrite ToIntegerOrInfinity_ofInt by exact Hm.
Qed.

Lemma cutPoint_integer (text : jsstring) (m : Z) :
  Z.abs m < 2 ^ 53 -> cutPoint text (ofInt m) <= Z.max m 0.
Proof.
  intros Hm. pose proof (cutPoint_le text (ofInt m)) as H.
  rewrite searchPosition_ofInt, endPosition_ofInt in H by exact Hm. lia.
Qed.

Lemma estimateTokens_bound (text : jsstring) :
  jslength text < 2 ^ 53 -> 0 <= estimateTokens text 4 < 2 ^ 53.
Proof.
  intros Hlen.
  destruct (estimateTokens_covers text 4 ltac:(lia)) as [H0 _].
  split; [exact H0|].
  assert (estimateTokens text 4 <= jslength text); [|lia].
  apply estimateTokens_le; [lia| |].
  - unfold jslength. lia.
  - unfold jslength. lia.
Qed.

Lemma lastIndexOf_ge (s : jsstring) (ch : N) (position : Z) :
  -1 <= lastIndexOf s ch position.
Proof.
  unfold lastIndexOf.
  destruct (lastIndexOf_from_range s ch (Z.max position 0) 0 (-1)) as [->|H];
    lia.
Qed.

(** With an integer room [m], the cut position is chosen by integer
    comparisons. *)
Lemma cutPoint_integer_eq (text : jsstring) (m : Z) :
  Z.abs m < 2 ^ 52 ->
  cutPoint text (ofInt m)
  = if (m - 100 <? lastIndexOf text 10%N m) && (0 <? lastIndexOf text 10%N m)
    then lastIndexOf text 10%N m
    else if (m - 50 <? lastIndexOf text 32%N m)
            && (0 <? lastIndexOf text 32%N m)
         then lastIndexOf text 32%N m
         else m.
Proof.
  intros Hm. unfold cutPoint.
  rewrite searchPosition_ofInt, endPosition_ofInt by lia.
  pose proof (lastIndexOf_le text 10%N m). pose proof (lastIndexOf_ge text 10%N m).
  pose proof (lastIndexOf_le text 32%N m). pose proof (lastIndexOf_ge text 32%N m).
  rewrite !ofInt_sub by (cbn; lia).
  rewrite !ofInt_ltb by lia. reflexivity.
Qed.

Lemma cutPoint_integer_gt (text : jsstring) (m : Z) :
  Z.abs m < 2 ^ 52 -> m - 100 < cutPoint text (ofInt m).
Proof.
  intros Hm. rewrite cutPoint_integer_eq by exact Hm.
  destruct ((m - 100 <? lastIndexOf text 10%N m)
            && (0 <? lastIndexOf text 10%N m)) eqn:E1.
  - apply andb_prop in E1. destruct E1 as [E1 _]. now apply Z.ltb_lt in E1.
  - destruct ((m - 50 <? lastIndexOf text 32%N m)
              && (0 <? lastIndexOf text 32%N m)) eqn:E2.
    + apply andb_prop in E2. destruct E2 as [E2 _]. apply Z.ltb_lt in E2. lia.
    + lia.
Qed.

Lemma cutPoint_integer_nonneg (text : jsstring) (m : Z) :
  Z.abs m < 2 ^ 52 -> 0 <= m -> 0 <= cutPoint text (ofInt m).
Proof.
  intros Hm Hpos. rewrite cutPoint_integer_eq by exact Hm.
  destruct ((m - 100 <? lastIndexOf text 10%N m)
            && (0 <? lastIndexOf text 10%N m)) eqn:E1.
  - apply andb_prop in E1. destruct E1 as [_ E1]. apply Z.ltb_lt in E1. lia.
  - destruct ((m - 50 <? lastIndexOf text 32%N m)
              && (0 <? lastIndexOf text 32%N m)) eqn:E2.
    + apply andb_prop in E2. destruct E2 as [_ E2]. apply Z.ltb_lt in E2. lia.
    + lia.
Qed.

(** The text returned for an integer budget, with the tests carried out
    on integers. *)
Lemma truncateToTokens_text_integer (X : jsstring) (b : Z) :
  jslength X < 2 ^ 53 -> Z.abs b <= 2 ^ 50 ->
  Tokens.text (truncateToTokens X (withMaxTokens (ofInt b)))
  = if estimateTokens X 4 <=? b then X
    else substring X 0 (cutPoint X (ofInt (4 * (b - 11)))) ++ defaultSuffix.
Proof.
  intros Hlen Hb. rewrite truncateToTokens_text.
  cbn [charsPerToken maxTokens truncationSuffix withMaxTokens].
  pose proof (estimateTokens_bound X Hlen).
  rewrite ofInt_leb by lia. now rewrite maxCharsOf_integer by exact Hb.
Qed.

(** What [truncateToTokens] returns for an integer budget is short enough
    to be a string. *)
Lemma truncated_length (X : jsstring) (b : Z) :
  jslength X < 2 ^ 53 -> Z.abs b <= 2 ^ 50 ->
  jslength (Tokens.text (truncateToTokens X (withMaxTokens (ofInt b))))
  < 2 ^ 53
  /\ ((estimateTokens X 4 <=? b) = false ->
      jslength (Tokens.text (truncateToTokens X (withMaxTokens (ofInt b))))
      <= Z.max (4 * (b - 11)) 0 + 44).
Proof.
  intros Hlen Hb. rewrite truncateToTokens_text_integer by assumption.
  destruct (estimateTokens X 4 <=? b); [split; [exact Hlen|discriminate]|].
  pose proof (substring_length X (cutPoint X (ofInt (4 * (b - 11))))) as Hsub.
  pose proof (cutPoint_integer X (4 * (b - 11)) ltac:(lia)) as Hcut.
  assert (jslength (substring X 0 (cutPoint X (ofInt (4 * (b - 11))))
                    ++ defaultSuffix)
          <= Z.max (4 * (b - 11)) 0 + 44).
  { unfold jslength in *. rewrite length_app, Nat2Z.inj_add.
    change (Z.of_nat (length defaultSuffix)) with 44. lia. }
  split; [lia|intros _; assumption].
Qed.

(** C7 (as amended).  For every string [X] and every integer token budget
    [B] of magnitude at most 2^50, truncating the output of
    [truncateToTokens(X, { maxTokens: B })] again with the same budget
    returns that output unchanged. *)
Theorem truncateToTokens_idempotent (X : jsstring) (b : Z) :
  jslength X < 2 ^ 53 -> Z.abs b <= 2 ^ 50 ->
  Tokens.text
    (truncateToTokens
       (Tokens.text (truncateToTokens X (withMaxTokens (ofInt b))))
       (withMaxTokens (ofInt b)))
  = Tokens.text (truncateToTokens X (withMaxTokens (ofInt b))).
Proof.
  intros Hlen Hb.
  destruct (truncated_length X b Hlen Hb) as [HlenY HlenY'].
  rewrite (truncateToTokens_text_integer _ b HlenY Hb).
  rewrite (truncateToTokens_text_integer X b Hlen Hb) in *.
  destruct (estimateTokens X 4 <=? b) eqn:Hfits.
  - (* nothing was cut *)
    now rewrite Hfits.
  - (* the text was cut *)
    specialize (HlenY' eq_refl).
    destruct (Z_lt_le_dec b 11) as [Hsmall|Hroom].
    + (* no room beside the suffix: the result is the suffix alone *)
      pose proof (cutPoint_integer X (4 * (b - 11)) ltac:(lia)).
      rewrite (substring_nonpositive X) by lia. cbn [app].
      replace (estimateTokens defaultSuffix 4 <=? b) with false
        by (symmetry; apply Z.leb_gt; change (estimateTokens defaultSuffix 4)
              with 11; lia).
      pose proof (cutPoint_integer defaultSuffix (4 * (b - 11)) ltac:(lia)).
      now rewrite substring_nonpositive by lia.
    + (* the result fits the budget and is returned as it is *)
      match goal with
      | |- (if ?t <=? _ then _ else _) = _ => assert (Hfit : t <= b)
      end.
      { apply estimateTokens_le; lia. }
      apply Z.leb_le in Hfit. now rewrite Hfit.
Qed.

Lemma truncateToTokens_idempotent_witness :
  Tokens.text
    (truncateToTokens
       (Tokens.text (truncateToTokens (repeat 65%N 200)
                        (withMaxTokens (ofInt 20))))
       (withMaxTokens (ofInt 20)))
  = Tokens.text (truncateToTokens (repeat 65%N 200)
                    (withMaxTokens (ofInt 20))).
Proof.
  apply (truncateToTokens_idempotent (repeat 65%N 200) 20).
  - reflexivity.
  - discriminate.
Defined.

(** C7 (as stated) fails.  The budget is a number, not only an integer:
    with the budget 11.75 and the text "A B" followed by 200 letters, the
    first pass keeps "A" and appends the suffix, and the second pass cuts
    that result again, at the first line break of the suffix. *)
Lemma truncateToTokens_fractional_budget :
  Tokens.text (truncateToTokens spacedText (withMaxTokens 11.75%float))
  = js "A" ++ defaultSuffix
  /\ Tokens.text
       (truncateToTokens
          (Tokens.text (truncateToTokens spacedText
                           (withMaxTokens 11.75%float)))
          (withMaxTokens 11.75%float))
     = js "A" ++ ([10%N] ++ defaultSuffix).
Proof. split; vm_compute; reflexivity. Qed.

Lemma substring_prefix (s : jsstring) (n : Z) :
  substring s 0 n = firstn (Z.to_nat n) s.
Proof.
  unfold substring, jslength. cbv zeta.
  match goal with
  | |- firstn _ (skipn ?k _) = _ => replace k with 0%nat by lia
  end.
  change (skipn 0 s) with s.
  destruct (Z_le_gt_dec n (Z.of_nat (length s))) as [Hle|Hgt].
  - f_equal. lia.
  - rewrite !firstn_all2 by lia. reflexivity.
Qed.

(** With an integer budget that covers the suffix, what is returned fits
    the budget. *)
Lemma truncateToTokens_fits (X : jsstring) (b : Z) :
  jslength X < 2 ^ 53 -> 11 <= b <= 2 ^ 50 ->
  estimateTokens (Tokens.text (truncateToTokens X (withMaxTokens (ofInt b)))) 4
  <= b.
Proof.
  intros Hlen Hb.
  destruct (truncated_length X b Hlen ltac:(lia)) as [_ HY].
  rewrite truncateToTokens_text_integer in * by (try assumption; lia).
  destruct (estimateTokens X 4 <=? b) eqn:E; [now apply Z.leb_le|].
  specialize (HY eq_refl). apply estimateTokens_le; lia.
Qed.

(** X5.  For every string and every integer budget [B] with
    [11 <= B <= 2^50], the text that [truncateToTokens] returns is
    estimated at no more than [B] tokens, and [finalTokens] is that
    estimate. *)
Theorem truncateToTokens_within_budget (X : jsstring) (b : Z) :
  jslength X < 2 ^ 53 -> 11 <= b <= 2 ^ 50 ->
  let r := truncateToTokens X (withMaxTokens (ofInt b)) in
  finalTokens r = estimateTokens (Tokens.text r) 4 /\ finalTokens r <= b.
Proof.
  intros Hlen Hb r.
  assert (Hfinal : finalTokens r = estimateTokens (Tokens.text r) 4).
  { subst r. unfold truncateToTokens. now destruct (_ <=? _)%float. }
  split; [exact Hfinal|]. rewrite Hfinal.
  now apply truncateToTokens_fits.
Qed.

Lemma truncateToTokens_within_budget_witness :
  let r := truncateToTokens (repeat 65%N 200) (withMaxTokens (ofInt 20)) in
  finalTokens r = estimateTokens (Tokens.text r) 4 /\ finalTokens r <= 20.
Proof.
  apply (truncateToTokens_within_budget (repeat 65%N 200) 20).
  - reflexivity.
  - split; discriminate.
Defined.

(** X4.  For every string and every integer budget [B] with
    [11 <= B <= 2^50], truncating the text returned by
    [truncateToTokens(X, { maxTokens: B })] again with the same budget
    reports [truncated = false]. *)
Theorem truncateToTokens_second_pass_untouched (X : jsstring) (b : Z) :
  jslength X < 2 ^ 53 -> 11 <= b <= 2 ^ 50 ->
  truncated
    (truncateToTokens
       (Tokens.text (truncateToTokens X (withMaxTokens (ofInt b))))
       (withMaxTokens (ofInt b)))
  = false.
Proof.
  intros Hlen Hb.
  pose proof (truncateToTokens_fits X b Hlen Hb) as Hfit.
  destruct (truncated_length X b Hlen ltac:(lia)) as [HlenY _].
  unfold truncateToTokens at 1.
  cbn [charsPerToken maxTokens withMaxTokens].
  pose proof (estimateTokens_bound _ HlenY).
  rewrite ofInt_leb by lia. apply Z.leb_le in Hfit. now rewrite Hfit.
Qed.

Lemma truncateToTokens_second_pass_untouched_witness :
  truncated
    (truncateToTokens
       (Tokens.text (truncateToTokens (repeat 65%N 200)
                        (withMaxTokens (ofInt 20))))
       (withMaxTokens (ofInt 20)))
  = false.
Proof.
  apply (truncateToTokens_second_pass_untouched (repeat 65%N 200) 20).
  - reflexivity.
  - split; discriminate.
Defined.

(** X6.  Whatever the budget, a number of any kind,
    [truncateToTokens] reports the estimate of the input as
    [originalTokens], reports [truncated] exactly when that estimate is
    not [<=] the budget, and returns the input itself when it is not cut
    and a prefix of the input followed by the suffix when it is. *)
Theorem truncateToTokens_keeps_prefix (X : jsstring) (B : number) :
  let r := truncateToTokens X (withMaxTokens B) in
  originalTokens r = estimateTokens X 4
  /\ truncated r = negb (ofInt (estimateTokens X 4) <=? B)%float
  /\ exists k : nat,
      Tokens.text r
      = if truncated r then firstn k X ++ defaultSuffix else X.
Proof.
  intros r. subst r. unfold truncateToTokens.
  cbn [charsPerToken maxTokens truncationSuffix withMaxTokens].
  destruct (ofInt (estimateTokens X 4) <=? B)%float.
  - cbn [originalTokens truncated Tokens.text negb].
    split; [reflexivity|]. split; [reflexivity|]. now exists 0%nat.
  - cbn [originalTokens truncated Tokens.text negb].
    split; [reflexivity|]. split; [reflexivity|].
    rewrite substring_prefix. eexists. reflexivity.
Qed.

(** X7.  With an integer budget below the 11 tokens of the default
    suffix, a text whose estimate exceeds the budget is replaced by the
    suffix alone, and [finalTokens] is 11: the result exceeds the
    budget. *)
Theorem truncateToTokens_budget_below_suffix (X : jsstring) (b : Z) :
  jslength X < 2 ^ 53 -> - 2 ^ 50 <= b < 11 -> b < estimateTokens X 4 ->
  let r := truncateToTokens X (withMaxTokens (ofInt b)) in
  Tokens.text r = defaultSuffix /\ finalTokens r = 11 /\ b < finalTokens r.
Proof.
  intros Hlen Hb Hover r.
  assert (Htext : Tokens.text r = defaultSuffix).
  { subst r. rewrite truncateToTokens_text_integer by (try assumption; lia).
    replace (estimateTokens X 4 <=? b) with false
      by (symmetry; apply Z.leb_gt; lia).
    pose proof (cutPoint_integer X (4 * (b - 11)) ltac:(lia)).
    now rewrite substring_nonpositive by lia. }
  assert (Hfinal : finalTokens r = estimateTokens (Tokens.text r) 4).
  { subst r. unfold truncateToTokens. now destruct (_ <=? _)%float. }
  rewrite Hfinal, Htext. change (estimateTokens defaultSuffix 4) with 11.
  repeat split. lia.
Qed.

Lemma truncateToTokens_budget_below_suffix_witness :
  let r := truncateToTokens (repeat 65%N 200) (withMaxTokens (ofInt 5)) in
  Tokens.text r = defaultSuffix /\ finalTokens r = 11 /\ 5 < finalTokens r.
Proof.
  apply (truncateToTokens_budget_below_suffix (repeat 65%N 200) 5).
  - reflexivity.
  - split; [discriminate|reflexivity].
  - reflexivity.
Defined.

End TokensFacts.


(** ** Credential encryption *)

Section Base64Facts.
Import JsString Errors Crypto.
Local Open Scope N_scope.

Ltac divmod := zify; Z.to_euclidean_division_equations; lia.

(** Induction over a list three elements at a time. *)
Lemma list_ind3 {A} (P : list A -> Prop) :
  P [] -> (forall a, P [a]) -> (forall a b, P [a; b]) ->
  (forall a b c r, P r -> P (a :: b :: c :: r)) ->
  forall l, P l.
Proof.
  intros H0 H1 H2 H3 l.
  assert (H : P l /\ (forall a, P (a :: l)) /\ (forall a b, P (a :: b :: l))).
  { induction l as [|x l (IH0 & IH1 & IH2)]; [now auto|].
    split; [apply IH1|]. split; [intros a; apply IH2|].
    intros a b. now apply H3. }
  apply H.
Qed.

Lemma base64Value_Char (n : N) :
  n < 64 -> base64Value (base64Char n) = Some n.
Proof.
  intros H. destruct n as [|p]; [reflexivity|].
  do 6 (destruct p as [p|p|]; try reflexivity); exfalso; lia.
Qed.

Lemma base64Char_not_space (n : N) : isAsciiWhitespace (base64Char n) = false.
Proof.
  unfold base64Char.
  destruct (N.ltb_spec n 26);
    [|destruct (N.ltb_spec n 52);
      [|destruct (N.ltb_spec n 62); [|destruct (N.eqb_spec n 62)]]];
    unfold isAsciiWhitespace;
    repeat match goal with
           | |- context [?a =? ?b] => destruct (N.eqb_spec a b)
           end; try reflexivity; exfalso; lia.
Qed.

Lemma base64Char_not_pad (n : N) : (base64Char n =? 61) = false.
Proof.
  unfold base64Char.
  destruct (N.ltb_spec n 26);
    [|destruct (N.ltb_spec n 52);
      [|destruct (N.ltb_spec n 62); [|destruct (N.eqb_spec n 62)]]];
    repeat match goal with
           | |- context [?a =? ?b] => destruct (N.eqb_spec a b)
           end; try reflexivity; exfalso; lia.
Qed.

Lemma base64Value_not_pad (c v : N) :
  base64Value c = Some v -> (c =? 61) = false.
Proof.
  destruct (N.eqb_spec c 61) as [->|]; [discriminate|reflexivity].
Qed.

(** The output of [btoa] holds no white space. *)
Lemma encodeGroups_no_space (l : list N) :
  List.filter (fun c => negb (isAsciiWhitespace c)) (encodeGroups l)
  = encodeGroups l.
Proof.
  induction l as [| a | a b | a b c r IH] using list_ind3;
    cbn [encodeGroups List.filter];
    rewrite ?base64Char_not_space; cbn [negb isAsciiWhitespace];
    try reflexivity.
  now rewrite IH.
Qed.

Lemma length_mod4_cons4 {A} (a b c d : A) (l : list A) :
  N.of_nat (length (a :: b :: c :: d :: l)) mod 4 = N.of_nat (length l) mod 4.
Proof.
  cbn [length]. rewrite !Nat2N.inj_succ. divmod.
Qed.

Lemma stripPadding_cons4 (c1 c2 c3 c4 : N) (data : jsstring) :
  (c4 =? 61) = false ->
  stripPadding (c1 :: c2 :: c3 :: c4 :: data)
  = c1 :: c2 :: c3 :: c4 :: stripPadding data.
Proof.
  intros Hc4. unfold stripPadding. rewrite length_mod4_cons4.
  destruct (N.of_nat (length data) mod 4 =? 0) eqn:Hlen; [|reflexivity].
  change (rev (c1 :: c2 :: c3 :: c4 :: data))
    with ((((rev data ++ [c4]) ++ [c3]) ++ [c2]) ++ [c1]).
  rewrite <- !app_assoc. cbn [app].
  destruct (rev data) as [|x [|y r]] eqn:Hrev.
  - (* data is empty *)
    apply (f_equal (@rev N)) in Hrev. rewrite rev_involutive in Hrev.
    subst data. cbn [app]. now rewrite Hc4.
  - (* data has one element: its length is not a multiple of 4 *)
    apply (f_equal (@length N)) in Hrev. rewrite length_rev in Hrev.
    cbn in Hrev. rewrite Hrev in Hlen. discriminate.
  - cbn [app]. destruct (x =? 61); [|reflexivity].
    destruct (y =? 61).
    + now rewrite rev_app_distr.
    + change (y :: r ++ [c4; c3; c2; c1]) with ((y :: r) ++ [c4; c3; c2; c1]).
      now rewrite rev_app_distr.
Qed.

Lemma atobCore_cons4 (c1 c2 c3 c4 s1 s2 s3 s4 : N) (data : jsstring) :
  base64Value c1 = Some s1 -> base64Value c2 = Some s2 ->
  base64Value c3 = Some s3 -> base64Value c4 = Some s4 ->
  atobCore (c1 :: c2 :: c3 :: c4 :: data)
  = option_map
      (fun r =>
         let n := ((s1 * 64 + s2) * 64 + s3) * 64 + s4 in
         n / 65536 :: (n / 256) mod 256 :: n mod 256 :: r)
      (atobCore data).
Proof.
  intros H1 H2 H3 H4. unfold atobCore.
  rewrite stripPadding_cons4 by exact (base64Value_not_pad c4 s4 H4).
  rewrite length_mod4_cons4.
  destruct (N.of_nat (length (stripPadding data)) mod 4 =? 1); [reflexivity|].
  cbn [base64Values]. rewrite H1, H2, H3, H4.
  destruct (base64Values (stripPadding data)); reflexivity.
Qed.

Lemma sextet_range (n : N) :
  n < 16777216 ->
  n / 262144 < 64 /\ (n / 4096) mod 64 < 64 /\ (n / 64) mod 64 < 64
  /\ n mod 64 < 64.
Proof. intros H. divmod. Qed.

Lemma sextets_join (n : N) :
  ((n / 262144 * 64 + (n / 4096) mod 64) * 64 + (n / 64) mod 64) * 64
  + n mod 64 = n.
Proof. divmod. Qed.

Lemma bytes_of_group (a b c : N) :
  a < 256 -> b < 256 -> c < 256 ->
  (a * 65536 + b * 256 + c) / 65536 = a
  /\ ((a * 65536 + b * 256 + c) / 256) mod 256 = b
  /\ (a * 65536 + b * 256 + c) mod 256 = c.
Proof. intros Ha Hb Hc. divmod. Qed.

Lemma bytes_of_pair (a b : N) :
  a < 256 -> b < 256 ->
  let n := a * 65536 + b * 256 in
  let m := ((n / 262144 * 64 + (n / 4096) mod 64) * 64 + (n / 64) mod 64) / 4 in
  m / 256 = a /\ m mod 256 = b.
Proof. intros Ha Hb n m. subst n m. divmod. Qed.

Lemma byte_of_single (a : N) :
  a < 256 ->
  let n := a * 65536 in
  (n / 262144 * 64 + (n / 4096) mod 64) / 16 = a.
Proof. intros Ha n. subst n. divmod. Qed.

(** Decoding inverts encoding on lists of bytes. *)
Lemma atobCore_encodeGroups (l : list N) :
  Forall (fun x => x < 256) l -> atobCore (encodeGroups l) = Some l.
Proof.
  induction l as [| a | a b | a b c r IH] using list_ind3; intros Hl.
  - reflexivity.
  - (* one byte, two digits and two pads *)
    inversion Hl as [|? ? Ha _]; subst.
    cbn [encodeGroups].
    assert (Hn : a * 65536 < 16777216) by lia.
    destruct (sextet_range _ Hn) as (R1 & R2 & _ & _).
    unfold atobCore, stripPadding. cbn [length rev app].
    change (N.of_nat 4 mod 4 =? 0) with true. cbv iota.
    change (61 =? 61) with true. cbv iota. cbn [rev app length].
    change (N.of_nat 2 mod 4 =? 1) with false. cbv iota.
    cbn [base64Values]. rewrite !base64Value_Char by assumption.
    cbn [option_map decodeGroups].
    now rewrite (byte_of_single a Ha).
  - (* two bytes, three digits and one pad *)
    inversion Hl as [|? ? Ha Hl']; subst.
    inversion Hl' as [|? ? Hb _]; subst.
    cbn [encodeGroups].
    assert (Hn : a * 65536 + b * 256 < 16777216) by lia.
    destruct (sextet_range _ Hn) as (R1 & R2 & R3 & _).
    unfold atobCore, stripPadding. cbn [length rev app].
    change (N.of_nat 4 mod 4 =? 0) with true. cbv iota.
    change (61 =? 61) with true. cbv iota.
    rewrite base64Char_not_pad. cbn [rev app length].
    change (N.of_nat 3 mod 4 =? 1) with false. cbv iota.
    cbn [base64Values]. rewrite !base64Value_Char by assumption.
    cbn [option_map decodeGroups].
    destruct (bytes_of_pair a b Ha Hb) as [E1 E2]. cbv zeta in E1, E2.
    now rewrite E1, E2.
  - (* a full group of three bytes *)
    inversion Hl as [|? ? Ha Hl1]; subst.
    inversion Hl1 as [|? ? Hb Hl2]; subst.
    inversion Hl2 as [|? ? Hc Hr]; subst.
    cbn [encodeGroups].
    assert (Hn : a * 65536 + b * 256 + c < 16777216) by lia.
    destruct (sextet_range _ Hn) as (R1 & R2 & R3 & R4).
    rewrite (atobCore_cons4 _ _ _ _ _ _ _ _ _
               (base64Value_Char _ R1) (base64Value_Char _ R2)
               (base64Value_Char _ R3) (base64Value_Char _ R4)).
    rewrite (IH Hr). cbn [option_map]. rewrite sextets_join.
    destruct (bytes_of_group a b c Ha Hb Hc) as (E1 & E2 & E3).
    now rewrite E1, E2, E3.
Qed.

Lemma atob_encodeGroups (l : list N) :
  Forall (fun x => x < 256) l -> atob (encodeGroups l) = Some l.
Proof.
  intros Hl. unfold atob. rewrite encodeGroups_no_space.
  exact (atobCore_encodeGroups l Hl).
Qed.

Lemma to_N_lt_256 (b : byte) : Byte.to_N b < 256.
Proof. pose proof (Byte.to_N_bounded b). lia. Qed.

Lemma toUint8_to_N (b : byte) : toUint8 (Byte.to_N b) = b.
Proof.
  unfold toUint8. rewrite N.mod_small by apply to_N_lt_256.
  now rewrite Byte.of_to_N.
Qed.

Lemma to_N_toUint8 (n : N) : n < 256 -> Byte.to_N (toUint8 n) = n.
Proof.
  intros H. unfold toUint8. rewrite N.mod_small by assumption.
  destruct (Byte.of_N n) as [b|] eqn:E.
  - now apply Byte.to_of_N.
  - apply Byte.of_N_None_iff in E. lia.
Qed.

Lemma bytes_lt_256 (buffer : bytes) :
  Forall (fun x => x < 256) (map Byte.to_N buffer).
Proof.
  induction buffer as [|b l IH]; constructor; [apply to_N_lt_256|exact IH].
Qed.

Lemma map_toUint8_to_N (buffer : bytes) :
  map toUint8 (map Byte.to_N buffer) = buffer.
Proof.
  induction buffer as [|b l IH]; [reflexivity|].
  cbn [map]. now rewrite toUint8_to_N, IH.
Qed.

Lemma map_to_N_toUint8 (l : list N) :
  Forall (fun x => x < 256) l -> map Byte.to_N (map toUint8 l) = l.
Proof.
  induction 1 as [|x l Hx _ IH]; [reflexivity|].
  cbn [map]. now rewrite to_N_toUint8, IH.
Qed.

(** A buffer survives the conversion to base64 and back. *)
Lemma base64_roundtrip (buffer : bytes) :
  exists s,
    arrayBufferToBase64 buffer = Ok s /\ base64ToArrayBuffer s = Ok buffer.
Proof.
  exists (encodeGroups (map Byte.to_N buffer)).
  pose proof (bytes_lt_256 buffer) as Hlt.
  unfold arrayBufferToBase64, base64ToArrayBuffer, btoa.
  replace (forallb (fun c => c <=? 255) (map Byte.to_N buffer)) with true.
  - split; [reflexivity|].
    rewrite (atob_encodeGroups _ Hlt). now rewrite map_toUint8_to_N.
  - symmetry. apply forallb_forall. intros x Hx.
    rewrite List.Forall_forall in Hlt. specialize (Hlt x Hx).
    apply N.leb_le. lia.
Qed.

End Base64Facts.

Section Utf8Facts.
Import JsString Errors Crypto.
Local Open Scope N_scope.

Ltac divmod := zify; Z.to_euclidean_division_equations; lia.

Lemma utf8Encode_bytes (cp : N) :
  cp < 0x110000 -> Forall (fun x => x < 256) (utf8Encode cp).
Proof.
  intros H. unfold utf8Encode.
  destruct (N.ltb_spec cp 0x80);
    [|destruct (N.ltb_spec cp 0x800); [|destruct (N.ltb_spec cp 0x10000)]];
    repeat constructor; divmod.
Qed.

Lemma utf8Decode_lead (b : N) (r : list N) :
  utf8Decode decoder0 (b :: r)
  = fst (leadByte b) ++ utf8Decode (snd (leadByte b)) r.
Proof. reflexivity. Qed.

Lemma utf8Decode_continue (cp seen needed lo hi b : N) (r : list N) :
  needed <> 0 -> lo <= b -> b <= hi ->
  utf8Decode (MkDecoder cp seen needed lo hi) (b :: r)
  = if seen + 1 =? needed
    then (cp * 64 + b mod 64) :: utf8Decode decoder0 r
    else utf8Decode
           (MkDecoder (cp * 64 + b mod 64) (seen + 1) needed 0x80 0xBF) r.
Proof.
  intros Hn Hlo Hhi.
  cbn [utf8Decode bytesNeeded lowerBoundary upperBoundary codePoint bytesSeen].
  apply N.eqb_neq in Hn. rewrite Hn.
  apply N.leb_le in Hlo. apply N.leb_le in Hhi. rewrite Hlo, Hhi.
  reflexivity.
Qed.

Lemma leadByte_1 (b : N) : b <= 0x7F -> leadByte b = ([b], decoder0).
Proof.
  intros H. unfold leadByte. apply N.leb_le in H. now rewrite H.
Qed.

Lemma leadByte_2 (b : N) :
  0xC2 <= b -> b <= 0xDF ->
  leadByte b = ([], MkDecoder (b mod 32) 0 1 0x80 0xBF).
Proof.
  intros H1 H2. unfold leadByte.
  replace (b <=? 0x7F) with false by (symmetry; apply N.leb_gt; lia).
  apply N.leb_le in H1. apply N.leb_le in H2. now rewrite H1, H2.
Qed.

Lemma leadByte_3 (b : N) :
  0xE0 <= b -> b <= 0xEF ->
  leadByte b
  = ([], MkDecoder (b mod 16) 0 2
           (if b =? 0xE0 then 0xA0 else 0x80)
           (if b =? 0xED then 0x9F else 0xBF)).
Proof.
  intros H1 H2. unfold leadByte.
  replace (b <=? 0x7F) with false by (symmetry; apply N.leb_gt; lia).
  replace (b <=? 0xDF) with false by (symmetry; apply N.leb_gt; lia).
  rewrite andb_false_r.
  apply N.leb_le in H1. apply N.leb_le in H2. now rewrite H1, H2.
Qed.

Lemma leadByte_4 (b : N) :
  0xF0 <= b -> b <= 0xF4 ->
  leadByte b
  = ([], MkDecoder (b mod 8) 0 3
           (if b =? 0xF0 then 0x90 else 0x80)
           (if b =? 0xF4 then 0x8F else 0xBF)).
Proof.
  intros H1 H2. unfold leadByte.
  replace (b <=? 0x7F) with false by (symmetry; apply N.leb_gt; lia).
  replace (b <=? 0xDF) with false by (symmetry; apply N.leb_gt; lia).
  replace (b <=? 0xEF) with false by (symmetry; apply N.leb_gt; lia).
  rewrite !andb_false_r.
  apply N.leb_le in H1. apply N.leb_le in H2. now rewrite H1, H2.
Qed.

(** The decoder reads back the bytes of one scalar value. *)
Lemma utf8Decode_encode (cp : N) (rest : list N) :
  isScalar cp ->
  utf8Decode decoder0 (utf8Encode cp ++ rest) = cp :: utf8Decode decoder0 rest.
Proof.
  intros [Hmax Hsur]. unfold utf8Encode.
  destruct (N.ltb_spec cp 0x80) as [H1|H1].
  { (* one byte *)
    cbn [app]. rewrite utf8Decode_lead, leadByte_1 by lia. reflexivity. }
  destruct (N.ltb_spec cp 0x800) as [H2|H2].
  { (* two bytes *)
    cbn [app]. rewrite utf8Decode_lead, leadByte_2 by divmod.
    cbn [fst snd app].
    rewrite utf8Decode_continue by divmod.
    change (0 + 1 =? 1) with true. cbv iota.
    f_equal. divmod. }
  destruct (N.ltb_spec cp 0x10000) as [H3|H3].
  { (* three bytes *)
    cbn [app]. rewrite utf8Decode_lead, leadByte_3 by divmod.
    cbn [fst snd app].
    rewrite utf8Decode_continue;
      [| discriminate
       | destruct (N.eqb_spec (0xE0 + cp / 4096) 0xE0); divmod
       | destruct (N.eqb_spec (0xE0 + cp / 4096) 0xED); divmod ].
    change (0 + 1 =? 2) with false. cbv iota.
    rewrite utf8Decode_continue by divmod.
    change (0 + 1 + 1 =? 2) with true. cbv iota.
    f_equal. divmod. }
  (* four bytes *)
  cbn [app]. rewrite utf8Decode_lead, leadByte_4 by divmod.
  cbn [fst snd app].
  rewrite utf8Decode_continue;
    [| discriminate
     | destruct (N.eqb_spec (0xF0 + cp / 262144) 0xF0); divmod
     | destruct (N.eqb_spec (0xF0 + cp / 262144) 0xF4); divmod ].
  change (0 + 1 =? 3) with false. cbv iota.
  rewrite utf8Decode_continue by divmod.
  change (0 + 1 + 1 =? 3) with false. cbv iota.
  rewrite utf8Decode_continue by divmod.
  change (0 + 1 + 1 + 1 =? 3) with true. cbv iota.
  f_equal. divmod.
Qed.

Lemma utf8Decode_flat_map (cps : list N) :
  Forall isScalar cps ->
  utf8Decode decoder0 (flat_map utf8Encode cps) = cps.
Proof.
  induction 1 as [|cp cps Hcp _ IH]; [reflexivity|].
  cbn [flat_map]. rewrite utf8Decode_encode by assumption. now rewrite IH.
Qed.

Lemma flat_map_utf8_bytes (cps : list N) :
  Forall isScalar cps ->
  Forall (fun x => x < 256) (flat_map utf8Encode cps).
Proof.
  induction 1 as [|cp cps [Hcp _] _ IH]; [constructor|].
  cbn [flat_map]. apply Forall_app. split; [now apply utf8Encode_bytes|exact IH].
Qed.

(** What [isWellFormed] says of the first unit. *)
Lemma isWellFormed_cons (c : N) (s : jsstring) :
  isWellFormed (c :: s) = true ->
  (0xD800 <= c <= 0xDBFF
   /\ exists d s', s = d :: s' /\ 0xDC00 <= d <= 0xDFFF
                   /\ isWellFormed s' = true)
  \/ (c < 0x10000 /\ ~ (0xD800 <= c <= 0xDFFF) /\ isWellFormed s = true).
Proof.
  cbn [isWellFormed].
  destruct (N.leb_spec 0xD800 c); destruct (N.leb_spec c 0xDBFF);
    cbn [andb].
  - destruct s as [|d s']; [discriminate|].
    intros Hw. apply andb_prop in Hw. destruct Hw as [Hw Hs'].
    apply andb_prop in Hw. destruct Hw as [Hd1 Hd2].
    apply N.leb_le in Hd1. apply N.leb_le in Hd2.
    left. split; [lia|]. exists d, s'. repeat split; assumption.
  - intros Hw. apply andb_prop in Hw. destruct Hw as [Hw Hs].
    apply andb_prop in Hw. destruct Hw as [Hc Hlow].
    apply N.ltb_lt in Hc. right. repeat split; try assumption.
    intros [Ha Hb]. destruct (N.leb_spec 0xDC00 c); [|lia].
    destruct (N.leb_spec c 0xDFFF); [discriminate|lia].
  - intros Hw. apply andb_prop in Hw. destruct Hw as [Hw Hs].
    apply andb_prop in Hw. destruct Hw as [Hc _].
    apply N.ltb_lt in Hc. right. repeat split; try assumption. lia.
  - intros Hw. apply andb_prop in Hw. destruct Hw as [Hw Hs].
    apply andb_prop in Hw. destruct Hw as [Hc _].
    apply N.ltb_lt in Hc. right. repeat split; try assumption. lia.
Qed.

Lemma scalarValues_pair (c d : N) (s : jsstring) :
  0xD800 <= c <= 0xDBFF -> 0xDC00 <= d <= 0xDFFF ->
  scalarValues (c :: d :: s)
  = (0x10000 + (c - 0xD800) * 0x400 + (d - 0xDC00)) :: scalarValues s.
Proof.
  intros [Hc1 Hc2] [Hd1 Hd2]. cbn [scalarValues].
  unfold isHighSurrogate, isLowSurrogate.
  apply N.leb_le in Hc1, Hc2, Hd1, Hd2.
  now rewrite Hc1, Hc2, Hd1, Hd2.
Qed.

Lemma scalarValues_single (c : N) (s : jsstring) :
  ~ (0xD800 <= c <= 0xDFFF) ->
  scalarValues (c :: s) = c :: scalarValues s.
Proof.
  intros Hc. cbn [scalarValues]. unfold isHighSurrogate, isLowSurrogate.
  destruct (N.leb_spec 0xD800 c); destruct (N.leb_spec c 0xDBFF);
    destruct (N.leb_spec 0xDC00 c); destruct (N.leb_spec c 0xDFFF);
    cbn [andb]; try reflexivity; exfalso; apply Hc; lia.
Qed.

(** Proof by induction over a well-formed string, one scalar value at a
    time. *)
Lemma wellFormed_ind (Q : jsstring -> Prop) :
  Q [] ->
  (forall c s, c < 0x10000 -> ~ (0xD800 <= c <= 0xDFFF) -> Q s -> Q (c :: s)) ->
  (forall c d s, 0xD800 <= c <= 0xDBFF -> 0xDC00 <= d <= 0xDFFF -> Q s ->
                 Q (c :: d :: s)) ->
  forall s, isWellFormed s = true -> Q s.
Proof.
  intros Hnil Hone Htwo s.
  assert (H : (isWellFormed s = true -> Q s)
              /\ (forall c, isWellFormed (c :: s) = true -> Q (c :: s))).
  { induction s as [|x s [IH0 IH1]].
    - split; [intros _; exact Hnil|].
      intros c Hc. apply isWellFormed_cons in Hc.
      destruct Hc as [(_ & d & s' & E & _)|(H1 & H2 & _)]; [discriminate|].
      now apply Hone.
    - split; [apply IH1|].
      intros c Hc. apply isWellFormed_cons in Hc.
      destruct Hc as [(H1 & d & s' & E & H2 & H3)|(H1 & H2 & H3)].
      + injection E as <- <-. apply Htwo; auto.
      + apply Hone; auto. }
  apply H.
Qed.

Lemma scalarValues_scalar (s : jsstring) :
  isWellFormed s = true -> Forall isScalar (scalarValues s).
Proof.
  revert s. apply wellFormed_ind.
  - constructor.
  - intros c s Hc Hsur IH. rewrite scalarValues_single by assumption.
    constructor; [split; [lia|assumption]|exact IH].
  - intros c d s Hc Hd IH. rewrite scalarValues_pair by assumption.
    constructor; [split; lia|exact IH].
Qed.

Lemma utf16Units_scalarValues (s : jsstring) :
  isWellFormed s = true -> flat_map utf16Units (scalarValues s) = s.
Proof.
  revert s. apply wellFormed_ind.
  - reflexivity.
  - intros c s Hc Hsur IH. rewrite scalarValues_single by assumption.
    cbn [flat_map]. rewrite IH. unfold utf16Units.
    apply N.ltb_lt in Hc. now rewrite Hc.
  - intros c d s Hc Hd IH. rewrite scalarValues_pair by assumption.
    cbn [flat_map]. rewrite IH. unfold utf16Units.
    replace (0x10000 + (c - 0xD800) * 0x400 + (d - 0xDC00) <? 0x10000)
      with false by (symmetry; apply N.ltb_ge; lia).
    cbn [app]. f_equal; [divmod|]. f_equal. divmod.
Qed.

Lemma scalarValues_head (s : jsstring) :
  isWellFormed s = true ->
  head s <> Some 0xFEFF ->
  match scalarValues s with
  | c :: r => if c =? 0xFEFF then r else scalarValues s
  | [] => scalarValues s
  end = scalarValues s.
Proof.
  intros Hwf Hhead. destruct s as [|c s]; [reflexivity|].
  apply isWellFormed_cons in Hwf.
  destruct Hwf as [(H1 & d & s' & -> & H2 & _)|(H1 & H2 & _)].
  - rewrite scalarValues_pair by assumption.
    replace (0x10000 + (c - 0xD800) * 0x400 + (d - 0xDC00) =? 0xFEFF)
      with false by (symmetry; apply N.eqb_neq; lia).
    reflexivity.
  - rewrite scalarValues_single by assumption.
    replace (c =? 0xFEFF) with false; [reflexivity|].
    symmetry. apply N.eqb_neq. intros ->. now apply Hhead.
Qed.

(** Text coding preserves a well-formed string that does not begin with
    the byte order mark. *)
Lemma textDecode_textEncode (s : jsstring) :
  isWellFormed s = true ->
  head s <> Some 0xFEFF ->
  textDecode (textEncode s) = s.
Proof.
  intros Hwf Hhead. unfold textDecode, textEncode.
  pose proof (scalarValues_scalar s Hwf) as Hsc.
  rewrite map_to_N_toUint8 by now apply flat_map_utf8_bytes.
  rewrite utf8Decode_flat_map by assumption.
  rewrite scalarValues_head by assumption.
  now apply utf16Units_scalarValues.
Qed.

End Utf8Facts.

Section CryptoFacts.
Import JsString Errors Crypto.
Local Open Scope N_scope.

(** A key that is valid base64 yields a 256-bit AES key, directly or
    through SHA-256. *)
Lemma deriveKey_ok (sc : SubtleCrypto) (K : jsstring) :
  SubtleCryptoSpec sc ->
  atob K <> None ->
  exists key, deriveKey sc K = Ok key /\ length key = 32%nat.
Proof.
  intros [Hsha _] HK. unfold deriveKey, base64ToArrayBuffer.
  destruct (atob K) as [binary|]; [|contradiction].
  unfold importKey.
  destruct (Nat.eqb_spec (length (map toUint8 binary)) 32) as [E|E].
  - rewrite E. eexists. split; [reflexivity|exact E].
  - rewrite Hsha. eexists. split; [reflexivity|apply Hsha].
Qed.

(** A key that is not valid base64 stops [encrypt] before any primitive
    is called. *)
Lemma encrypt_invalid_key (sc : SubtleCrypto) (ivBytes : bytes)
    (P K : jsstring) :
  atob K = None -> encrypt sc ivBytes P K = invalidCharacter.
Proof.
  intros HK. unfold encrypt, deriveKey, base64ToArrayBuffer.
  now rewrite HK.
Qed.

(** C3 (as amended).  For every key string that is valid base64 and every
    plaintext that is a well-formed string not beginning with U+FEFF,
    [encrypt] succeeds and [decrypt] of its result under the same key
    returns exactly the plaintext, whatever the initialization vector,
    provided SHA-256 and AES-GCM honour their contract. *)
Theorem decrypt_inverts_encrypt (sc : SubtleCrypto) (ivBytes : bytes)
    (P K : jsstring) :
  SubtleCryptoSpec sc ->
  atob K <> None ->
  isWellFormed P = true ->
  head P <> Some 0xFEFF ->
  exists e, encrypt sc ivBytes P K = Ok e /\ decrypt sc e K = Ok P.
Proof.
  intros Hsc HK Hwf Hbom.
  destruct (deriveKey_ok sc K Hsc HK) as (key & Hkey & Hlen).
  destruct Hsc as [_ Haes].
  destruct (base64_roundtrip (aesGcmEncrypt sc key ivBytes (textEncode P)))
    as (c & Hc1 & Hc2).
  destruct (base64_roundtrip ivBytes) as (i & Hi1 & Hi2).
  exists (MkEncrypted c i). split.
  - unfold encrypt. now rewrite Hkey, Hc1, Hi1.
  - unfold decrypt. cbn [iv ciphertext].
    rewrite Hkey, Hi2, Hc2, Haes by exact Hlen.
    now rewrite textDecode_textEncode.
Qed.

Lemma toySubtle_spec : SubtleCryptoSpec toySubtle.
Proof.
  split.
  - intros d. apply repeat_length.
  - intros key ivb p _. cbn [toySubtle aesGcmDecrypt aesGcmEncrypt].
    assert (Hlen : (length (p ++ toyTag key ivb) - 16 = length p)%nat).
    { rewrite length_app. unfold toyTag. rewrite repeat_length. lia. }
    rewrite Hlen.
    rewrite skipn_app, firstn_app, skipn_all, firstn_all, Nat.sub_diag.
    cbn [firstn app]. rewrite app_nil_r.
    change (skipn 0 (toyTag key ivb)) with (toyTag key ivb).
    destruct (decide (map Byte.to_N (toyTag key ivb)
                      = map Byte.to_N (toyTag key ivb))); [|congruence].
    replace (16 <=? length (p ++ toyTag key ivb))%nat with true; [reflexivity|].
    symmetry. apply Nat.leb_le. rewrite length_app. unfold toyTag.
    rewrite repeat_length. lia.
Qed.

Lemma decrypt_inverts_encrypt_witness :
  exists e,
    encrypt toySubtle (repeat x01 12) samplePlaintext sampleKey = Ok e
    /\ decrypt toySubtle e sampleKey = Ok samplePlaintext.
Proof.
  apply (decrypt_inverts_encrypt toySubtle (repeat x01 12) samplePlaintext
           sampleKey).
  - exact toySubtle_spec.
  - vm_compute. discriminate.
  - vm_compute. reflexivity.
  - vm_compute. discriminate.
Defined.

(** C3 (as stated) fails.  The key is decoded as base64 before anything
    else; with the key the test suite uses as the wrong key, which holds
    hyphens, [encrypt] throws and there is nothing to decrypt. *)
Lemma encrypt_rejects_key_outside_base64 :
  atob (js "wrong-encryption-key-for-testing") = None
  /\ encrypt toySubtle (repeat x01 12) (js "Secret message")
       (js "wrong-encryption-key-for-testing")
     = Throw (OtherError (js "InvalidCharacterError")).
Proof. split; vm_compute; reflexivity. Qed.

(** Plaintexts outside the theorem: a leading U+FEFF is dropped by the
    decoder, and an unpaired surrogate comes back as U+FFFD. *)
Lemma text_coding_alters_some_strings :
  textDecode (textEncode [0xFEFF; 72]) = [72]
  /\ textDecode (textEncode [0xD800; 72]) = [0xFFFD; 72].
Proof. split; vm_compute; reflexivity. Qed.


Lemma secureCompare_fold (a b : jsstring) (acc : N) :
  length a = length b ->
  fold_left (fun result xy => N.lor result (N.lxor (fst xy) (snd xy)))
    (combine a b) acc = 0
  <-> acc = 0 /\ a = b.
Proof.
  revert b acc. induction a as [|x a IH]; intros [|y b] acc Hlen;
    try discriminate.
  - cbn. tauto.
  - cbn [combine fold_left fst snd]. injection Hlen as Hlen.
    rewrite (IH b _ Hlen). rewrite N.lor_eq_0_iff, N.lxor_eq_0_iff.
    split.
    + intros [[-> ->] ->]. auto.
    + intros [-> [= -> ->]]. auto.
Qed.

(** X23.  [secureCompare] answers [true] exactly when the two
    strings are equal. *)
Theorem secureCompare_spec (a b : jsstring) :
  secureCompare a b = true <-> a = b.
Proof.
  unfold secureCompare.
  destruct (Nat.eqb_spec (length a) (length b)) as [Hlen|Hlen]; cbn [negb].
  - rewrite N.eqb_eq, (secureCompare_fold a b 0 Hlen). tauto.
  - split; [discriminate|]. intros ->. contradiction.
Qed.

Lemma base64Char_not_colon (n : N) : (base64Char n =? 58) = false.
Proof.
  unfold base64Char.
  destruct (N.ltb_spec n 26);
    [|destruct (N.ltb_spec n 52);
      [|destruct (N.ltb_spec n 62); [|destruct (N.eqb_spec n 62)]]];
    repeat match goal with
           | |- context [?a =? ?b] => destruct (N.eqb_spec a b)
           end; try reflexivity; exfalso; lia.
Qed.

Lemma encodeGroups_no_colon (l : list N) :
  Forall (fun c => (c =? 58) = false) (encodeGroups l).
Proof.
  induction l as [| a | a b | a b c r IH] using list_ind3;
    cbn [encodeGroups]; repeat constructor;
    try apply base64Char_not_colon; exact IH.
Qed.

Lemma encodeGroups_nonempty (l : list N) : l <> [] -> encodeGroups l <> [].
Proof.
  destruct l as [|a [|b [|c r]]]; [congruence| | |]; intros _; discriminate.
Qed.

Lemma splitColon_nonempty (s : jsstring) : splitColon s <> [].
Proof.
  destruct s as [|c r]; [discriminate|]. cbn [splitColon].
  destruct (c =? 58); [discriminate|].
  destruct (splitColon r); discriminate.
Qed.

Lemma splitColon_plain (s : jsstring) :
  Forall (fun c => (c =? 58) = false) s -> splitColon s = [s].
Proof.
  induction 1 as [|c s Hc _ IH]; [reflexivity|].
  cbn [splitColon]. now rewrite Hc, IH.
Qed.

Lemma splitColon_app (a b : jsstring) :
  Forall (fun c => (c =? 58) = false) a ->
  splitColon (a ++ 58 :: b) = a :: splitColon b.
Proof.
  induction 1 as [|c a Hc _ IH]; [reflexivity|].
  cbn [app splitColon]. now rewrite Hc, IH.
Qed.

Lemma length_splitColon (s : jsstring) :
  length (splitColon s) = S (colons s).
Proof.
  unfold colons. induction s as [|c r IH]; [reflexivity|].
  cbn [splitColon List.filter]. destruct (c =? 58).
  - cbn [length]. now rewrite IH.
  - pose proof (splitColon_nonempty r).
    destruct (splitColon r) as [|p ps]; [contradiction|].
    cbn [length] in *. exact IH.
Qed.

Lemma arrayBufferToBase64_ok (buffer : bytes) :
  arrayBufferToBase64 buffer = Ok (encodeGroups (map Byte.to_N buffer)).
Proof.
  pose proof (bytes_lt_256 buffer) as Hlt.
  unfold arrayBufferToBase64, btoa.
  replace (forallb (fun c => c <=? 255) (map Byte.to_N buffer)) with true;
    [reflexivity|].
  symmetry. apply forallb_forall. intros x Hx.
  rewrite List.Forall_forall in Hlt. specialize (Hlt x Hx).
  apply N.leb_le. lia.
Qed.

Lemma base64ToArrayBuffer_encodeGroups (buffer : bytes) :
  base64ToArrayBuffer (encodeGroups (map Byte.to_N buffer)) = Ok buffer.
Proof.
  destruct (base64_roundtrip buffer) as (s & Hs & Hback).
  rewrite arrayBufferToBase64_ok in Hs. injection Hs as <-. exact Hback.
Qed.

Lemma decryptFromString_parts (sc : SubtleCrypto) (s i c K : jsstring) :
  i <> [] -> c <> [] -> splitColon s = [i; c] ->
  decryptFromString sc s K = decrypt sc (MkEncrypted c i) K.
Proof.
  intros Hi Hc Hs. unfold decryptFromString. rewrite Hs.
  destruct i; [contradiction|]. destruct c; [contradiction|]. reflexivity.
Qed.

(** X24.  For every key that is valid base64, every well-formed
    plaintext not beginning with U+FEFF and every 12-byte initialization
    vector, [encryptToString] returns a text with exactly one colon, and
    [decryptFromString] of that text under the same key returns the
    plaintext, provided SHA-256 and AES-GCM honour their contract and the
    ciphertext carries the 16-byte tag. *)
Theorem decryptFromString_inverts_encryptToString (sc : SubtleCrypto)
    (ivBytes : bytes) (P K : jsstring) :
  SubtleCryptoSpec sc ->
  (forall key nonce plaintext,
      length (aesGcmEncrypt sc key nonce plaintext)
      = (length plaintext + 16)%nat) ->
  length ivBytes = 12%nat ->
  atob K <> None ->
  isWellFormed P = true ->
  head P <> Some 0xFEFF ->
  exists s,
    encryptToString sc ivBytes P K = Ok s
    /\ colons s = 1%nat
    /\ decryptFromString sc s K = Ok P.
Proof.
  intros Hsc Htag Hiv HK Hwf Hbom.
  destruct (deriveKey_ok sc K Hsc HK) as (key & Hkey & Hlen).
  destruct Hsc as [_ Haes].
  set (cbytes := aesGcmEncrypt sc key ivBytes (textEncode P)).
  set (c := encodeGroups (map Byte.to_N cbytes)).
  set (i := encodeGroups (map Byte.to_N ivBytes)).
  assert (Hi : i <> []).
  { apply encodeGroups_nonempty. destruct ivBytes; discriminate. }
  assert (Hc : c <> []).
  { apply encodeGroups_nonempty.
    assert (length cbytes <> 0%nat) by (unfold cbytes; rewrite Htag; lia).
    destruct cbytes; [contradiction|discriminate]. }
  assert (Hsplit : splitColon (i ++ [58] ++ c) = [i; c]).
  { cbn [app]. rewrite splitColon_app by apply encodeGroups_no_colon.
    now rewrite splitColon_plain by apply encodeGroups_no_colon. }
  exists (i ++ [58] ++ c). split; [|split].
  - unfold encryptToString, encrypt. rewrite Hkey.
    now rewrite !arrayBufferToBase64_ok.
  - pose proof (length_splitColon (i ++ [58] ++ c)) as Hn.
    rewrite Hsplit in Hn. cbn [length] in Hn. lia.
  - rewrite (decryptFromString_parts sc _ i c K Hi Hc Hsplit).
    unfold decrypt. cbn [iv ciphertext]. rewrite Hkey.
    unfold i, c. rewrite !base64ToArrayBuffer_encodeGroups.
    unfold cbytes. rewrite Haes by exact Hlen.
    now rewrite textDecode_textEncode.
Qed.

Lemma toySubtle_tag (key nonce plaintext : bytes) :
  length (aesGcmEncrypt toySubtle key nonce plaintext)
  = (length plaintext + 16)%nat.
Proof.
  cbn [toySubtle aesGcmEncrypt]. rewrite length_app. unfold toyTag.
  now rewrite repeat_length.
Qed.

Lemma decryptFromString_inverts_encryptToString_witness :
  exists s,
    encryptToString toySubtle (repeat x01 12) samplePlaintext sampleKey = Ok s
    /\ colons s = 1%nat
    /\ decryptFromString toySubtle s sampleKey = Ok samplePlaintext.
Proof.
  apply (decryptFromString_inverts_encryptToString toySubtle (repeat x01 12)
           samplePlaintext sampleKey).
  - exact toySubtle_spec.
  - exact toySubtle_tag.
  - reflexivity.
  - vm_compute. discriminate.
  - vm_compute. reflexivity.
  - vm_compute. discriminate.
Defined.

(** X25.  A text whose number of colons is not one is rejected
    by [decryptFromString] with the format error, before the key is looked
    at. *)
Theorem decryptFromString_rejects_other_formats (sc : SubtleCrypto)
    (s K : jsstring) :
  colons s <> 1%nat ->
  decryptFromString sc s K
  = Throw (OtherError (js "Invalid encrypted string format")).
Proof.
  intros Hn. unfold decryptFromString.
  pose proof (length_splitColon s) as Hlen.
  destruct (splitColon s) as [|p [|q [|r l]]]; cbn [length] in Hlen;
    [ reflexivity
    | destruct p; reflexivity
    | exfalso; lia
    | destruct p; [reflexivity|destruct q; reflexivity] ].
Qed.

Lemma decryptFromString_rejects_other_formats_witness :
  decryptFromString toySubtle (js "a:b:c") sampleKey
  = Throw (OtherError (js "Invalid encrypted string format")).
Proof.
  apply (decryptFromString_rejects_other_formats toySubtle (js "a:b:c")).
  vm_compute. discriminate.
Defined.

Lemma base64Char_class (n : N) :
  isUpper (base64Char n) || isLower (base64Char n) || isDigit (base64Char n)
  || (base64Char n =? 43) || (base64Char n =? 47) = true.
Proof.
  unfold base64Char, isUpper, isLower, isDigit.
  destruct (N.ltb_spec n 26);
    [|destruct (N.ltb_spec n 52);
      [|destruct (N.ltb_spec n 62); [|destruct (N.eqb_spec n 62)]]];
    repeat match goal with
           | |- context [?a <=? ?b] => destruct (N.leb_spec a b)
           | |- context [?a =? ?b] => destruct (N.eqb_spec a b)
           end; try reflexivity; exfalso; lia.
Qed.

Lemma encodeGroups_chars (l : list N) :
  Forall (fun c => c = 61 \/ exists n, c = base64Char n) (encodeGroups l).
Proof.
  induction l as [| a | a b | a b c r IH] using list_ind3;
    cbn [encodeGroups];
    repeat (apply List.Forall_cons;
            [first [left; reflexivity | right; eexists; reflexivity]|]);
    first [apply List.Forall_nil | exact IH].
Qed.

(** X26.  Whatever the random bytes, [generateUrlSafeToken]
    returns a token made of letters, digits, [-] and [_] only. *)
Theorem generateUrlSafeToken_alphabet (random : bytes) :
  exists token,
    generateUrlSafeToken random = Ok token
    /\ forallb urlSafe token = true.
Proof.
  unfold generateUrlSafeToken, generateToken.
  rewrite arrayBufferToBase64_ok. eexists. split; [reflexivity|].
  apply forallb_forall. intros c Hc.
  apply filter_In in Hc. destruct Hc as [Hc Hpad].
  apply in_map_iff in Hc. destruct Hc as (c1 & <- & Hc).
  apply in_map_iff in Hc. destruct Hc as (c0 & <- & Hc).
  pose proof (encodeGroups_chars (map Byte.to_N random)) as Hall.
  rewrite List.Forall_forall in Hall. specialize (Hall c0 Hc).
  destruct Hall as [->|[n ->]]; [discriminate Hpad|].
  pose proof (base64Char_class n) as Hclass. clear Hc Hpad.
  cbv beta.
  revert Hclass. generalize (base64Char n). intros ch Hclass.
  unfold urlSafe.
  destruct (N.eqb_spec ch 43) as [E43|H43]; [try rewrite E43; reflexivity|].
  destruct (N.eqb_spec ch 47) as [E47|H47]; [try rewrite E47; reflexivity|].
  apply N.eqb_neq in H43, H47. rewrite ?H43, ?H47 in Hclass.
  rewrite !orb_false_r in Hclass. now rewrite Hclass.
Qed.
End CryptoFacts.
